(** * red-v-blue: the sandboxed replication demo (replicant_v1.2.py)

    A shallow embedding of [src/replicant_v1.2.py] (and of the commands
    [cmd_init], [cmd_demo], [cmd_cleanup] and of [validate_config] of
    [src/legacy/replicant_v1.1.py]) together with the properties its
    specification states about it.

    Modelling conventions.
    - The file system is a finite map from absolute, normalised paths to
      nodes (directories and regular files).  Symbolic links, permissions
      and devices are outside the model; the only I/O errors are the ones
      the tree itself causes (a missing parent, a file where a directory
      is needed, a directory where a file is needed).  A name is taken as
      the operating system takes it: a name with a NUL character, for
      which Python raises [ValueError] before any system call, and the
      errors that depend on more than the tree (a name too long, a
      permission) are outside the model too.  A statement about the ways
      a command can end therefore leaves room for an exception other than
      [SystemExit] that escapes.
    - Python exceptions are an explicit result type; every operation
      returns the world it leaves behind, also when it raises.
    - [random.randint] and the names of [tempfile.NamedTemporaryFile] are
      oracles: the token is an argument, the temporary names come from a
      counter kept in the world.
    - The logger runs at its default level INFO; the time stamp of a log
      line and of the manifest is the [asctime] field of the world. *)

From Stdlib Require Import ZArith String Ascii List Lia.
From Stdlib.Strings Require Import Byte.
From stdpp Require Import base tactics option list gmap strings pretty sorting.

Local Open Scope Z_scope.

(** ** Exceptions and results *)

Inductive errno := ENOENT | ENOTDIR | EEXIST | EISDIR | ENOTEMPTY | EINVAL.

Inductive exn :=
| ValueError (msg : string)
| OSError (e : errno)
| SystemExit (code : Z).

Inductive res (A : Type) :=
| Ok (a : A)
| Raise (e : exn).
Arguments Ok {A} a.
Arguments Raise {A} e.

Global Instance errno_eq_dec : EqDecision errno.
Proof. solve_decision. Defined.

(** Stands for [str(e)] in the log messages; the errno number and the
    path that Python adds to the text are not modelled. *)
Definition errno_name (e : errno) : string :=
  match e with
  | ENOENT => "No such file or directory"
  | ENOTDIR => "Not a directory"
  | EEXIST => "File exists"
  | EISDIR => "Is a directory"
  | ENOTEMPTY => "Directory not empty"
  | EINVAL => "Invalid argument"
  end.

(** ** The configuration dictionary and [validate_cfg] *)

Module Config.

(** The Python values a configuration entry can hold.  [bool] is a
    subclass of [int] in Python, so [isinstance(True, int)] holds. *)
Inductive pyval :=
| PyNone
| PyBool (b : bool)
| PyInt (z : Z)
| PyStr (s : string).

Definition isinstance_int (v : pyval) : bool :=
  match v with PyBool _ | PyInt _ => true | _ => false end.

Definition isinstance_str (v : pyval) : bool :=
  match v with PyStr _ => true | _ => false end.

Definition int_value (v : pyval) : Z :=
  match v with
  | PyInt z => z
  | PyBool true => 1
  | _ => 0
  end.

Definition str_value (v : pyval) : string :=
  match v with PyStr s => s | _ => "" end.

(** [CFG.get(k)]: [None] for an absent key. *)
Definition get (d : gmap string pyval) (k : string) : pyval :=
  default PyNone (d !! k).

Definition RESERVED_NAMES : gset string :=
  {[ "CON"; "PRN"; "AUX"; "NUL"; "COM1"; "LPT1" ]}.

(** [v in RESERVED_NAMES]: only a string can equal a member. *)
Definition in_reserved (v : pyval) : bool :=
  match v with
  | PyStr s => bool_decide (s ∈ RESERVED_NAMES)
  | _ => false
  end.

(** [ch in v] for a one-character [ch] and a string [v]. *)
Fixpoint contains (ch : ascii) (v : string) : bool :=
  match v with
  | EmptyString => false
  | String c v' => Ascii.eqb ch c || contains ch v'
  end.

Definition has_separator (v : string) : bool :=
  existsb (fun ch => contains ch v) ["/"%char; "\"%char].

Definition name_keys : list string :=
  ["sandbox"; "replica_dir"; "hosts_root"; "marker"; "logfile"].

(** One iteration of the [for k in (...)] loop of [validate_cfg]. *)
Definition check_name (d : gmap string pyval) (k : string) : res unit :=
  let v := get d k in
  if in_reserved v || negb (isinstance_str v)
  then Raise (ValueError ("CFG['" +:+ k +:+ "'] invalid."))
  else if has_separator (str_value v)
  then Raise (ValueError ("CFG['" +:+ k +:+ "'] must not contain path separators."))
  else Ok tt.

Fixpoint check_names (d : gmap string pyval) (ks : list string) : res unit :=
  match ks with
  | [] => Ok tt
  | k :: ks' =>
      match check_name d k with
      | Ok _ => check_names d ks'
      | Raise e => Raise e
      end
  end.

Definition validate_cfg (d : gmap string pyval) : res unit :=
  if negb (isinstance_int (get d "limit")) || (int_value (get d "limit") <? 0)
  then Raise (ValueError "CFG['limit'] must be non-negative int.")
  else if negb (isinstance_int (get d "host_count"))
          || (int_value (get d "host_count") <? 0)
          || (10 <? int_value (get d "host_count"))
  then Raise (ValueError "CFG['host_count'] must be 0..10.")
  else check_names d name_keys.

(** The typed view of the dictionary that [WormDemo] reads through
    [self.cfg[...]]. *)
Record cfg := mkCfg {
  sandbox : string;
  replica_dir : string;
  hosts_root : string;
  host_count : Z;
  limit : Z;
  marker : string;
  logfile : string;
}.

Definition of_dict (d : gmap string pyval) : cfg :=
  {| sandbox := str_value (get d "sandbox");
     replica_dir := str_value (get d "replica_dir");
     hosts_root := str_value (get d "hosts_root");
     host_count := int_value (get d "host_count");
     limit := int_value (get d "limit");
     marker := str_value (get d "marker");
     logfile := str_value (get d "logfile") |}.

Definition to_dict (c : cfg) : gmap string pyval :=
  <["sandbox" := PyStr (sandbox c)]>
  (<["replica_dir" := PyStr (replica_dir c)]>
  (<["hosts_root" := PyStr (hosts_root c)]>
  (<["host_count" := PyInt (host_count c)]>
  (<["limit" := PyInt (limit c)]>
  (<["marker" := PyStr (marker c)]>
  (<["logfile" := PyStr (logfile c)]> ∅)))))).

(** The module-level [CFG] of replicant_v1.2.py. *)
Definition CFG : cfg :=
  {| sandbox := "sandbox_w";
     replica_dir := "replicas";
     hosts_root := "hosts";
     host_count := 3;
     limit := 3;
     marker := "STOP";
     logfile := "w_demo.log" |}.

End Config.

(** ** Paths *)

(** An absolute, normalised path: the components below the root. *)
Definition path := list string.

(** A [pathlib] path: anchored at the root or relative to the working
    directory, with its components.  [pathlib] drops empty and [.]
    components when it parses and keeps [..]. *)
Record PurePath := mkPath { anchored : bool; parts : list string }.

Fixpoint split_slash (s : string) : list string :=
  match s with
  | EmptyString => [EmptyString]
  | String c s' =>
      if Ascii.eqb c "/" then EmptyString :: split_slash s'
      else match split_slash s' with
           | [] => [String c EmptyString]
           | h :: t => String c h :: t
           end
  end.

Definition kept_part (c : string) : bool :=
  negb (String.eqb c "") && negb (String.eqb c ".").

Definition Path (s : string) : PurePath :=
  {| anchored := String.prefix "/" s;
     parts := List.filter kept_part (split_slash s) |}.

(** [p / s] *)
Definition joinpath (p : PurePath) (s : string) : PurePath :=
  let q := Path s in
  if anchored q then q
  else {| anchored := anchored p; parts := parts p ++ parts q |}.

Notation "p // s" := (joinpath p s) (at level 40, left associativity).

(** [p.parent] and [p.name] *)
Definition parent (p : PurePath) : PurePath :=
  {| anchored := anchored p; parts := removelast (parts p) |}.

Definition name (p : PurePath) : string := List.last (parts p) "".

Definition join_parts (l : list string) : string :=
  match l with
  | [] => ""
  | c :: cs => fold_left (fun acc x => acc +:+ "/" +:+ x) cs c
  end.

(** [str(p)] *)
Definition str (p : PurePath) : string :=
  if anchored p then "/" +:+ join_parts (parts p)
  else match parts p with [] => "." | _ => join_parts (parts p) end.

(** One component of a walk from [cur]. *)
Definition step (cur : path) (c : string) : path :=
  if String.eqb c ".." then removelast cur
  else if kept_part c then cur ++ [c] else cur.

(** [p.resolve()] without symbolic links: purely lexical. *)
Definition resolve (cwd : path) (p : PurePath) : path :=
  fold_left step (parts p) (if anchored p then [] else cwd).

Definition absolute (p : path) : PurePath := {| anchored := true; parts := p |}.

(** [is_within(child, parent)]: [relative_to] succeeds exactly when the
    resolved parent is a prefix of the resolved child. *)
Definition is_within (cwd : path) (child parent_ : PurePath) : bool :=
  bool_decide (resolve cwd parent_ `prefix_of` resolve cwd child).

Definition within (p root : path) : bool := bool_decide (root `prefix_of` p).

(** ** SHA-256 ([hashlib.sha256]), on 32-bit words kept in [Z] *)

Module SHA256.

Definition mask32 : Z := 0xffffffff.
Definition add32 (x y : Z) : Z := (x + y) mod 2 ^ 32.
Definition rotr (n x : Z) : Z :=
  Z.lor (Z.shiftr x n) (Z.land (Z.shiftl x (32 - n)) mask32).
Definition shr (n x : Z) : Z := Z.shiftr x n.
Definition not32 (x : Z) : Z := Z.lxor x mask32.

Definition Ch (x y z : Z) : Z := Z.lxor (Z.land x y) (Z.land (not32 x) z).
Definition Maj (x y z : Z) : Z :=
  Z.lxor (Z.lxor (Z.land x y) (Z.land x z)) (Z.land y z).
Definition bsig0 (x : Z) : Z := Z.lxor (Z.lxor (rotr 2 x) (rotr 13 x)) (rotr 22 x).
Definition bsig1 (x : Z) : Z := Z.lxor (Z.lxor (rotr 6 x) (rotr 11 x)) (rotr 25 x).
Definition ssig0 (x : Z) : Z := Z.lxor (Z.lxor (rotr 7 x) (rotr 18 x)) (shr 3 x).
Definition ssig1 (x : Z) : Z := Z.lxor (Z.lxor (rotr 17 x) (rotr 19 x)) (shr 10 x).

(** The round constants are the first 32 bits of the fractional parts of
    the cube roots of the first 64 primes, the initial hash value those of
    the square roots of the first 8 primes. *)
Definition is_prime (n : nat) : bool :=
  forallb (fun d => negb (n mod d =? 0)%nat) (seq 2 (n - 2)).

Definition primes (count : nat) : list Z :=
  Z.of_nat <$> take count (List.filter is_prime (seq 2 310)).

(** The largest [r] below [2 ^ bits] with [r ^ 3 <= n], bit by bit. *)
Fixpoint cube_root (bits : nat) (n r : Z) : Z :=
  match bits with
  | O => r
  | S b =>
      let r' := r + 2 ^ Z.of_nat b in
      cube_root b n (if r' * r' * r' <=? n then r' else r)
  end.

Definition K : list Z :=
  Eval vm_compute in
    (fun p => cube_root 36 (p * 2 ^ 96) 0 mod 2 ^ 32) <$> primes 64.

Definition H0 : list Z :=
  Eval vm_compute in
    (fun p => Z.sqrt (p * 2 ^ 64) mod 2 ^ 32) <$> primes 8.

Definition byte_val (b : byte) : Z := Z.of_N (Byte.to_N b).

(** The big-endian bytes of [x], [n] of them. *)
Fixpoint be_bytes (n : nat) (x : Z) : list Z :=
  match n with
  | O => []
  | S n' => Z.land (Z.shiftr x (8 * Z.of_nat n')) 0xff :: be_bytes n' x
  end.

(** Message padding: a [0x80] byte, zeros up to 56 modulo 64, then the
    bit length on 8 bytes. *)
Definition pad (msg : list byte) : list Z :=
  let len := Z.of_nat (length msg) in
  let zeros := Z.to_nat ((55 - len) mod 64) in
  (byte_val <$> msg) ++ [0x80] ++ repeat 0 zeros ++ be_bytes 8 (8 * len).

Fixpoint words (fuel : nat) (bs : list Z) : list Z :=
  match fuel, bs with
  | S f, a :: b :: c :: d :: rest =>
      (Z.shiftl a 24 + Z.shiftl b 16 + Z.shiftl c 8 + d) :: words f rest
  | _, _ => []
  end.

Definition nthw (l : list Z) (i : nat) : Z := nth i l 0.

(** One round: [st] is the working state a..h, [win] the sliding window
    W[t..t+15] of the message schedule. *)
Definition round (acc : list Z * list Z) (k : Z) : list Z * list Z :=
  let '(st, win) := acc in
  let w := nthw win 0 in
  let a := nthw st 0 in let b := nthw st 1 in let c := nthw st 2 in
  let d := nthw st 3 in let e := nthw st 4 in let f := nthw st 5 in
  let g := nthw st 6 in let h := nthw st 7 in
  let t1 := add32 (add32 (add32 (add32 h (bsig1 e)) (Ch e f g)) k) w in
  let t2 := add32 (bsig0 a) (Maj a b c) in
  let next :=
    add32 (add32 (add32 (ssig1 (nthw win 14)) (nthw win 9)) (ssig0 (nthw win 1)))
          (nthw win 0) in
  ([add32 t1 t2; a; b; c; add32 d t1; e; f; g], tl win ++ [next]).

Definition compress (h : list Z) (block : list Z) : list Z :=
  let '(st, _) := fold_left round K (h, block) in
  zip_with add32 h st.

Fixpoint blocks (fuel : nat) (ws : list Z) (h : list Z) : list Z :=
  match fuel, ws with
  | S f, _ :: _ => blocks f (drop 16 ws) (compress h (take 16 ws))
  | _, _ => h
  end.

Definition hex_digit (x : Z) : ascii :=
  if x <? 10 then ascii_of_N (Z.to_N (48 + x)) else ascii_of_N (Z.to_N (87 + x)).

Fixpoint hex (n : nat) (x : Z) : string :=
  match n with
  | O => ""
  | S n' => String (hex_digit (Z.land (Z.shiftr x (4 * Z.of_nat n')) 0xf)) (hex n' x)
  end.

Definition digest (msg : list byte) : list Z :=
  let bs := pad msg in
  let ws := words (length bs) bs in
  blocks (length ws) ws H0.

Definition hexdigest (msg : list byte) : string :=
  fold_right (fun w acc => hex 8 w +:+ acc) "" (digest msg).

End SHA256.

(** ** The file system *)

Inductive node :=
| Dir
| File (content : list byte).

Definition is_dir_node (n : option node) : bool :=
  match n with Some Dir => true | _ => false end.

(** The root always exists and is a directory. *)
Definition node_at (fs : gmap path node) (p : path) : option node :=
  match p with
  | [] => Some Dir
  | _ => fs !! p
  end.

(** Name resolution as the kernel does it: every component is looked up
    in a directory that has to exist. The path reached may itself be
    absent. *)
Fixpoint walk (fs : gmap path node) (cur : path) (comps : list string)
  : errno + path :=
  match comps with
  | [] => inr cur
  | c :: cs =>
      match node_at fs cur with
      | Some Dir => walk fs (step cur c) cs
      | Some (File _) => inl ENOTDIR
      | None => inl ENOENT
      end
  end.

Definition locate (fs : gmap path node) (cwd : path) (p : PurePath)
  : errno + path :=
  walk fs (if anchored p then [] else cwd) (parts p).

(** [os.stat] *)
Definition stat (fs : gmap path node) (cwd : path) (p : PurePath)
  : errno + (path * node) :=
  match locate fs cwd p with
  | inl e => inl e
  | inr q =>
      match node_at fs q with
      | Some n => inr (q, n)
      | None => inl ENOENT
      end
  end.

(** Creating or replacing the entry [q] needs its parent directory. *)
Definition put (fs : gmap path node) (q : path) (n : node)
  : errno + gmap path node :=
  match q with
  | [] => inl EISDIR
  | _ =>
      match node_at fs (removelast q) with
      | Some Dir => inr (<[q := n]> fs)
      | Some (File _) => inl ENOTDIR
      | None => inl ENOENT
      end
  end.

(** [os.mkdir] *)
Definition fs_mkdir (fs : gmap path node) (cwd : path) (p : PurePath)
  : errno + gmap path node :=
  match locate fs cwd p with
  | inl e => inl e
  | inr q =>
      match node_at fs q with
      | Some _ => inl EEXIST
      | None => put fs q Dir
      end
  end.

(** [open(p, "wb")] followed by writing [data], and [open(p, "ab")]
    followed by writing [data]; the result names the file opened. *)
Definition fs_write (truncate : bool) (fs : gmap path node) (cwd : path)
  (p : PurePath) (data : list byte) : errno + (path * gmap path node) :=
  match locate fs cwd p with
  | inl e => inl e
  | inr q =>
      match node_at fs q with
      | Some Dir => inl EISDIR
      | Some (File old) =>
          inr (q, <[q := File (if truncate then data else old ++ data)]> fs)
      | None =>
          match put fs q (File data) with
          | inl e => inl e
          | inr fs' => inr (q, fs')
          end
      end
  end.

(** [p.read_bytes()] *)
Definition fs_read (fs : gmap path node) (cwd : path) (p : PurePath)
  : errno + list byte :=
  match stat fs cwd p with
  | inl e => inl e
  | inr (_, Dir) => inl EISDIR
  | inr (_, File c) => inr c
  end.

(** [p.unlink(missing_ok=True)]: only [FileNotFoundError] is ignored. *)
Definition fs_unlink (fs : gmap path node) (cwd : path) (p : PurePath)
  : errno + (option path * gmap path node) :=
  match locate fs cwd p with
  | inl ENOENT => inr (None, fs)
  | inl e => inl e
  | inr q =>
      match node_at fs q with
      | None => inr (None, fs)
      | Some Dir => inl EISDIR
      | Some (File _) => inr (Some q, delete q fs)
      end
  end.

(** [os.replace(src, dst)] for a regular file [src]. *)
Definition fs_replace (fs : gmap path node) (cwd : path) (src dst : PurePath)
  : errno + (path * gmap path node) :=
  match stat fs cwd src with
  | inl e => inl e
  | inr (_, Dir) => inl EINVAL
  | inr (qs, File c) =>
      match locate fs cwd dst with
      | inl e => inl e
      | inr qd =>
          match node_at fs qd with
          | Some Dir => inl EISDIR
          | _ =>
              if bool_decide (qs = qd) then inr (qd, fs)
              else match put fs qd (File c) with
                   | inl e => inl e
                   | inr fs' => inr (qd, delete qs fs')
                   end
          end
      end
  end.

Definition str_le (a b : string) : Prop := String.leb a b = true.
Global Instance str_le_dec : RelDecision str_le.
Proof. intros a b. unfold str_le. apply _. Defined.

(** The names of the entries of directory [q], sorted. *)
Definition listdir (fs : gmap path node) (q : path) : list string :=
  merge_sort str_le
    (omap (fun '(p, _) =>
             match p with
             | [] => None
             | _ => if bool_decide (removelast p = q) then Some (List.last p "") else None
             end)
          (map_to_list fs)).

Definition ends_with (suf s : string) : bool :=
  String.prefix (String.rev suf) (String.rev s).

(** [fnmatch] for a pattern [pre*suf]. *)
Definition fnmatch_star (pre suf n : string) : bool :=
  String.prefix pre n && ends_with suf n
  && (String.length pre + String.length suf <=? String.length n)%nat.

(** [d.glob(pre*suf)]: nothing when [d] is not a directory. *)
Definition glob (fs : gmap path node) (cwd : path) (d : PurePath)
  (pre suf : string) : list PurePath :=
  match stat fs cwd d with
  | inr (q, Dir) =>
      (fun n => d // n) <$> List.filter (fnmatch_star pre suf) (listdir fs q)
  | _ => []
  end.

(** [shutil.rmtree(p)]: the entries below [p] go first, then [os.rmdir(p)]
    names the directory again, which fails for a path ending in [..] and
    for the working directory itself. *)
Definition below (q p : path) : bool :=
  bool_decide (q `prefix_of` p) && negb (bool_decide (p = q)).

Definition fs_rmtree (fs : gmap path node) (cwd : path) (p : PurePath)
  : errno * gmap path node + gmap path node :=
  match stat fs cwd p with
  | inl e => inl (e, fs)
  | inr (_, File _) => inl (ENOTDIR, fs)
  | inr (q, Dir) =>
      let fs' := filter (fun kv => below q kv.1 = false) fs in
      match List.last (parts p) "" with
      | "" => inl (EINVAL, fs')
      | ".." => inl (ENOTEMPTY, fs')
      | _ => inr (delete q fs')
      end
  end.

(** ** The world a process runs in, and the monad of its effects *)

Record world := mkWorld {
  fs : gmap path node;
  cwd : path;                (* os.getcwd() *)
  script : path;             (* Path(__file__).resolve() *)
  handlers : list path;      (* files the logger's FileHandlers append to *)
  attached : list string;    (* baseFilename of every FileHandler added *)
  stdout : list string;      (* lines printed, oldest first *)
  tmp_seq : nat;             (* oracle for NamedTemporaryFile names *)
  asctime : string;          (* the clock reading of the log formatter *)
}.

Definition set_fs (f : gmap path node) (w : world) : world :=
  {| fs := f; cwd := cwd w; script := script w; handlers := handlers w;
     attached := attached w; stdout := stdout w; tmp_seq := tmp_seq w;
     asctime := asctime w |}.

Definition set_handlers (h : list path) (a : list string) (w : world) : world :=
  {| fs := fs w; cwd := cwd w; script := script w; handlers := h;
     attached := a; stdout := stdout w; tmp_seq := tmp_seq w;
     asctime := asctime w |}.

Definition set_stdout (o : list string) (w : world) : world :=
  {| fs := fs w; cwd := cwd w; script := script w; handlers := handlers w;
     attached := attached w; stdout := o; tmp_seq := tmp_seq w;
     asctime := asctime w |}.

Definition set_tmp_seq (n : nat) (w : world) : world :=
  {| fs := fs w; cwd := cwd w; script := script w; handlers := handlers w;
     attached := attached w; stdout := stdout w; tmp_seq := n;
     asctime := asctime w |}.

Definition M (A : Type) : Type := world -> res A * world.

Definition ret {A} (a : A) : M A := fun w => (Ok a, w).
Definition raise {A} (e : exn) : M A := fun w => (Raise e, w).
Definition bind {A B} (m : M A) (k : A -> M B) : M B :=
  fun w =>
    match m w with
    | (Ok a, w') => k a w'
    | (Raise e, w') => (Raise e, w')
    end.

Notation "'do' x <- m ; k" := (bind m (fun x => k))
  (at level 10, x name, m at level 100, k at level 200).
Notation "m ;; k" := (bind m (fun _ => k))
  (at level 100, k at level 200, right associativity).

(** [try: m except (OSError, IOError) as e: h e] *)
Definition except_OSError {A} (m : M A) (h : errno -> M A) : M A :=
  fun w =>
    match m w with
    | (Raise (OSError e), w') => h e w'
    | r => r
    end.

(** [try: m except Exception as e: h e]; [SystemExit] is not an [Exception]. *)
Definition except_Exception {A} (m : M A) (h : string -> M A) : M A :=
  fun w =>
    match m w with
    | (Raise (OSError e), w') => h (errno_name e) w'
    | (Raise (ValueError s), w') => h s w'
    | r => r
    end.

Definition lift_fs (f : gmap path node -> path -> errno + gmap path node) : M unit :=
  fun w =>
    match f (fs w) (cwd w) with
    | inl e => (Raise (OSError e), w)
    | inr fs' => (Ok tt, set_fs fs' w)
    end.

Definition print (line : string) : M unit :=
  fun w => (Ok tt, set_stdout (stdout w ++ [line]) w).

(** [sys.exit(n)] *)
Definition sys_exit {A} (n : Z) : M A := raise (SystemExit n).

(** *** Path predicates *)

Definition exists_ (w : world) (p : PurePath) : bool :=
  match stat (fs w) (cwd w) p with inr _ => true | inl _ => false end.

Definition is_dir (w : world) (p : PurePath) : bool :=
  match stat (fs w) (cwd w) p with inr (_, Dir) => true | _ => false end.

(** *** Path operations *)

Definition os_mkdir (p : PurePath) : M unit :=
  lift_fs (fun f c => fs_mkdir f c p).

(** [p.mkdir(exist_ok=True)] without [parents] *)
Definition mkdir_leaf (p : PurePath) : M unit :=
  fun w =>
    match os_mkdir p w with
    | (Raise (OSError ENOENT), w1) => (Raise (OSError ENOENT), w1)
    | (Raise (OSError e), w1) =>
        if is_dir w1 p then (Ok tt, w1) else (Raise (OSError e), w1)
    | r => r
    end.

(** [p.mkdir(parents=True, exist_ok=True)], on the reversed components of
    [p]: [pathlib] first tries [os.mkdir(p)] and only on
    [FileNotFoundError] creates the parent and tries again. *)
Fixpoint mkdir_rev (anch : bool) (rparts : list string) : M unit :=
  fun w =>
    let p := mkPath anch (rev rparts) in
    match os_mkdir p w with
    | (Raise (OSError ENOENT), w1) =>
        match rparts with
        | [] => (Raise (OSError ENOENT), w1)
        | _ :: rest => (mkdir_rev anch rest ;; mkdir_leaf p) w1
        end
    | (Raise (OSError e), w1) =>
        if is_dir w1 p then (Ok tt, w1) else (Raise (OSError e), w1)
    | r => r
    end.

Definition mkdir_parents (p : PurePath) : M unit :=
  mkdir_rev (anchored p) (rev (parts p)).

Definition write_bytes (p : PurePath) (data : list byte) : M unit :=
  fun w =>
    match fs_write true (fs w) (cwd w) p data with
    | inl e => (Raise (OSError e), w)
    | inr (_, fs') => (Ok tt, set_fs fs' w)
    end.

Definition write_text (p : PurePath) (text : string) : M unit :=
  write_bytes p (list_byte_of_string text).

Definition read_bytes (p : PurePath) : M (list byte) :=
  fun w =>
    match fs_read (fs w) (cwd w) p with
    | inl e => (Raise (OSError e), w)
    | inr c => (Ok c, w)
    end.

(** A handler whose file is unlinked or replaced keeps writing to a file
    that no path names any more. *)
Definition orphan (q : path) (w : world) : world :=
  set_handlers (List.filter (fun h => negb (bool_decide (h = q))) (handlers w))
               (attached w) w.

Definition unlink_missing_ok (p : PurePath) : M unit :=
  fun w =>
    match fs_unlink (fs w) (cwd w) p with
    | inl e => (Raise (OSError e), w)
    | inr (None, _) => (Ok tt, w)
    | inr (Some q, fs') => (Ok tt, orphan q (set_fs fs' w))
    end.

Definition os_replace (src dst : PurePath) : M unit :=
  fun w =>
    match fs_replace (fs w) (cwd w) src dst with
    | inl e => (Raise (OSError e), w)
    | inr (q, fs') => (Ok tt, orphan q (set_fs fs' w))
    end.

Definition rmtree (p : PurePath) : M unit :=
  fun w =>
    let keep f := List.filter (fun h => bool_decide (is_Some (f !! h))) (handlers w) in
    match fs_rmtree (fs w) (cwd w) p with
    | inl (e, fs') => (Raise (OSError e), set_handlers (keep fs') (attached w) (set_fs fs' w))
    | inr fs' => (Ok tt, set_handlers (keep fs') (attached w) (set_fs fs' w))
    end.

(** [tempfile.NamedTemporaryFile(dir=d, delete=False)]: candidate names
    are tried until one is free, at most [TMP_MAX] times. *)
Definition TMP_MAX : nat := 100 * 100.

Definition tmp_name (n : nat) : string := "tmp" +:+ pretty n.

Fixpoint mkstemp (fuel : nat) (d : PurePath) : M PurePath :=
  fun w =>
    match fuel with
    | O => (Raise (OSError EEXIST), w)
    | S fuel' =>
        match locate (fs w) (cwd w) d with
        | inl e => (Raise (OSError e), w)
        | inr q =>
            let cand := q ++ [tmp_name (tmp_seq w)] in
            let w1 := set_tmp_seq (S (tmp_seq w)) w in
            match node_at (fs w) cand with
            | Some _ => mkstemp fuel' d w1
            | None =>
                match put (fs w) cand (File []) with
                | inl e => (Raise (OSError e), w1)
                | inr fs' => (Ok (absolute cand), set_fs fs' w1)
                end
            end
        end
    end.

Definition NamedTemporaryFile (d : PurePath) : M PurePath := mkstemp TMP_MAX d.

(** *** The logger: a stream handler on stdout and the file handlers *)

Definition append_log (line : string) (f : gmap path node) (h : path)
  : gmap path node :=
  match f !! h with
  | Some (File c) => <[h := File (c ++ list_byte_of_string line)]> f
  | _ => f
  end.

Definition NL : string := String (ascii_of_nat 10) "".

Definition log (level msg : string) : M unit :=
  fun w =>
    let line := asctime w +:+ " [" +:+ level +:+ "] " +:+ msg +:+ NL in
    let w1 := set_stdout (stdout w ++ ["[" +:+ level +:+ "] " +:+ msg]) w in
    (Ok tt, set_fs (fold_left (append_log line) (handlers w) (fs w)) w1).

Definition logger_info : string -> M unit := log "INFO".
Definition logger_warning : string -> M unit := log "WARNING".
Definition logger_error : string -> M unit := log "ERROR".

(** [logging.FileHandler(p)]: opens [os.path.abspath(p)], a lexically
    normalised name, for appending; [baseFilename] is that name. *)
Definition FileHandler (p : PurePath) : M unit :=
  fun w =>
    let base := absolute (resolve (cwd w) p) in
    match fs_write false (fs w) (cwd w) base [] with
    | inl e => (Raise (OSError e), w)
    | inr (q, fs') =>
        (Ok tt, set_handlers (handlers w ++ [q])
                  (attached w ++ [str base]) (set_fs fs' w))
    end.

(** [sha256(path)] *)
Definition sha256 (p : PurePath) : M string :=
  do c <- read_bytes p ; ret (SHA256.hexdigest c).

(** ** Small Python helpers *)

(** [range(1, n + 1)] *)
Definition range1 (n : Z) : list Z :=
  (fun i => Z.of_nat i) <$> seq 1 (Z.to_nat n).

(** [for x in l: body x] *)
Fixpoint for_each {A} (l : list A) (body : A -> M unit) : M unit :=
  match l with
  | [] => ret tt
  | x :: l' => body x ;; for_each l' body
  end.

(** [if c: m], with the condition read from the world at that point. *)
Definition when_ (c : world -> bool) (m : M unit) : M unit :=
  fun w => if c w then m w else (Ok tt, w).

Definition DQ : string := String (ascii_of_nat 34) "".

Definition py_bool (b : bool) : string := if b then "True" else "False".

(** ** class WormDemo *)

Module WormDemo.

Section Methods.

(** [self.cfg], and whether the optional [colorama] import succeeded. *)
Variable cfg : Config.cfg.
Variable COLORAMA_AVAILABLE : bool.

Definition ESC : string := String (ascii_of_nat 27) "".
Definition C_OK : string := if COLORAMA_AVAILABLE then ESC +:+ "[32m" else "".
Definition C_ERR : string := if COLORAMA_AVAILABLE then ESC +:+ "[31m" else "".
Definition C_DIM : string := if COLORAMA_AVAILABLE then ESC +:+ "[2m" else "".
Definition C_RST : string := if COLORAMA_AVAILABLE then ESC +:+ "[0m" else "".

(** [_paths] *)
Definition sandbox : PurePath := Path (Config.sandbox cfg).
Definition replicas : PurePath := sandbox // Config.replica_dir cfg.
Definition marker : PurePath := sandbox // Config.marker cfg.
Definition hosts_root : PurePath := sandbox // Config.hosts_root cfg.

Definition _paths : PurePath * PurePath * PurePath * PurePath :=
  (sandbox, replicas, marker, hosts_root).

Definition log_path : PurePath := sandbox // Config.logfile cfg.

Definition _attach_file_logger : M unit :=
  except_Exception
    (mkdir_parents sandbox ;;
     when_ (fun w => negb (existsb (String.eqb (str log_path)) (attached w)))
       (FileHandler log_path ;;
        logger_info ("Log file: " +:+ str log_path)))
    (fun e =>
       logger_warning ("File logger not attached: " +:+ e) ;;
       logger_warning ("File logger not attached: " +:+ e)).

(** [__init__] *)
Definition __init__ : M unit := _attach_file_logger.

Definition manifest (created : string) : string :=
  "{" +:+ NL +:+
  "  " +:+ DQ +:+ "purpose" +:+ DQ +:+ ": " +:+ DQ
    +:+ "Training-only harmless self-replication demo" +:+ DQ +:+ "," +:+ NL +:+
  "  " +:+ DQ +:+ "safety" +:+ DQ +:+ ": {" +:+ NL +:+
  "    " +:+ DQ +:+ "network" +:+ DQ +:+ ": false," +:+ NL +:+
  "    " +:+ DQ +:+ "persistence" +:+ DQ +:+ ": false," +:+ NL +:+
  "    " +:+ DQ +:+ "privilege_escalation" +:+ DQ +:+ ": false" +:+ NL +:+
  "  }," +:+ NL +:+
  "  " +:+ DQ +:+ "limit" +:+ DQ +:+ ": " +:+ pretty (Config.limit cfg) +:+ "," +:+ NL +:+
  "  " +:+ DQ +:+ "created" +:+ DQ +:+ ": " +:+ DQ +:+ created +:+ DQ +:+ NL +:+
  "}".

Definition host_dir (i : Z) : PurePath :=
  hosts_root // ("host_" +:+ pretty i) // Config.replica_dir cfg.

Definition init : M unit :=
  except_OSError
    (mkdir_parents sandbox ;;
     (fun w => write_text (sandbox // "manifest.json") (manifest (asctime w)) w) ;;
     when_ (fun w => negb (exists_ w marker))
       (write_text marker
          ("This STOP file prevents replication. Remove it to allow up to "
           +:+ pretty (Config.limit cfg) +:+ " harmless copies." +:+ NL)) ;;
     mkdir_parents hosts_root ;;
     for_each (range1 (Config.host_count cfg))
       (fun i => mkdir_parents (host_dir i)) ;;
     logger_info ("Sandbox ready at ./" +:+ str sandbox +:+ ". "
                  +:+ C_OK +:+ "STOP present." +:+ C_RST))
    (fun e =>
       logger_error ("Init failed: " +:+ errno_name e) ;; sys_exit 1).

Definition _atomic_write (src dst : PurePath) : M unit :=
  mkdir_parents (parent dst) ;;
  do tmp <- NamedTemporaryFile (parent dst) ;
  do c <- read_bytes src ;
  write_bytes tmp c ;;
  os_replace tmp dst.

Definition banner (token : Z) : string :=
  NL +:+ "# POLY:" +:+ pretty token +:+ " unused comment to vary hash" +:+ NL.

(** [token] is the value of [random.randint(10_000, 99_999)]. *)
Definition _make_polymorph (token : Z) (base_bytes : list byte) : list byte :=
  base_bytes ++ list_byte_of_string (banner token).

(** [data = self._make_polymorph(base) if polymorph else base] *)
Definition replica_data (polymorph : bool) (token : Z) (base : list byte)
  : list byte :=
  if polymorph then _make_polymorph token base else base.

Definition _payload (target_dir : PurePath) : M unit :=
  except_Exception
    (write_text (target_dir // "friendly_note.txt")
       ("Hello from the harmless demo payload. Stay safe." +:+ NL) ;;
     logger_info ("Payload note written at "
                  +:+ str (target_dir // "friendly_note.txt")))
    (fun e => logger_warning ("Payload write failed: " +:+ e)).

Definition _replica_name (idx : Z) : string :=
  "w_copy_" +:+ pretty idx +:+ ".py".

Definition copies (w : world) (d : PurePath) : list PurePath :=
  glob (fs w) (cwd w) d "w_copy_" ".py".

Definition _next_index (w : world) : Z :=
  Z.of_nat (length (copies w replicas)) + 1.

(** One iteration of the loop over the mock hosts. *)
Definition spread_host (idx : Z) (data : list byte) (payload : bool) (i : Z)
  : M unit :=
  fun w =>
    let host_rep_dir := absolute (resolve (cwd w) (host_dir i)) in
    if negb (is_within (cwd w) host_rep_dir sandbox)
    then logger_warning "Host path escaped sandbox; skipping." w
    else
      let host_dst := host_rep_dir // _replica_name idx in
      let tmp_host_src :=
        sandbox // (".tmp_host_" +:+ pretty i +:+ "_" +:+ pretty idx +:+ ".py") in
      (write_bytes tmp_host_src data ;;
       _atomic_write tmp_host_src host_dst ;;
       unlink_missing_ok tmp_host_src ;;
       logger_info ("(simulated) spread -> host_" +:+ pretty i +:+ "/"
                    +:+ Config.replica_dir cfg +:+ "/" +:+ name host_dst) ;;
       if payload then _payload host_rep_dir else ret tt) w.

(** The body of the [if is_within(dst, self.sandbox)] branch, in its two
    parts: the primary replica up to the optional payload note, which
    yields [data], and the loop over the mock hosts. *)
Definition write_primary (polymorph payload : bool) (token idx : Z)
  (src_path dst : PurePath) : M (list byte) :=
  do base <- read_bytes src_path ;
  let data := replica_data polymorph token base in
  let tmp_src := sandbox // (".tmp_replica_" +:+ pretty idx +:+ ".py") in
  write_bytes tmp_src data ;;
  _atomic_write tmp_src dst ;;
  unlink_missing_ok tmp_src ;;
  logger_info ("Replicated -> " +:+ name dst) ;;
  do h_src <- sha256 src_path ;
  do h_dst <- sha256 dst ;
  logger_info ("src sha256=" +:+ h_src +:+ "   dst sha256=" +:+ h_dst) ;;
  (if payload then _payload replicas else ret tt) ;;
  ret data.

Definition spread (simulate_spread payload : bool) (idx : Z) (data : list byte)
  : M unit :=
  if simulate_spread && (0 <? Config.host_count cfg)
  then for_each (range1 (Config.host_count cfg)) (spread_host idx data payload)
  else ret tt.

Definition replicate (polymorph simulate_spread payload : bool) (token idx : Z)
  (src_path dst : PurePath) : M unit :=
  do data <- write_primary polymorph payload token idx src_path dst ;
  spread simulate_spread payload idx data.

(** The handler [except (OSError, IOError) as e] of [demo]. *)
Definition replication_failed (e : errno) : M unit :=
  logger_error ("Replication failed: " +:+ errno_name e) ;; sys_exit 4.

Definition demo (polymorph simulate_spread payload : bool) (token : Z) : M unit :=
  fun w =>
    if negb (exists_ w sandbox)
    then (logger_error "Sandbox not initialized. Run --init first." ;; sys_exit 2) w
    else if exists_ w marker
    then logger_info "STOP present; replication blocked." w
    else
      let idx := _next_index w in
      except_OSError
        (fun w1 =>
           let src_path := absolute (script w1) in
           let dst := absolute (resolve (cwd w1) (replicas // _replica_name idx)) in
           if is_within (cwd w1) dst sandbox
           then replicate polymorph simulate_spread payload token idx src_path dst w1
           else logger_error
                  "Replica destination escaped sandbox; replication aborted." w1)
        replication_failed
        w.

Definition status_hosts : M unit :=
  when_ (fun w => exists_ w hosts_root)
    (fun w =>
       (print "hosts:" ;;
        for_each (glob (fs w) (cwd w) hosts_root "host_" "")
          (fun h =>
             fun w' =>
               let rep := h // Config.replica_dir cfg in
               let count :=
                 if exists_ w' rep then length (copies w' rep) else O in
               print (" - " +:+ name h +:+ ": " +:+ pretty count +:+ " replicas") w'))
         w).

Definition status : M unit :=
  fun w =>
    if negb (exists_ w sandbox)
    then print "Status: sandbox not initialized." w
    else
      let cs := if exists_ w replicas then copies w replicas else [] in
      let here := str (absolute (resolve (cwd w) sandbox)) in
      if COLORAMA_AVAILABLE
      then
        (print (C_DIM +:+ "=== STATUS ===" +:+ C_RST) ;;
         print ("sandbox: " +:+ here) ;;
         print ("STOP present: "
                +:+ (if exists_ w marker then C_OK else C_ERR)
                +:+ py_bool (exists_ w marker) +:+ C_RST)) w
      else
        (print "=== STATUS ===" ;;
         print ("sandbox: " +:+ here) ;;
         print ("STOP present: " +:+ py_bool (exists_ w marker)) ;;
         print ("limit: " +:+ pretty (Config.limit cfg)) ;;
         print ("replicas: " +:+ pretty (length cs)) ;;
         for_each cs
           (fun c =>
              do h <- sha256 c ;
              print (" - " +:+ name c +:+ "  sha256=" +:+ h)) ;;
         status_hosts) w.

Definition cleanup : M unit :=
  except_OSError
    (write_text marker ("STOP" +:+ NL) ;;
     when_ (fun w => exists_ w replicas) (rmtree replicas) ;;
     when_ (fun w => exists_ w hosts_root)
       (rmtree hosts_root ;; mkdir_parents hosts_root) ;;
     logger_info "Cleanup done. STOP restored.")
    (fun e =>
       logger_error ("Cleanup failed: " +:+ errno_name e) ;; sys_exit 5).

End Methods.

End WormDemo.

(** ** [main]: one process per command *)

Inductive command :=
| CmdInit
| CmdDemo (polymorph simulate_spread payload : bool)
| CmdStatus
| CmdCleanup
| CmdNone.

(** [token] stands for the one [random.randint] a demo run may draw. *)
Definition main (CFG : gmap string Config.pyval) (colorama : bool)
  (args : command) (token : Z) : M unit :=
  match Config.validate_cfg CFG with
  | Raise (ValueError e) =>
      logger_error ("Configuration error: " +:+ e) ;; sys_exit 10
  | Raise e => raise e
  | Ok _ =>
      let cfg := Config.of_dict CFG in
      WormDemo.__init__ cfg ;;
      match args with
      | CmdInit => WormDemo.init cfg colorama
      | CmdDemo polymorph simulate_spread payload =>
          WormDemo.demo cfg polymorph simulate_spread payload token
      | CmdStatus => WormDemo.status cfg colorama
      | CmdCleanup => WormDemo.cleanup cfg
      | CmdNone =>
          print "Available flags: --init --demo --status --cleanup --polymorph --simulate-spread --payload" ;;
          print "Example: python replicant_v1.2.py --demo --polymorph --simulate-spread --payload"
      end
  end.

(** A new process starts with the module-level logger: the stream handler
    only, and nothing printed yet. *)
Definition fresh_process (w : world) : world :=
  set_handlers [] [] (set_stdout [] w).

Definition run (CFG : gmap string Config.pyval) (colorama : bool)
  (args : command) (token : Z) (w : world) : res unit * world :=
  main CFG colorama args token (fresh_process w).

(** The exit status of the process: 0 on a normal return, the argument of
    [sys.exit], 1 for an uncaught exception. *)
Definition exit_status {A} (r : res A) : Z :=
  match r with
  | Ok _ => 0
  | Raise (SystemExit n) => n
  | Raise _ => 1
  end.

(** The commands of a session, one process each, whatever their exit
    status; the result is the list of exit statuses and the last world. *)
Fixpoint session (CFG : gmap string Config.pyval) (colorama : bool)
  (cmds : list (command * Z)) (w : world) : list Z * world :=
  match cmds with
  | [] => ([], w)
  | (c, token) :: rest =>
      let '(r, w1) := run CFG colorama c token w in
      let '(codes, w2) := session CFG colorama rest w1 in
      (exit_status r :: codes, w2)
  end.

(** What a user does between two commands of the runbook:
    [rm sandbox_w/STOP]. *)
Definition rm (p : PurePath) (w : world) : world :=
  match unlink_missing_ok p w with (_, w') => w' end.

(** ** replicant_v1.1.py: [cmd_demo], the predecessor of [WormDemo.demo] *)

Module V1_1.

Section Commands.

(** The module-level dictionary [w] of v1.1 (no hosts). *)
Variable cfg : Config.cfg.

Definition sandbox : PurePath := Path (Config.sandbox cfg).
Definition replicas : PurePath := sandbox // Config.replica_dir cfg.
Definition marker : PurePath := sandbox // Config.marker cfg.

Definition add_file_logger : M unit :=
  except_Exception
    (let logfile := sandbox // Config.logfile cfg in
     FileHandler logfile ;;
     logger_info ("Log file: " +:+ str logfile))
    (fun e => logger_warning ("Could not attach file logger: " +:+ e)).

Definition atomic_copy (src dst : PurePath) : M unit :=
  mkdir_parents (parent dst) ;;
  do tmp <- NamedTemporaryFile (parent dst) ;
  do c <- read_bytes src ;
  write_bytes tmp c ;;
  os_replace tmp dst.

Definition cmd_demo : M unit :=
  fun w0 =>
    if negb (exists_ w0 sandbox)
    then (logger_error "Sandbox not initialized. Run: w_demo_v2.py --init" ;;
          sys_exit 2) w0
    else
      (add_file_logger ;;
       fun w =>
         if exists_ w marker
         then logger_info "STOP present; replication blocked." w
         else
           (mkdir_parents replicas ;;
            fun w1 =>
              let existing := glob (fs w1) (cwd w1) replicas "w_copy_" ".py" in
              let idx := Z.of_nat (length existing) + 1 in
              if Config.limit cfg <? idx
              then logger_info "Replication limit reached; no action taken." w1
              else
                let src := absolute (script w1) in
                let dst :=
                  absolute (resolve (cwd w1)
                              (replicas // ("w_copy_" +:+ pretty idx +:+ ".py"))) in
                if negb (is_within (cwd w1) dst sandbox)
                then (logger_error "Refusing to write outside sandbox." ;;
                      sys_exit 3) w1
                else
                  except_OSError
                    (atomic_copy src dst ;;
                     logger_info ("Replicated: " +:+ name src +:+ " -> " +:+ str dst) ;;
                     do h_src <- sha256 src ;
                     logger_info ("src sha256=" +:+ h_src) ;;
                     do h_dst <- sha256 dst ;
                     logger_info ("dst sha256=" +:+ h_dst))
                    (fun e =>
                       logger_error ("Copy failed: " +:+ errno_name e) ;;
                       sys_exit 4)
                    w1) w) w0.

(** The truth value [bool(val)] and the text [str(val)] of a
    configuration value. *)
Definition truthy (val : Config.pyval) : bool :=
  match val with
  | Config.PyNone => false
  | Config.PyBool b => b
  | Config.PyInt z => negb (z =? 0)
  | Config.PyStr s => negb (String.eqb s "")
  end.

Definition py_str (val : Config.pyval) : string :=
  match val with
  | Config.PyNone => "None"
  | Config.PyBool b => py_bool b
  | Config.PyInt z => pretty z
  | Config.PyStr s => s
  end.

(** [validate_config] of v1.1: [not val] rejects the empty name (and
    [None], [False] and [0]); a separator is looked for in [str(val)]. *)
Definition validate_config (d : gmap string Config.pyval) : res unit :=
  if negb (Config.isinstance_int (Config.get d "limit"))
     || (Config.int_value (Config.get d "limit") <? 0)
  then Raise (ValueError "Config 'limit' must be a non-negative integer.")
  else
    (fix go (ks : list string) : res unit :=
       match ks with
       | [] => Ok tt
       | key :: ks' =>
           let val := Config.get d key in
           if negb (truthy val) || Config.has_separator (py_str val)
           then Raise (ValueError ("Config '" +:+ key
                  +:+ "' must be a simple name without path separators."))
           else go ks'
       end) ["sandbox"; "replica_dir"; "marker"].

End Commands.

End V1_1.

(** ** Sample worlds *)

Definition home : path := ["home"; "demo"].

Definition script_bytes : list byte :=
  list_byte_of_string ("print('harmless')" +:+ NL).

(** An empty working directory next to the program's source. *)
Definition w_fresh : world :=
  {| fs := <[ ["home"] := Dir ]>
           (<[ ["home"; "demo"] := Dir ]>
           (<[ ["opt"] := Dir ]>
           (<[ ["opt"; "replicant_v1.2.py"] := File script_bytes ]> ∅)));
     cwd := home;
     script := ["opt"; "replicant_v1.2.py"];
     handlers := [];
     attached := [];
     stdout := [];
     tmp_seq := 0;
     asctime := "2025-01-01 00:00:00,000" |}.

Definition CFG_dict : gmap string Config.pyval := Config.to_dict Config.CFG.

(** [--init] in an empty directory, then [rm sandbox_w/STOP]: the sandbox
    is initialised and the kill switch is absent. *)
Definition w_init : world := snd (run CFG_dict false CmdInit 0 w_fresh).
Definition w_armed : world := rm (WormDemo.marker Config.CFG) w_init.

Definition sandbox_w : path := home ++ ["sandbox_w"].

Definition plain_demo : command * Z := (CmdDemo false false false, 0).

(** Configurations that pass [validate_cfg] with a parent-directory name. *)
Definition CFG_dotdot_replicas : Config.cfg :=
  {| Config.sandbox := "sandbox_w"; Config.replica_dir := "..";
     Config.hosts_root := "hosts"; Config.host_count := 3; Config.limit := 3;
     Config.marker := "STOP"; Config.logfile := "w_demo.log" |}.

Definition CFG_dotdot_hosts : Config.cfg :=
  {| Config.sandbox := "sandbox_w"; Config.replica_dir := "replicas";
     Config.hosts_root := ".."; Config.host_count := 3; Config.limit := 3;
     Config.marker := "STOP"; Config.logfile := "w_demo.log" |}.

Definition CFG_sandbox_named_like_replica : Config.cfg :=
  {| Config.sandbox := "w_copy_2.py"; Config.replica_dir := "..";
     Config.hosts_root := "hosts"; Config.host_count := 3; Config.limit := 3;
     Config.marker := "STOP"; Config.logfile := "w_demo.log" |}.

Definition CFG_empty_replica_dir : Config.cfg :=
  {| Config.sandbox := "sandbox_w"; Config.replica_dir := "";
     Config.hosts_root := "hosts"; Config.host_count := 3; Config.limit := 3;
     Config.marker := "STOP"; Config.logfile := "w_demo.log" |}.

Definition set_limit (l : Z) (c : Config.cfg) : Config.cfg :=
  {| Config.sandbox := Config.sandbox c; Config.replica_dir := Config.replica_dir c;
     Config.hosts_root := Config.hosts_root c; Config.host_count := Config.host_count c;
     Config.limit := l;
     Config.marker := Config.marker c; Config.logfile := Config.logfile c |}.

(** ** Predicates and sample worlds used in the statements *)

Definition int_in (v : Config.pyval) (lo : Z) (hi : option Z) : Prop :=
  Config.isinstance_int v = true
  /\ lo <= Config.int_value v
  /\ match hi with Some h => Config.int_value v <= h | None => True end.

(** The condition the loop of [validate_cfg] puts on a name: a string,
    not reserved, without [/] and [\]. The empty string satisfies it. *)
Definition name_accepted (v : Config.pyval) : Prop :=
  exists s, v = Config.PyStr s
            /\ (s ∉ Config.RESERVED_NAMES)
            /\ Config.has_separator s = false.

Definition two_polymorph_runs (token1 token2 : Z) : world :=
  snd (session CFG_dict false
         [(CmdDemo true false false, token1); (CmdDemo true false false, token2)]
         w_armed).

(** The SHA-256 checksum of the file at an absolute path, as [sha256]
    computes it. *)
Definition checksum (w : world) (p : path) : option string :=
  match fs_read (fs w) (cwd w) (absolute p) with
  | inr c => Some (SHA256.hexdigest c)
  | inl _ => None
  end.

Definition normal_name (c : string) : bool :=
  kept_part c && negb (String.eqb c "..").

(** What [os.getcwd()] returns: no empty, [.] or [..] component. *)
Definition normal (p : path) : bool := forallb normal_name p.

Definition only_prints {A} (m : M A) : Prop :=
  forall w, exists out, snd (m w) = set_stdout out w.

(** Two worlds with the same files, working directory and output so far. *)
Definition same_view (w1 w2 : world) : Prop :=
  fs w1 = fs w2 /\ cwd w1 = cwd w2 /\ stdout w1 = stdout w2.

Definition view_determined {A} (m : M A) : Prop :=
  forall w1 w2, same_view w1 w2 ->
    fst (m w1) = fst (m w2) /\ same_view (snd (m w1)) (snd (m w2)).




Definition head_char (s : string) : ascii :=
  match s with
  | String c _ => c
  | EmptyString => " "%char
  end.

Definition dirs_kept (f f' : gmap path node) : Prop :=
  forall p, node_at f p = Some Dir -> node_at f' p = Some Dir.

Definition grows {A} (m : M A) : Prop :=
  forall w r w', m w = (r, w') ->
    cwd w' = cwd w /\ handlers w' = handlers w /\ fs w ⊆ fs w'.

(** The value a computation returns. *)
Definition returns {A} (P : A -> Prop) (m : M A) : Prop :=
  forall w a w', m w = (Ok a, w') -> P a.

(** The SHA-256 checksum of the bytes stored at [p]. *)
Definition digest_at (f : gmap path node) (p : path) : option string :=
  match f !! p with
  | Some (File c) => Some (SHA256.hexdigest c)
  | _ => None
  end.

(** The world in which [--demo --polymorph --simulate-spread --payload]
    calls [demo] after [--init] and [rm sandbox_w/STOP]. *)
Definition w_armed_call : world :=
  snd (WormDemo.__init__ Config.CFG (fresh_process w_armed)).

(** The replica at [q] holds [data], and no log file is attached there. *)
Definition good (data : list byte) (q : path) (w : world) : Prop :=
  fs w !! q = Some (File data) /\ q ∉ handlers w.

(** A computation that, when it returns normally, leaves the working
    directory and every good replica named [rn] as they are. *)
Definition keeps (data : list byte) (rn : string) {A} (m : M A) : Prop :=
  forall w a w', m w = (Ok a, w') ->
    cwd w' = cwd w
    /\ forall q, List.last q "" = rn -> good data q w -> good data q w'.

(** A path whose last component is a proper name other than [rn]. *)
Definition named_otherwise (rn : string) (p : PurePath) : Prop :=
  exists pre c, parts p = pre ++ [c] /\ normal_name c = true /\ c <> rn.

(** ** Predicates of the further properties *)

(** The only exceptions [m] can raise are [OSError]s. *)
Definition raises_only_OSError {A} (m : M A) : Prop :=
  forall w e w', m w = (Raise e, w') -> exists en, e = OSError en.

(** [m] always returns normally. *)
Definition never_raises {A} (m : M A) : Prop :=
  forall w, exists a w', m w = (Ok a, w').

(** [f'] has every entry of [f], and the directories of [f] are
    directories of [f']. *)
Definition extends (f f' : gmap path node) : Prop :=
  (forall p, is_Some (f !! p) -> is_Some (f' !! p)) /\ dirs_kept f f'.

(** [m] removes no entry, turns no directory into a file and stays in the
    working directory, whether it returns or raises. *)
Definition keeps_entries {A} (m : M A) : Prop :=
  forall w r w', m w = (r, w') -> cwd w' = cwd w /\ extends (fs w) (fs w').

(** [m], run in working directory [c] with the directory [R] and the
    directories above it in place, stays in [c], keeps every directory,
    attaches no log file, and changes no entry outside [R] other than the
    attached log files. *)
Definition confined (c R : path) {A} (m : M A) : Prop :=
  forall w r w',
    cwd w = c ->
    (forall t, t `prefix_of` R -> node_at (fs w) t = Some Dir) ->
    m w = (r, w') ->
    cwd w' = c
    /\ dirs_kept (fs w) (fs w')
    /\ (forall h, h ∈ handlers w' -> h ∈ handlers w)
    /\ (forall t, ~ R `prefix_of` t -> t ∉ handlers w -> fs w' !! t = fs w !! t).

(** A name of one plain component: not empty, not [.] or [..], and
    without a slash. *)
Definition plain_name (s : string) : bool :=
  normal_name s && negb (Config.contains "/" s).

(** In working directory [c], the sandbox [c/s] is a directory that holds
    the file [m] with content [d], and no log file is attached to it. *)
Definition sandbox_with_marker (c : path) (s m : string) (d : list byte)
  (w : world) : Prop :=
  cwd w = c
  /\ node_at (fs w) c = Some Dir
  /\ fs w !! (c ++ [s]) = Some Dir
  /\ fs w !! (c ++ [s; m]) = Some (File d)
  /\ (c ++ [s; m]) ∉ handlers w.

(** From [w] to [w'] nothing happened but logging, possibly into a new
    log file [L]: every other entry that is not an attached log file is
    as it was, no entry other than [L] appeared or disappeared, and the
    directories are still directories. *)
Definition logs_only (L : path) (w w' : world) : Prop :=
  cwd w' = cwd w
  /\ (forall t, t <> L -> t ∉ handlers w -> fs w' !! t = fs w !! t)
  /\ (forall t, t <> L -> (is_Some (fs w' !! t) <-> is_Some (fs w !! t)))
  /\ dirs_kept (fs w) (fs w')
  /\ (forall t, t ∈ handlers w' -> t ∈ handlers w \/ t = L).

(** An exception other than [SystemExit] leaves the computation: the
    interpreter prints a traceback and the process ends with status 1. *)
Definition escapes {A} (r : res A) : Prop :=
  exists e, r = Raise e /\ forall n, e <> SystemExit n.

(** A process whose working directory has been removed, together with
    the directory above it. *)
Definition w_no_cwd : world :=
  {| fs := fs w_fresh;
     cwd := home ++ ["gone"; "lab"];
     script := script w_fresh;
     handlers := [];
     attached := [];
     stdout := [];
     tmp_seq := 0;
     asctime := asctime w_fresh |}.

(** ** replicant_v1.1.py: [cmd_init] and [cmd_cleanup] *)

Module V1_1_cli.

Section Commands.

Variable cfg : Config.cfg.

(** [sandbox_paths] *)
Definition sandbox_paths : PurePath * PurePath * PurePath :=
  (V1_1.sandbox cfg, V1_1.replicas cfg, V1_1.marker cfg).

(** [cmd_init]: the sandbox directory is made outside the [try]; the
    manifest has the text of v1.2. *)
Definition cmd_init : M unit :=
  mkdir_parents (V1_1.sandbox cfg) ;;
  V1_1.add_file_logger cfg ;;
  except_OSError
    (when_ (fun w => negb (exists_ w (V1_1.marker cfg)))
       (write_text (V1_1.marker cfg)
          ("This STOP file prevents replication. "
           +:+ "Remove it to allow up to " +:+ pretty (Config.limit cfg)
           +:+ " harmless copies." +:+ NL)) ;;
     (fun w => write_text (V1_1.sandbox cfg // "manifest.json")
                 (WormDemo.manifest cfg (asctime w)) w) ;;
     logger_info ("Sandbox ready at ./" +:+ str (V1_1.sandbox cfg)
                  +:+ ". STOP present."))
    (fun e => logger_error ("Init failed: " +:+ errno_name e) ;; sys_exit 1).

Definition cmd_cleanup : M unit :=
  fun w0 =>
    if negb (exists_ w0 (V1_1.sandbox cfg))
    then print "Nothing to clean." w0
    else
      (V1_1.add_file_logger cfg ;;
       except_OSError
         (write_text (V1_1.marker cfg) ("STOP" +:+ NL) ;;
          when_ (fun w => exists_ w (V1_1.replicas cfg))
            (rmtree (V1_1.replicas cfg)) ;;
          logger_info "Cleanup complete: replicas removed, STOP restored.")
         (fun e => logger_error ("Cleanup failed: " +:+ errno_name e) ;; sys_exit 5))
        w0.

End Commands.

End V1_1_cli.

(** v1.1 run three times on an armed sandbox: the replica directory holds
    [limit] replicas. *)
Definition w_at_limit : world :=
  fresh_process
    (Nat.iter 3 (fun w => snd (V1_1.cmd_demo Config.CFG (fresh_process w))) w_armed).

(** The runbook's demo with all three options, run once. *)
Definition w_spread : world :=
  snd (WormDemo.demo Config.CFG true true true 12345 w_armed_call).

(** * Properties *)

(** ** SHA-256 test vectors *)

Example sha256_abc :
  SHA256.hexdigest (list_byte_of_string "abc")
  = "ba7816bf8f01cfea414140de5dae2223b00361a396177a9cb410ff61f20015ad".
Proof. vm_compute. reflexivity. Qed.

Example sha256_empty :
  SHA256.hexdigest []
  = "e3b0c44298fc1c149afbf4c8996fb92427ae41e4649b934ca495991b7852b855".
Proof. vm_compute. reflexivity. Qed.

Example sha256_two_blocks :
  SHA256.hexdigest
    (list_byte_of_string "abcdbcdecdefdefgefghfghighijhijkijkljklmklmnlmnomnopnopq")
  = "248d6a61d20638b8e5c026930c3e6039a33ce45964ff2167f6ecedd419db06c1".
Proof. vm_compute. reflexivity. Qed.

(** ** Sanity of the sample worlds *)

Example w_init_has_marker :
  exists_ w_init (WormDemo.marker Config.CFG) = true
  /\ WormDemo.copies w_init (WormDemo.replicas Config.CFG) = [].
Proof. vm_compute. split; reflexivity. Qed.

Example w_armed_ready :
  exists_ w_armed (WormDemo.sandbox Config.CFG) = true
  /\ exists_ w_armed (WormDemo.marker Config.CFG) = false.
Proof. vm_compute. split; reflexivity. Qed.

(** ** The replication limit (C2) *)

(** [WormDemo.demo] never reads the configured limit. *)
Lemma demo_ignores_limit (cfg : Config.cfg) (l : Z) pm sp pl token :
  WormDemo.demo (set_limit l cfg) pm sp pl token = WormDemo.demo cfg pm sp pl token.
Proof. reflexivity. Qed.

(** The predecessor [cmd_demo] of v1.1 stops at the limit: after three
    copies the fourth call reports it and writes no replica. *)
Lemma v1_1_cmd_demo_stops_at_limit :
  let step w := snd (V1_1.cmd_demo Config.CFG (fresh_process w)) in
  let w3 := step (step (step w_armed)) in
  length (WormDemo.copies w3 (WormDemo.replicas Config.CFG)) = 3%nat
  /\ fst (V1_1.cmd_demo Config.CFG (fresh_process w3)) = Ok tt
  /\ In "[INFO] Replication limit reached; no action taken." (stdout (step w3))
  /\ fs (step w3) !! (sandbox_w ++ ["replicas"; "w_copy_4.py"]) = None.
Proof. vm_compute. repeat split; auto. Qed.

(** C2 (the code at the failing input): with the default configuration
    (limit 3), an initialised sandbox and no kill switch, the fourth
    [--demo] run of v1.2 succeeds like the first three and writes
    [w_copy_4.py]; nothing reports that the limit is reached. *)
Theorem C2_fourth_demo_run_writes_replica_4 :
  Config.limit Config.CFG = 3
  /\ Config.validate_cfg CFG_dict = Ok tt
  /\ fst (session CFG_dict false [plain_demo; plain_demo; plain_demo; plain_demo] w_armed)
     = [0; 0; 0; 0]
  /\ let w4 := snd (session CFG_dict false
                      [plain_demo; plain_demo; plain_demo; plain_demo] w_armed) in
     fs w4 !! (sandbox_w ++ ["replicas"; "w_copy_4.py"]) = Some (File script_bytes)
     /\ In "[INFO] Replicated -> w_copy_4.py" (stdout w4)
     /\ length (WormDemo.copies w4 (WormDemo.replicas Config.CFG)) = 4%nat.
Proof. vm_compute. repeat split; auto. Qed.

(** ** [demo] and a missing sandbox directory *)

(** X10: called on a world without the sandbox directory,
    [demo] stops with status 2 and leaves the file system as it is. *)
Lemma demo_not_initialized cfg pm sp pl token w :
  exists_ w (WormDemo.sandbox cfg) = false ->
  handlers w = [] ->
  exists w', WormDemo.demo cfg pm sp pl token w = (Raise (SystemExit 2), w')
             /\ fs w' = fs w.
Proof.
  intros Hs Hh. unfold WormDemo.demo. rewrite Hs. simpl.
  eexists. split; [reflexivity|]. simpl. rewrite Hh. reflexivity.
Qed.

(** In a whole process [demo] is called after [__init__]: in an empty
    working directory building the [WormDemo] object creates the sandbox
    directory (through [_attach_file_logger]), so [demo] finds it, finds
    no kill switch, and writes the first replica. *)
Lemma run_demo_without_init_replicates :
  exists_ w_fresh (WormDemo.sandbox Config.CFG) = false
  /\ let '(r, w) := run CFG_dict false (CmdDemo false false false) 0 w_fresh in
     r = Ok tt
     /\ exit_status r = 0
     /\ fs w !! sandbox_w = Some Dir
     /\ fs w !! (sandbox_w ++ ["STOP"]) = None
     /\ fs w !! (sandbox_w ++ ["replicas"; "w_copy_1.py"]) = Some (File script_bytes).
Proof. vm_compute. repeat split; auto. Qed.

(** ** The exit status of a confinement violation (C5) *)

(** In v1.1 the same situation ends the process with status 3. *)
Lemma v1_1_confinement_exit_status :
  let w := rm (WormDemo.marker CFG_dotdot_replicas)
              (snd (run (Config.to_dict CFG_dotdot_replicas) false CmdInit 0 w_fresh)) in
  fst (V1_1.cmd_demo CFG_dotdot_replicas (fresh_process w)) = Raise (SystemExit 3).
Proof. vm_compute. reflexivity. Qed.

(** C5 (the code at the failing input): with [replica_dir = ".."], which
    [validate_cfg] accepts, the destination resolves outside the sandbox;
    v1.2 logs the error, writes no replica, and returns normally: the
    process ends with status 0, the status of a successful replication. *)
Theorem C5_confinement_violation_exits_0 :
  let cfg := CFG_dotdot_replicas in
  let w := rm (WormDemo.marker cfg)
              (snd (run (Config.to_dict cfg) false CmdInit 0 w_fresh)) in
  Config.validate_cfg (Config.to_dict cfg) = Ok tt
  /\ is_within (cwd w)
       (WormDemo.replicas cfg // WormDemo._replica_name (WormDemo._next_index cfg w))
       (WormDemo.sandbox cfg) = false
  /\ let '(r, w') := run (Config.to_dict cfg) false (CmdDemo false false false) 0 w in
     exit_status r = 0
     /\ In "[ERROR] Replica destination escaped sandbox; replication aborted." (stdout w')
     /\ fs w' !! (home ++ ["w_copy_1.py"]) = None
     /\ exit_status (fst (run CFG_dict false (CmdDemo false false false) 0 w_armed)) = 0.
Proof. vm_compute. repeat split; auto. Qed.

(** ** What [validate_cfg] accepts (C8) *)

Lemma check_name_accepts d k :
  Config.check_name d k = Ok tt <-> name_accepted (Config.get d k).
Proof.
  unfold Config.check_name, name_accepted.
  destruct (Config.get d k) as [| b | z | s]; simpl;
    try (split; [discriminate | intros (s' & Hs & _); discriminate]).
  case_bool_decide as Hres; simpl.
  - split; [discriminate | intros (s' & Hs & Hn & _)].
    inversion Hs; subst. contradiction.
  - destruct (Config.has_separator s) eqn:Hsep.
    + split; [discriminate | intros (s' & Hs & _ & Hf)].
      inversion Hs; subst. congruence.
    + split; [intros _; exists s; auto | reflexivity].
Qed.

Lemma check_names_accepts d ks :
  Config.check_names d ks = Ok tt
  <-> Forall (fun k => name_accepted (Config.get d k)) ks.
Proof.
  induction ks as [| k ks IH]; simpl.
  - split; [constructor | reflexivity].
  - destruct (Config.check_name d k) as [[] | e] eqn:Hk.
    + rewrite IH. split.
      * intros H. constructor; [apply check_name_accepts; exact Hk | exact H].
      * intros H. inversion H; assumption.
    + split; [discriminate | intros H].
      inversion H as [| ? ? Hn _]; subst.
      apply check_name_accepts in Hn. congruence.
Qed.

(** X1: The exact acceptance condition of [validate_cfg] in v1.2. *)
Lemma validate_cfg_accepts d :
  Config.validate_cfg d = Ok tt
  <-> int_in (Config.get d "limit") 0 None
      /\ int_in (Config.get d "host_count") 0 (Some 10)
      /\ Forall (fun k => name_accepted (Config.get d k)) Config.name_keys.
Proof.
  unfold Config.validate_cfg, int_in.
  destruct (Config.isinstance_int (Config.get d "limit")); cbn [negb orb];
    [| split; [discriminate | intros [[? _] _]; discriminate]].
  destruct (Z.ltb_spec (Config.int_value (Config.get d "limit")) 0); cbn [negb orb];
    [split; [discriminate | intros [[_ [? _]] _]; lia] |].
  destruct (Config.isinstance_int (Config.get d "host_count")); cbn [negb orb];
    [| split; [discriminate | intros [_ [[? _] _]]; discriminate]].
  destruct (Z.ltb_spec (Config.int_value (Config.get d "host_count")) 0); cbn [negb orb];
    [split; [discriminate | intros [_ [[_ [? _]] _]]; lia] |].
  destruct (Z.ltb_spec 10 (Config.int_value (Config.get d "host_count"))); cbn [negb orb];
    [split; [discriminate | intros [_ [[_ [_ ?]] _]]; lia] |].
  rewrite check_names_accepts. intuition.
Qed.

(** What the empty name leads to: the replica directory is the sandbox
    itself, and [cleanup] removes it together with the kill switch it has
    just rewritten, while logging that the switch is restored. *)
Lemma empty_replica_dir_cleanup_removes_marker :
  let d := Config.to_dict CFG_empty_replica_dir in
  let w := snd (run d false CmdInit 0 w_fresh) in
  WormDemo.replicas CFG_empty_replica_dir = WormDemo.sandbox CFG_empty_replica_dir
  /\ exists_ w (WormDemo.marker CFG_empty_replica_dir) = true
  /\ let '(r, w') := run d false CmdCleanup 0 w in
     r = Ok tt
     /\ In "[INFO] Cleanup done. STOP restored." (stdout w')
     /\ exists_ w' (WormDemo.marker CFG_empty_replica_dir) = false.
Proof. vm_compute. repeat split; auto. Qed.

(** C8 (the code at the failing input): a configuration whose
    [replica_dir] is the empty string passes [validate_cfg] of v1.2; the
    [validate_config] of v1.1 rejects it. *)
Theorem C8_validate_cfg_accepts_empty_name :
  Config.replica_dir CFG_empty_replica_dir = ""
  /\ Config.validate_cfg (Config.to_dict CFG_empty_replica_dir) = Ok tt
  /\ V1_1.validate_config (Config.to_dict CFG_empty_replica_dir)
     = Raise (ValueError
         "Config 'replica_dir' must be a simple name without path separators.").
Proof. vm_compute. repeat split; auto. Qed.

(** ** Confinement of writes (C1) *)

(** [hosts_root = ".."] passes [validate_cfg]; [init], which checks no
    path, then creates the host directories next to the sandbox. *)
Lemma init_creates_host_dirs_outside_sandbox :
  let d := Config.to_dict CFG_dotdot_hosts in
  Config.validate_cfg d = Ok tt
  /\ let '(r, w) := run d false CmdInit 0 w_fresh in
     r = Ok tt
     /\ fs w_fresh !! (home ++ ["host_1"; "replicas"]) = None
     /\ fs w !! (home ++ ["host_1"; "replicas"]) = Some Dir
     /\ within (home ++ ["host_1"; "replicas"])
          (resolve (cwd w) (WormDemo.sandbox CFG_dotdot_hosts)) = false.
Proof. vm_compute. repeat split; auto. Qed.

(** C1 (the code at the failing input): the configuration
    [sandbox = "w_copy_2.py"], [replica_dir = ".."] passes [validate_cfg].
    The replica directory is then the working directory, where the
    sandbox itself matches [w_copy_*.py], so the next index is 2 and the
    destination is the sandbox directory: [is_within] accepts it.
    [_atomic_write] creates its temporary file in the destination's
    parent, the working directory, copies the bytes into it, and
    [os.replace] onto a directory fails: the run ends with status 4 and
    the temporary file, holding the program's bytes, stays outside the
    sandbox. *)
Theorem C1_demo_leaves_file_outside_sandbox :
  let cfg := CFG_sandbox_named_like_replica in
  let d := Config.to_dict cfg in
  let root := resolve (cwd w_fresh) (WormDemo.sandbox cfg) in
  Config.validate_cfg d = Ok tt
  /\ let '(r, w) := run d false (CmdDemo false false false) 0 w_fresh in
     exit_status r = 4
     /\ root = home ++ ["w_copy_2.py"]
     /\ within (home ++ ["tmp0"]) root = false
     /\ fs w_fresh !! (home ++ ["tmp0"]) = None
     /\ fs w !! (home ++ ["tmp0"]) = Some (File script_bytes).
Proof. vm_compute. repeat split; auto. Qed.

(** ** Polymorphic copies (C9) *)

(** The bytes of a replica: [data] in [demo]. *)
Lemma replica_data_plain token1 token2 base :
  WormDemo.replica_data false token1 base = WormDemo.replica_data false token2 base.
Proof. reflexivity. Qed.

Lemma string_length_app (s t : string) :
  String.length (s +:+ t) = (String.length s + String.length t)%nat.
Proof. induction s as [| a s IH]; simpl; [reflexivity | now rewrite IH]. Qed.

Lemma string_app_inv_tail (s1 s2 t : string) :
  s1 +:+ t = s2 +:+ t -> s1 = s2.
Proof.
  revert s2. induction s1 as [| a s1 IH]; intros [| b s2] H.
  - reflexivity.
  - apply (f_equal String.length) in H.
    rewrite !string_length_app in H. simpl in H. lia.
  - apply (f_equal String.length) in H.
    rewrite !string_length_app in H. simpl in H. lia.
  - change (String a (s1 +:+ t) = String b (s2 +:+ t)) in H.
    injection H as -> H. f_equal. now apply IH.
Qed.

Lemma list_byte_of_string_inj (s t : string) :
  list_byte_of_string s = list_byte_of_string t -> s = t.
Proof.
  intros H. apply (f_equal string_of_list_byte) in H.
  now rewrite !string_of_list_byte_of_string in H.
Qed.

Lemma banner_inj (t1 t2 : Z) :
  WormDemo.banner t1 = WormDemo.banner t2 -> t1 = t2.
Proof.
  unfold WormDemo.banner. intros H.
  apply (inj (String.app NL)) in H.
  apply (inj (String.app "# POLY:")) in H.
  apply string_app_inv_tail in H.
  now apply (inj pretty) in H.
Qed.

Lemma make_polymorph_inj (t1 t2 : Z) (base : list byte) :
  WormDemo._make_polymorph t1 base = WormDemo._make_polymorph t2 base -> t1 = t2.
Proof.
  unfold WormDemo._make_polymorph. intros H.
  apply app_inv_head in H. apply list_byte_of_string_inj in H.
  now apply banner_inj.
Qed.

(** C9 (counterexample): two [--demo --polymorph] runs whose random
    tokens are both 12345, a value [random.randint(10_000, 99_999)] can
    return twice, give two replicas of the same source with the same
    SHA-256 checksum. *)
Lemma C9_same_token_same_checksum :
  let w := two_polymorph_runs 12345 12345 in
  checksum w (sandbox_w ++ ["replicas"; "w_copy_1.py"])
  = checksum w (sandbox_w ++ ["replicas"; "w_copy_2.py"])
  /\ is_Some (checksum w (sandbox_w ++ ["replicas"; "w_copy_1.py"]))
  /\ checksum w (sandbox_w ++ ["replicas"; "w_copy_1.py"])
     <> checksum w (script w).
Proof.
  vm_compute. repeat split; [eexists; reflexivity | discriminate].
Qed.

(** Two different tokens, for comparison. *)
Example polymorph_runs_with_distinct_tokens :
  let w := two_polymorph_runs 12345 54321 in
  checksum w (sandbox_w ++ ["replicas"; "w_copy_1.py"])
  <> checksum w (sandbox_w ++ ["replicas"; "w_copy_2.py"]).
Proof. vm_compute. discriminate. Qed.

(** C9 (amended): for two replicas of the same source [base], without
    mutation the bytes, and so the checksums, are identical; with mutation
    each replica is the source followed by a newline and one comment line
    carrying the token, and the two byte strings are equal exactly when
    the two tokens are equal, in which case the checksums are equal too. *)
Theorem C9_polymorph_differs_iff_tokens_differ (base : list byte) (token1 token2 : Z) :
  WormDemo.replica_data false token1 base = WormDemo.replica_data false token2 base
  /\ SHA256.hexdigest (WormDemo.replica_data false token1 base)
     = SHA256.hexdigest (WormDemo.replica_data false token2 base)
  /\ (WormDemo.replica_data true token1 base = WormDemo.replica_data true token2 base
      <-> token1 = token2)
  /\ (token1 = token2 ->
      SHA256.hexdigest (WormDemo.replica_data true token1 base)
      = SHA256.hexdigest (WormDemo.replica_data true token2 base))
  /\ WormDemo.replica_data true token1 base
     = base ++ list_byte_of_string
                 (NL +:+ "# POLY:" +:+ pretty token1
                  +:+ " unused comment to vary hash" +:+ NL)
  /\ WormDemo.replica_data true token1 base <> base.
Proof.
  repeat split.
  - apply make_polymorph_inj.
  - intros ->. reflexivity.
  - intros ->. reflexivity.
  - unfold WormDemo.replica_data, WormDemo._make_polymorph. intros H.
    apply (f_equal (@length byte)) in H. rewrite length_app in H.
    unfold WormDemo.banner in H. simpl in H. lia.
Qed.

(** ** The logger touches the attached log files only *)

Lemma append_log_ne (line : string) (f : gmap path node) (h p : path) :
  p <> h -> append_log line f h !! p = f !! p.
Proof.
  intros Hne. unfold append_log.
  destruct (f !! h) as [[| c] |]; try reflexivity.
  rewrite lookup_insert_ne; [reflexivity | congruence].
Qed.

Lemma append_log_shape (line : string) (f : gmap path node) (h p : path) :
  match f !! p with
  | Some Dir => append_log line f h !! p = Some Dir
  | Some (File _) => exists c, append_log line f h !! p = Some (File c)
  | None => append_log line f h !! p = None
  end.
Proof.
  unfold append_log.
  destruct (decide (p = h)) as [-> | Hne].
  - destruct (f !! h) as [[| c] |] eqn:Hh; rewrite ?Hh; try reflexivity.
    rewrite lookup_insert_eq. eauto.
  - destruct (f !! h) as [[| c] |] eqn:Hh;
      rewrite ?lookup_insert_ne by congruence;
      destruct (f !! p) as [[| c'] |]; eauto.
Qed.

Lemma fold_append_log_ne (line : string) (hs : list path) (f : gmap path node) (p : path) :
  p ∉ hs -> fold_left (append_log line) hs f !! p = f !! p.
Proof.
  revert f. induction hs as [| h hs IH]; intros f Hp; simpl; [reflexivity |].
  rewrite IH by (intros ?; apply Hp; now right).
  apply append_log_ne. intros ->. apply Hp. now left.
Qed.

Lemma fold_append_log_shape (line : string) (hs : list path) (f : gmap path node) (p : path) :
  match f !! p with
  | Some Dir => fold_left (append_log line) hs f !! p = Some Dir
  | Some (File _) => exists c, fold_left (append_log line) hs f !! p = Some (File c)
  | None => fold_left (append_log line) hs f !! p = None
  end.
Proof.
  revert f. induction hs as [| h hs IH]; intros f; simpl.
  - destruct (f !! p) as [[| c] |]; eauto.
  - pose proof (append_log_shape line f h p) as Hs.
    specialize (IH (append_log line f h)).
    destruct (f !! p) as [[| c] |].
    + now rewrite Hs in IH.
    + destruct Hs as [c' Hs]. now rewrite Hs in IH.
    + now rewrite Hs in IH.
Qed.

(** What one call of the logger does to the world. *)
Lemma log_spec (level msg : string) (w : world) :
  exists w',
    log level msg w = (Ok tt, w')
    /\ cwd w' = cwd w /\ script w' = script w
    /\ handlers w' = handlers w /\ attached w' = attached w
    /\ tmp_seq w' = tmp_seq w /\ asctime w' = asctime w
    /\ stdout w' = stdout w ++ ["[" +:+ level +:+ "] " +:+ msg]
    /\ (forall p, p ∉ handlers w -> fs w' !! p = fs w !! p)
    /\ (forall p, is_Some (fs w' !! p) <-> is_Some (fs w !! p))
    /\ (forall p, fs w' !! p = Some Dir <-> fs w !! p = Some Dir).
Proof.
  eexists. split; [reflexivity |]. simpl.
  do 7 (split; [reflexivity |]).
  set (line := asctime w +:+ " [" +:+ level +:+ "] " +:+ msg +:+ NL).
  split; [| split].
  - intros p Hp. now apply fold_append_log_ne.
  - intros p. pose proof (fold_append_log_shape line (handlers w) (fs w) p) as Hs.
    destruct (fs w !! p) as [[| c] |].
    + rewrite Hs. tauto.
    + destruct Hs as [c' ->]. split; eauto.
    + rewrite Hs. tauto.
  - intros p. pose proof (fold_append_log_shape line (handlers w) (fs w) p) as Hs.
    destruct (fs w !! p) as [[| c] |].
    + rewrite Hs. tauto.
    + destruct Hs as [c' ->]. split; discriminate.
    + rewrite Hs. tauto.
Qed.

(** ** The kill switch (C3) *)

(** C3: whenever the sandbox and the kill-switch marker exist, [demo]
    returns normally for every combination of its three options and every
    token; it logs that replication is blocked and does nothing else: no
    entry of the file system is created or deleted, no directory changes,
    and the only files whose content can change are the log files the
    logger is attached to, so nothing under the replica directory or the
    host directories is created or modified. *)
Theorem C3_kill_switch_blocks_replication
  (cfg : Config.cfg) (polymorph simulate_spread payload : bool) (token : Z) (w : world) :
  exists_ w (WormDemo.sandbox cfg) = true ->
  exists_ w (WormDemo.marker cfg) = true ->
  exists w',
    WormDemo.demo cfg polymorph simulate_spread payload token w = (Ok tt, w')
    /\ stdout w' = stdout w ++ ["[INFO] STOP present; replication blocked."]
    /\ handlers w' = handlers w
    /\ (forall p, p ∉ handlers w -> fs w' !! p = fs w !! p)
    /\ (forall p, is_Some (fs w' !! p) <-> is_Some (fs w !! p))
    /\ (forall p, fs w' !! p = Some Dir <-> fs w !! p = Some Dir).
Proof.
  intros Hs Hm. unfold WormDemo.demo. rewrite Hs, Hm. cbn [negb].
  destruct (log_spec "INFO" "STOP present; replication blocked." w)
    as (w' & Hrun & _ & _ & Hh & _ & _ & _ & Hout & Hframe & Hsome & Hdir).
  exists w'. unfold logger_info. rewrite Hrun. auto 10.
Qed.

(** C3 at a concrete input: the initialised sandbox of the runbook, with
    the file logger attached as [__init__] attaches it. *)
Lemma C3_kill_switch_blocks_replication_witness :
  let w := snd (WormDemo.__init__ Config.CFG (fresh_process w_init)) in
  exists w',
    WormDemo.demo Config.CFG true true true 12345 w = (Ok tt, w')
    /\ stdout w' = stdout w ++ ["[INFO] STOP present; replication blocked."]
    /\ handlers w' = handlers w
    /\ (forall p, p ∉ handlers w -> fs w' !! p = fs w !! p)
    /\ (forall p, is_Some (fs w' !! p) <-> is_Some (fs w !! p))
    /\ (forall p, fs w' !! p = Some Dir <-> fs w !! p = Some Dir).
Proof.
  apply (C3_kill_switch_blocks_replication Config.CFG true true true 12345);
    vm_compute; reflexivity.
Defined.

(** ** Normalised paths *)

Lemma step_normal_name (cur : path) (c : string) :
  normal_name c = true -> step cur c = cur ++ [c].
Proof.
  unfold normal_name, step. intros H.
  apply andb_true_iff in H as [Hk Hd].
  apply negb_true_iff in Hd. now rewrite Hd, Hk.
Qed.

Lemma forallb_removelast {A} (f : A -> bool) (l : list A) :
  forallb f l = true -> forallb f (removelast l) = true.
Proof.
  induction l as [| a [| b l] IH]; simpl; intros H; try reflexivity.
  apply andb_true_iff in H as [Ha Hl].
  simpl in IH. rewrite Ha. simpl. now apply IH.
Qed.

Lemma step_normal (cur : path) (c : string) :
  normal cur = true -> normal (step cur c) = true.
Proof.
  unfold normal, step. intros H.
  destruct (String.eqb c "..") eqn:Hd.
  - now apply forallb_removelast.
  - destruct (kept_part c) eqn:Hk; [| exact H].
    rewrite forallb_app, H. simpl. unfold normal_name. now rewrite Hk, Hd.
Qed.

Lemma fold_step_normal (cs : list string) (cur : path) :
  normal cur = true -> normal (fold_left step cs cur) = true.
Proof.
  revert cur. induction cs as [| c cs IH]; intros cur H; simpl; [exact H |].
  apply IH. now apply step_normal.
Qed.

Lemma resolve_normal (c : path) (p : PurePath) :
  normal c = true -> normal (resolve c p) = true.
Proof.
  intros H. unfold resolve. apply fold_step_normal.
  destruct (anchored p); [reflexivity | exact H].
Qed.

(** Over normal components the kernel's walk, when it succeeds, ends at
    the concatenation. *)
Lemma walk_normal (f : gmap path node) (comps : list string) (cur t : path) :
  normal comps = true -> walk f cur comps = inr t -> t = cur ++ comps.
Proof.
  revert cur. induction comps as [| c cs IH]; intros cur Hn Hw; simpl in *.
  - injection Hw as <-. now rewrite app_nil_r.
  - apply andb_true_iff in Hn as [Hc Hcs].
    destruct (node_at f cur) as [[| ?] |]; try discriminate.
    rewrite step_normal_name in Hw by exact Hc.
    apply IH in Hw; [| exact Hcs]. now rewrite <- app_assoc in Hw.
Qed.

Lemma locate_absolute_normal (f : gmap path node) (c q t : path) :
  normal q = true -> locate f c (absolute q) = inr t -> t = q.
Proof. intros Hn Hl. unfold locate in Hl. simpl in Hl. now apply walk_normal in Hl. Qed.

(** ** Computations that only print *)

Lemma set_stdout_id (w : world) : set_stdout (stdout w) w = w.
Proof. destruct w; reflexivity. Qed.

Lemma only_prints_ret {A} (a : A) : only_prints (ret a).
Proof. intros w. exists (stdout w). simpl. now rewrite set_stdout_id. Qed.

Lemma only_prints_print (s : string) : only_prints (print s).
Proof. intros w. eexists. reflexivity. Qed.

Lemma only_prints_read_bytes (p : PurePath) : only_prints (read_bytes p).
Proof.
  intros w. exists (stdout w). unfold read_bytes.
  destruct (fs_read (fs w) (cwd w) p); simpl; now rewrite set_stdout_id.
Qed.

Lemma only_prints_bind {A B} (m : M A) (k : A -> M B) :
  only_prints m -> (forall a, only_prints (k a)) -> only_prints (bind m k).
Proof.
  intros Hm Hk w. unfold bind. destruct (Hm w) as [out Ho].
  destruct (m w) as [[a | e] w1]; simpl in Ho; subst w1.
  - destruct (Hk a (set_stdout out w)) as [out' Ho']. exists out'. now rewrite Ho'.
  - now exists out.
Qed.

Lemma only_prints_sha256 (p : PurePath) : only_prints (sha256 p).
Proof.
  apply only_prints_bind; [apply only_prints_read_bytes |].
  intros c. apply only_prints_ret.
Qed.

Lemma only_prints_for_each {A} (l : list A) (body : A -> M unit) :
  (forall x, only_prints (body x)) -> only_prints (for_each l body).
Proof.
  intros Hb. induction l as [| x l IH]; simpl.
  - apply only_prints_ret.
  - apply only_prints_bind; [apply Hb | intros _; exact IH].
Qed.

Lemma only_prints_when (c : world -> bool) (m : M unit) :
  only_prints m -> only_prints (when_ c m).
Proof.
  intros Hm w. unfold when_. destruct (c w); [apply Hm |].
  exists (stdout w). simpl. now rewrite set_stdout_id.
Qed.

Create HintDb prints.
#[export] Hint Resolve only_prints_ret only_prints_print only_prints_read_bytes
  only_prints_sha256 only_prints_for_each only_prints_when : prints.

Lemma status_hosts_only_prints (cfg : Config.cfg) :
  only_prints (WormDemo.status_hosts cfg).
Proof.
  unfold WormDemo.status_hosts. apply only_prints_when. intros w.
  refine (only_prints_bind _ _ _ _ w); [auto with prints | intros _].
  apply only_prints_for_each. intros h w'. apply only_prints_print.
Qed.

(** [status] changes nothing in the world but the lines printed. *)
Lemma status_only_prints (cfg : Config.cfg) (colorama : bool) :
  only_prints (WormDemo.status cfg colorama).
Proof.
  intros w. unfold WormDemo.status.
  destruct (negb (exists_ w (WormDemo.sandbox cfg))); [apply only_prints_print |].
  destruct colorama.
  - refine (only_prints_bind _ _ _ _ w); [auto with prints | intros _].
    apply only_prints_bind; [auto with prints | intros _].
    apply only_prints_print.
  - refine (only_prints_bind _ _ _ _ w); [auto with prints | intros _].
    refine (only_prints_bind _ _ _ _); [auto with prints | intros _].
    refine (only_prints_bind _ _ _ _); [auto with prints | intros _].
    refine (only_prints_bind _ _ _ _); [auto with prints | intros _].
    refine (only_prints_bind _ _ _ _); [auto with prints | intros _].
    refine (only_prints_bind _ _ _ _); [| intros _; apply status_hosts_only_prints].
    apply only_prints_for_each. intros c.
    apply only_prints_bind; [auto with prints | intros h; auto with prints].
Qed.

(** ** Computations determined by the file system *)

Lemma view_determined_ret {A} (a : A) : view_determined (ret a).
Proof. intros w1 w2 H. split; [reflexivity | exact H]. Qed.

Lemma view_determined_print (s : string) : view_determined (print s).
Proof.
  intros w1 w2 (Hf & Hc & Ho). split; [reflexivity |].
  unfold same_view. simpl. now rewrite Ho.
Qed.

Lemma view_determined_read_bytes (p : PurePath) : view_determined (read_bytes p).
Proof.
  intros w1 w2 (Hf & Hc & Ho). unfold read_bytes. rewrite Hf, Hc.
  destruct (fs_read (fs w2) (cwd w2) p); simpl; (split; [reflexivity | now split]).
Qed.

Lemma view_determined_bind {A B} (m : M A) (k : A -> M B) :
  view_determined m -> (forall a, view_determined (k a)) ->
  view_determined (bind m k).
Proof.
  intros Hm Hk w1 w2 Hv. unfold bind.
  destruct (Hm w1 w2 Hv) as [Hr Hv'].
  destruct (m w1) as [[a1 | e1] w1'], (m w2) as [[a2 | e2] w2']; simpl in *;
    try discriminate; injection Hr as <-.
  - now apply Hk.
  - now split.
Qed.

Lemma view_determined_sha256 (p : PurePath) : view_determined (sha256 p).
Proof.
  apply view_determined_bind; [apply view_determined_read_bytes |].
  intros c. apply view_determined_ret.
Qed.

Lemma view_determined_for_each {A} (l : list A) (body : A -> M unit) :
  (forall x, view_determined (body x)) -> view_determined (for_each l body).
Proof.
  intros Hb. induction l as [| x l IH]; simpl.
  - apply view_determined_ret.
  - apply view_determined_bind; [apply Hb | intros _; exact IH].
Qed.

Lemma status_hosts_view_determined (cfg : Config.cfg) :
  view_determined (WormDemo.status_hosts cfg).
Proof.
  intros w1 w2 Hv. pose proof Hv as (Hf & Hc & Ho).
  unfold WormDemo.status_hosts, when_, exists_. rewrite Hf, Hc.
  destruct (stat (fs w2) (cwd w2) (WormDemo.hosts_root cfg)); [now split |].
  refine (view_determined_bind _ _ _ _ w1 w2 Hv);
    [apply view_determined_print | intros _].
  apply view_determined_for_each. intros h w1' w2' Hv'.
  pose proof Hv' as (Hf' & Hc' & Ho').
  unfold exists_, WormDemo.copies. rewrite Hf', Hc'.
  now apply view_determined_print.
Qed.

(** The report of [status] is a function of the files, the working
    directory and nothing else in the world. *)
Lemma status_view_determined (cfg : Config.cfg) (colorama : bool) :
  view_determined (WormDemo.status cfg colorama).
Proof.
  intros w1 w2 Hv. pose proof Hv as (Hf & Hc & Ho).
  unfold WormDemo.status, exists_, WormDemo.copies. rewrite Hf, Hc.
  destruct (negb _); [now apply view_determined_print |].
  destruct colorama.
  - refine (view_determined_bind _ _ _ _ w1 w2 Hv);
      [apply view_determined_print | intros _].
    apply view_determined_bind; [apply view_determined_print | intros _].
    apply view_determined_print.
  - refine (view_determined_bind _ _ _ _ w1 w2 Hv);
      [apply view_determined_print | intros _].
    do 4 (apply view_determined_bind; [apply view_determined_print | intros _]).
    apply view_determined_bind; [| intros _; apply status_hosts_view_determined].
    apply view_determined_for_each. intros c.
    apply view_determined_bind; [apply view_determined_sha256 | intros h].
    apply view_determined_print.
Qed.

(** ** Attaching the file logger *)

Lemma exists_is_dir (w : world) (p : PurePath) :
  is_dir w p = true -> exists_ w p = true.
Proof.
  unfold is_dir, exists_. destruct (stat (fs w) (cwd w) p) as [| [q n]]; auto.
Qed.

Lemma os_mkdir_existing (w : world) (p : PurePath) :
  exists_ w p = true -> os_mkdir p w = (Raise (OSError EEXIST), w).
Proof.
  unfold exists_, os_mkdir, lift_fs, fs_mkdir, stat.
  destruct (locate (fs w) (cwd w) p) as [e | q]; [discriminate |].
  destruct (node_at (fs w) q); [reflexivity | discriminate].
Qed.

Lemma mkdir_rev_existing (anch : bool) (rparts : list string) (w : world) :
  exists_ w (mkPath anch (rev rparts)) = true ->
  mkdir_rev anch rparts w
  = (if is_dir w (mkPath anch (rev rparts)) then Ok tt
     else Raise (OSError EEXIST), w).
Proof.
  intros He.
  destruct rparts as [| c rest]; cbn [mkdir_rev];
    rewrite (os_mkdir_existing _ _ He);
    now destruct (is_dir w _).
Qed.

(** [mkdir(parents=True, exist_ok=True)] on a path that exists changes
    nothing. *)
Lemma mkdir_parents_existing (w : world) (p : PurePath) :
  exists_ w p = true ->
  mkdir_parents p w
  = (if is_dir w p then Ok tt else Raise (OSError EEXIST), w).
Proof.
  intros He. unfold mkdir_parents.
  assert (Hp : mkPath (anchored p) (rev (rev (parts p))) = p)
    by (rewrite rev_involutive; now destruct p).
  rewrite mkdir_rev_existing; rewrite Hp; auto.
Qed.

Lemma FileHandler_spec (p : PurePath) (w : world) :
  (exists e, FileHandler p w = (Raise (OSError e), w))
  \/ (exists q w',
        FileHandler p w = (Ok tt, w')
        /\ locate (fs w) (cwd w) (absolute (resolve (cwd w) p)) = inr q
        /\ handlers w' = handlers w ++ [q]
        /\ cwd w' = cwd w
        /\ (forall p', p' <> q -> fs w' !! p' = fs w !! p')).
Proof.
  unfold FileHandler, fs_write.
  destruct (locate (fs w) (cwd w) (absolute (resolve (cwd w) p))) as [e | q];
    [left; eauto |].
  destruct (node_at (fs w) q) as [[| old] |].
  - left; eauto.
  - right. do 2 eexists. split; [reflexivity |]. simpl.
    repeat split. intros p' Hne. now rewrite lookup_insert_ne by congruence.
  - unfold put. destruct q as [| c q]; [left; eauto |].
    destruct (node_at (fs w) (removelast (c :: q))) as [[| ?] |];
      [| left; eauto | left; eauto].
    right. do 2 eexists. split; [reflexivity |]. simpl.
    repeat split. intros p' Hne. now rewrite lookup_insert_ne by congruence.
Qed.

(** Building the [WormDemo] object in a new process, when the sandbox
    exists already: the only path whose entry can change is the log
    file. *)
Lemma attach_file_logger_frame (cfg : Config.cfg) (w : world) :
  normal (cwd w) = true ->
  exists_ w (WormDemo.sandbox cfg) = true ->
  handlers w = [] ->
  exists w',
    WormDemo.__init__ cfg w = (Ok tt, w')
    /\ cwd w' = cwd w
    /\ (forall p, p <> resolve (cwd w) (WormDemo.log_path cfg) ->
                  fs w' !! p = fs w !! p).
Proof.
  intros Hn He Hh.
  unfold WormDemo.__init__, WormDemo._attach_file_logger, except_Exception, bind.
  rewrite (mkdir_parents_existing w _ He).
  assert (Hwarn : forall msg, exists w',
             (logger_warning msg ;; logger_warning msg) w = (Ok tt, w')
             /\ cwd w' = cwd w /\ forall p, fs w' !! p = fs w !! p).
  { intros msg. unfold bind, logger_warning.
    destruct (log_spec "WARNING" msg w)
      as (w1 & -> & Hc1 & _ & Hh1 & _ & _ & _ & _ & Hf1 & _).
    destruct (log_spec "WARNING" msg w1)
      as (w2 & -> & Hc2 & _ & _ & _ & _ & _ & _ & Hf2 & _).
    exists w2. split; [reflexivity |]. split; [congruence |].
    intros p. rewrite Hf2, Hf1; rewrite ?Hh1, ?Hh; auto using not_elem_of_nil. }
  destruct (is_dir w (WormDemo.sandbox cfg)).
  - unfold when_.
    destruct (negb (existsb _ (attached w))).
    + unfold bind.
      destruct (FileHandler_spec (WormDemo.log_path cfg) w)
        as [[e ->] | (q & w1 & -> & Hq & Hh1 & Hc1 & Hf1)].
      * destruct (Hwarn ("File logger not attached: " +:+ errno_name e))
          as (w' & Hrun & Hc & Hf).
        unfold bind in Hrun. rewrite Hrun. exists w'. auto.
      * apply locate_absolute_normal in Hq; [| now apply resolve_normal].
        subst q. unfold logger_info.
        destruct (log_spec "INFO" ("Log file: " +:+ str (WormDemo.log_path cfg)) w1)
          as (w2 & -> & Hc2 & _ & _ & _ & _ & _ & _ & Hf2 & _).
        exists w2. split; [reflexivity |]. split; [congruence |].
        intros p Hp. rewrite Hf2, Hf1; auto.
        rewrite Hh1, Hh. simpl. now rewrite list_elem_of_singleton.
    + exists w. auto.
  - destruct (Hwarn ("File logger not attached: " +:+ errno_name EEXIST))
      as (w' & Hrun & Hc & Hf).
    unfold bind in Hrun. rewrite Hrun. exists w'. auto.
Qed.

(** ** The [status] command (C7) *)

(** The sandbox made by [__init__], seen from [status]: in an empty
    working directory the command creates the sandbox directory and the
    log file, and then reports on the sandbox it has created. *)
Lemma status_run_creates_sandbox :
  let '(r, w) := run CFG_dict false CmdStatus 0 w_fresh in
  r = Ok tt
  /\ fs w_fresh !! sandbox_w = None
  /\ fs w !! sandbox_w = Some Dir
  /\ is_Some (fs w !! (sandbox_w ++ ["w_demo.log"]))
  /\ ~ In "Status: sandbox not initialized." (stdout w).
Proof.
  vm_compute. repeat split; auto.
  - eexists. reflexivity.
  - intros H. repeat (destruct H as [H | H]; [discriminate |]). exact H.
Qed.

(** C7 (counterexample): on the initialised sandbox of the runbook, the
    [--status] command changes the log file: the file logger attached
    when the [WormDemo] object is built appends its [Log file:] line. *)
Lemma C7_status_run_appends_to_log :
  exists_ w_init (WormDemo.sandbox Config.CFG) = true
  /\ fs (snd (run CFG_dict false CmdStatus 0 w_init)) !! (sandbox_w ++ ["w_demo.log"])
     <> fs w_init !! (sandbox_w ++ ["w_demo.log"]).
Proof.
  split; [vm_compute; reflexivity |].
  intros H.
  apply (f_equal (fun o => match o with
                           | Some (File c) => length c
                           | _ => O
                           end)) in H.
  vm_compute in H. discriminate.
Qed.

(** C7 (amended): the [status] method changes nothing in the world but
    the lines it prints, and its result and report are the same in any
    two worlds with the same files and working directory; the [--status]
    command, run where the sandbox directory exists, leaves every entry
    of the file system as it is except the log file in the sandbox
    root. *)
Theorem C7_status_reads_and_only_the_log_changes
  (CFG : gmap string Config.pyval) (colorama : bool) (token : Z) (w : world) :
  (forall r w', WormDemo.status (Config.of_dict CFG) colorama w = (r, w') ->
                exists out, w' = set_stdout out w)
  /\ (forall w2, same_view w2 w ->
        fst (WormDemo.status (Config.of_dict CFG) colorama w2)
        = fst (WormDemo.status (Config.of_dict CFG) colorama w)
        /\ stdout (snd (WormDemo.status (Config.of_dict CFG) colorama w2))
           = stdout (snd (WormDemo.status (Config.of_dict CFG) colorama w)))
  /\ (normal (cwd w) = true ->
      is_dir w (WormDemo.sandbox (Config.of_dict CFG)) = true ->
      forall p, p <> resolve (cwd w) (WormDemo.log_path (Config.of_dict CFG)) ->
                fs (snd (run CFG colorama CmdStatus token w)) !! p = fs w !! p).
Proof.
  split; [| split].
  - intros r w' H.
    destruct (status_only_prints (Config.of_dict CFG) colorama w) as [out Ho].
    rewrite H in Ho. simpl in Ho. eauto.
  - intros w2 Hv.
    destruct (status_view_determined (Config.of_dict CFG) colorama w2 w Hv)
      as (Hr & _ & _ & Ho).
    auto.
  - intros Hn Hd p Hp. unfold run, main.
    destruct (Config.validate_cfg CFG) as [[] | [msg | e | code]].
    + destruct (attach_file_logger_frame (Config.of_dict CFG) (fresh_process w))
        as (w1 & Hrun & Hc & Hf); [exact Hn | now apply exists_is_dir | reflexivity |].
      unfold bind. rewrite Hrun.
      destruct (status_only_prints (Config.of_dict CFG) colorama w1) as [out Ho].
      rewrite Ho. simpl. now apply Hf.
    + unfold bind, logger_error.
      destruct (log_spec "ERROR" ("Configuration error: " +:+ msg) (fresh_process w))
        as (w1 & -> & _ & _ & _ & _ & _ & _ & _ & Hf & _).
      simpl. apply Hf. simpl. apply not_elem_of_nil.
    + reflexivity.
    + reflexivity.
Qed.

(** C7 at a concrete input: [--status] on the initialised sandbox of the
    runbook leaves the kill switch as it is. *)
Lemma C7_status_reads_and_only_the_log_changes_witness :
  normal (cwd w_init) = true
  /\ is_dir w_init (WormDemo.sandbox (Config.of_dict CFG_dict)) = true
  /\ fs (snd (run CFG_dict false CmdStatus 0 w_init)) !! (sandbox_w ++ ["STOP"])
     = fs w_init !! (sandbox_w ++ ["STOP"]).
Proof.
  split; [reflexivity |]. split; [vm_compute; reflexivity |].
  apply (proj2 (proj2
           (C7_status_reads_and_only_the_log_changes CFG_dict false 0 w_init)));
    [reflexivity | vm_compute; reflexivity | vm_compute; discriminate].
Defined.

(** ** Simulated spread: what stops the loop and what does not (C6) *)




(** A host directory that resolves outside the sandbox is skipped: with
    [hosts_root = ".."] the three hosts are skipped with a warning each,
    the primary replica is written and the run ends with status 0. *)
Example spread_skips_hosts_outside_sandbox :
  let d := Config.to_dict CFG_dotdot_hosts in
  let w0 := rm (WormDemo.marker CFG_dotdot_hosts) (snd (run d false CmdInit 0 w_fresh)) in
  let '(r, w) := run d false (CmdDemo false true false) 0 w0 in
  exit_status r = 0
  /\ fs w !! (sandbox_w ++ ["replicas"; "w_copy_1.py"]) = Some (File script_bytes)
  /\ fs w !! (home ++ ["host_1"; "replicas"; "w_copy_1.py"]) = None
  /\ List.filter (String.eqb "[WARNING] Host path escaped sandbox; skipping.")
       (stdout w)
     = ["[WARNING] Host path escaped sandbox; skipping.";
        "[WARNING] Host path escaped sandbox; skipping.";
        "[WARNING] Host path escaped sandbox; skipping."].
Proof. vm_compute. repeat split; auto. Qed.



(** ** Names built by [demo] *)

Lemma contains_app (c : ascii) (s t : string) :
  Config.contains c (s +:+ t) = Config.contains c s || Config.contains c t.
Proof.
  induction s as [| a s IH]; [reflexivity |].
  change (String a s +:+ t) with (String a (s +:+ t)).
  simpl. rewrite IH. now rewrite orb_assoc.
Qed.

Lemma pretty_N_char_no_slash (x : N) : Ascii.eqb "/" (pretty_N_char x) = false.
Proof. unfold pretty_N_char. repeat case_match; reflexivity. Qed.

Lemma pretty_N_go_no_slash (x : N) (s : string) :
  Config.contains "/" s = false -> Config.contains "/" (pretty_N_go x s) = false.
Proof.
  revert s. induction (N.lt_wf_0 x) as [x _ IH]; intros s Hs.
  destruct (decide (x = 0)%N) as [-> | Hx].
  - now rewrite pretty_N_go_0.
  - rewrite pretty_N_go_step by lia.
    apply IH; [apply N.div_lt; lia |].
    cbn [Config.contains]. now rewrite pretty_N_char_no_slash, Hs.
Qed.

Lemma pretty_N_no_slash (x : N) : Config.contains "/" (pretty x) = false.
Proof.
  unfold pretty, pretty_N. case_decide; [reflexivity |].
  now apply pretty_N_go_no_slash.
Qed.

Lemma pretty_Z_no_slash (z : Z) : Config.contains "/" (pretty z) = false.
Proof.
  destruct z as [| p | p]; [reflexivity | |].
  - change (pretty (Z.pos p)) with (pretty (N.pos p)). apply pretty_N_no_slash.
  - change (pretty (Z.neg p)) with ("-" +:+ pretty (N.pos p)).
    rewrite contains_app, pretty_N_no_slash. reflexivity.
Qed.

Lemma split_slash_no_slash (s : string) :
  Config.contains "/" s = false -> split_slash s = [s].
Proof.
  induction s as [| a s IH]; [reflexivity |].
  cbn [Config.contains split_slash]. rewrite (Ascii.eqb_sym a).
  destruct (Ascii.eqb "/" a); [discriminate |]. cbn [orb].
  intros H. now rewrite IH.
Qed.

(** A name without a slash that is neither empty nor [.] is a path of one
    component. *)
Lemma Path_simple (s : string) :
  Config.contains "/" s = false -> kept_part s = true ->
  Path s = mkPath false [s].
Proof.
  intros Hs Hk. unfold Path. rewrite split_slash_no_slash by exact Hs.
  cbn [List.filter]. rewrite Hk. f_equal.
  destruct s as [| a s]; [reflexivity |].
  cbn [Config.contains] in Hs. apply orb_false_iff in Hs as [Ha _].
  cbn [String.prefix].
  destruct (ascii_dec "/" a) as [<- | Hne]; [| reflexivity].
  now rewrite Ascii.eqb_refl in Ha.
Qed.

Lemma joinpath_simple (p : PurePath) (s : string) :
  Config.contains "/" s = false -> kept_part s = true ->
  p // s = mkPath (anchored p) (parts p ++ [s]).
Proof. intros Hs Hk. unfold joinpath. now rewrite Path_simple. Qed.

Lemma head_char_ne (s t : string) : head_char s <> head_char t -> s <> t.
Proof. congruence. Qed.

Lemma replica_name_no_slash (idx : Z) :
  Config.contains "/" (WormDemo._replica_name idx) = false.
Proof.
  unfold WormDemo._replica_name. rewrite !contains_app, pretty_Z_no_slash.
  reflexivity.
Qed.

Lemma replica_name_normal (idx : Z) :
  normal_name (WormDemo._replica_name idx) = true.
Proof. reflexivity. Qed.

Lemma tmp_name_normal (n : nat) : normal_name (tmp_name n) = true.
Proof. reflexivity. Qed.

Lemma tmp_name_not_replica (n : nat) (idx : Z) :
  tmp_name n <> WormDemo._replica_name idx.
Proof. apply head_char_ne. discriminate. Qed.

(** ** What the path operations change *)

Lemma walk_mono (f f' : gmap path node) (comps : list string) (cur t : path) :
  dirs_kept f f' -> walk f cur comps = inr t -> walk f' cur comps = inr t.
Proof.
  intros Hd. revert cur. induction comps as [| c cs IH]; intros cur Hw; simpl in *.
  - exact Hw.
  - destruct (node_at f cur) as [[| ?] |] eqn:E; try discriminate.
    rewrite (Hd _ E). now apply IH.
Qed.

Lemma walk_last (f : gmap path node) (pre : list string) (c : string) (cur t : path) :
  normal_name c = true -> walk f cur (pre ++ [c]) = inr t -> List.last t "" = c.
Proof.
  intros Hn. revert cur. induction pre as [| a pre IH]; intros cur Hw; simpl in Hw.
  - destruct (node_at f cur) as [[| ?] |]; try discriminate.
    injection Hw as <-. rewrite step_normal_name by exact Hn. apply last_last.
  - destruct (node_at f cur) as [[| ?] |]; try discriminate. eauto.
Qed.

Lemma node_at_weaken (f f' : gmap path node) (p : path) (n : node) :
  f ⊆ f' -> node_at f p = Some n -> node_at f' p = Some n.
Proof.
  intros Hs. destruct p as [| c p]; simpl; [auto |].
  intros H. eapply lookup_weaken; eauto.
Qed.

Lemma subseteq_dirs_kept (f f' : gmap path node) : f ⊆ f' -> dirs_kept f f'.
Proof. intros Hs p. now apply node_at_weaken. Qed.

Lemma insert_file_dirs_kept (f : gmap path node) (q : path) (c : list byte) :
  node_at f q <> Some Dir -> dirs_kept f (<[q := File c]> f).
Proof.
  intros Hq p Hp. destruct p as [| a p]; [reflexivity |]. simpl in *.
  rewrite lookup_insert_ne; [exact Hp |].
  intros ->. simpl in Hq. congruence.
Qed.

Lemma fs_read_mono (f f' : gmap path node) (c : path) (p : PurePath) (d : list byte) :
  f ⊆ f' -> fs_read f c p = inr d -> fs_read f' c p = inr d.
Proof.
  intros Hs. unfold fs_read, stat, locate.
  destruct (walk f (if anchored p then [] else c) (parts p)) as [e | q] eqn:Hw;
    [discriminate |].
  rewrite (walk_mono f f' _ _ _ (subseteq_dirs_kept _ _ Hs) Hw).
  destruct (node_at f q) as [n |] eqn:Hn; [| discriminate].
  now rewrite (node_at_weaken _ _ _ _ Hs Hn).
Qed.

(** *** [write_bytes] *)

Lemma write_bytes_ok (p : PurePath) (d : list byte) (w w' : world) :
  write_bytes p d w = (Ok tt, w') ->
  exists q,
    locate (fs w) (cwd w) p = inr q
    /\ q <> []
    /\ node_at (fs w) q <> Some Dir
    /\ w' = set_fs (<[q := File d]> (fs w)) w.
Proof.
  unfold write_bytes, fs_write.
  destruct (locate (fs w) (cwd w) p) as [e | q]; [discriminate |].
  destruct (node_at (fs w) q) as [[| old] |] eqn:Hn; [discriminate | |].
  - intros H. injection H as <-. exists q. repeat split; try congruence.
    intros ->. discriminate.
  - unfold put. destruct q as [| a q]; [discriminate |].
    destruct (node_at (fs w) (removelast (a :: q))) as [[| ?] |]; try discriminate.
    intros H. injection H as <-. exists (a :: q). repeat split; congruence.
Qed.

Lemma write_bytes_raise (p : PurePath) (d : list byte) (w w' : world) (e : exn) :
  write_bytes p d w = (Raise e, w') -> w' = w.
Proof.
  unfold write_bytes.
  destruct (fs_write true (fs w) (cwd w) p d) as [e' | [q f']]; congruence.
Qed.

Lemma write_then_read (p : PurePath) (d : list byte) (w w' : world) :
  write_bytes p d w = (Ok tt, w') -> fs_read (fs w') (cwd w') p = inr d.
Proof.
  intros H. apply write_bytes_ok in H as (q & Hl & Hq & Hn & ->). simpl.
  unfold fs_read, stat, locate in *.
  rewrite (walk_mono _ _ _ _ _ (insert_file_dirs_kept _ q d Hn) Hl).
  destruct q as [| a q]; [congruence |]. simpl. now rewrite lookup_insert_eq.
Qed.

Lemma read_bytes_ok (p : PurePath) (c : list byte) (w w' : world) :
  read_bytes p w = (Ok c, w') -> w' = w /\ fs_read (fs w) (cwd w) p = inr c.
Proof.
  unfold read_bytes. destruct (fs_read (fs w) (cwd w) p); [discriminate |].
  intros H. injection H as <- <-. auto.
Qed.

(** *** Operations that only add entries *)

Lemma grows_bind {A B} (m : M A) (k : A -> M B) :
  grows m -> (forall a, grows (k a)) -> grows (bind m k).
Proof.
  intros Hm Hk w r w'. unfold bind.
  destruct (m w) as [[a | e] w1] eqn:E; intros H.
  - destruct (Hm _ _ _ E) as (Hc & Hh & Hf).
    destruct (Hk a _ _ _ H) as (Hc' & Hh' & Hf').
    repeat split; try congruence. now transitivity (fs w1).
  - injection H as <- <-. eauto.
Qed.

Lemma put_grows (f f' : gmap path node) (q : path) (n : node) :
  node_at f q = None -> put f q n = inr f' -> f ⊆ f'.
Proof.
  unfold put. destruct q as [| a q]; [discriminate |]. intros Hq.
  destruct (node_at f (removelast (a :: q))) as [[| ?] |]; try discriminate.
  intros H. injection H as <-. apply insert_subseteq. exact Hq.
Qed.

Lemma grows_os_mkdir (p : PurePath) : grows (os_mkdir p).
Proof.
  intros w r w'. unfold os_mkdir, lift_fs, fs_mkdir.
  destruct (locate (fs w) (cwd w) p) as [e | q].
  - intros H. injection H as <- <-. auto.
  - destruct (node_at (fs w) q) eqn:Hq.
    + intros H. injection H as <- <-. auto.
    + destruct (put (fs w) q Dir) as [e | f'] eqn:Hp; intros H; injection H as <- <-.
      * auto.
      * simpl. repeat split. eapply put_grows; eauto.
Qed.

Lemma grows_mkdir_leaf (p : PurePath) : grows (mkdir_leaf p).
Proof.
  intros w r w'. unfold mkdir_leaf.
  destruct (os_mkdir p w) as [[[] | [msg | e | code]] w1] eqn:E;
    pose proof (grows_os_mkdir p _ _ _ E) as (Hc & Hh & Hf).
  - intros H. injection H as <- <-. auto.
  - intros H. injection H as <- <-. auto.
  - destruct e; try (intros H; injection H as <- <-; auto);
      destruct (is_dir w1 p); intros H; injection H as <- <-; auto.
  - intros H. injection H as <- <-. auto.
Qed.

Lemma grows_mkdir_rev (anch : bool) (rparts : list string) :
  grows (mkdir_rev anch rparts).
Proof.
  induction rparts as [| c rest IH]; intros w r w'; cbn [mkdir_rev].
  - destruct (os_mkdir _ w) as [[[] | [msg | e | code]] w1] eqn:E;
      pose proof (grows_os_mkdir _ _ _ _ E) as (Hc & Hh & Hf).
    + intros H. injection H as <- <-. auto.
    + intros H. injection H as <- <-. auto.
    + destruct e; try (intros H; injection H as <- <-; auto);
        destruct (is_dir w1 _); intros H; injection H as <- <-; auto.
    + intros H. injection H as <- <-. auto.
  - destruct (os_mkdir _ w) as [[[] | [msg | e | code]] w1] eqn:E;
      pose proof (grows_os_mkdir _ _ _ _ E) as (Hc & Hh & Hf).
    + intros H. injection H as <- <-. auto.
    + intros H. injection H as <- <-. auto.
    + destruct e;
        try (destruct (is_dir w1 _); intros H; injection H as <- <-; auto).
      intros H.
      pose proof (grows_bind _ _ IH (fun _ => grows_mkdir_leaf _) _ _ _ H)
        as (Hc' & Hh' & Hf').
      repeat split; try congruence. now transitivity (fs w1).
    + intros H. injection H as <- <-. auto.
Qed.

Lemma grows_mkdir_parents (p : PurePath) : grows (mkdir_parents p).
Proof. apply grows_mkdir_rev. Qed.

(** The temporary file is a new entry named [tmp<n>]. *)
Lemma mkstemp_spec (fuel : nat) (d : PurePath) (w : world) (r : res PurePath) (w' : world) :
  mkstemp fuel d w = (r, w') ->
  cwd w' = cwd w /\ handlers w' = handlers w /\ fs w ⊆ fs w'
  /\ forall tmp, r = Ok tmp -> exists q n, tmp = absolute (q ++ [tmp_name n]).
Proof.
  revert w. induction fuel as [| fuel IH]; intros w; cbn [mkstemp].
  - intros H. injection H as <- <-. repeat split; auto. discriminate.
  - destruct (locate (fs w) (cwd w) d) as [e | q].
    + intros H. injection H as <- <-. repeat split; auto. discriminate.
    + destruct (node_at (fs w) (q ++ [tmp_name (tmp_seq w)])) eqn:Hn.
      * intros H. apply IH in H as (Hc & Hh & Hf & Ht). auto.
      * destruct (put (fs w) (q ++ [tmp_name (tmp_seq w)]) (File [])) as [e | f'] eqn:Hp;
          intros H; injection H as <- <-.
        -- repeat split; auto. discriminate.
        -- simpl. repeat split; [eapply put_grows; eauto |].
           intros tmp Heq. injection Heq as <-. eauto.
Qed.

(** *** [os.replace] and [unlink] *)

Lemma not_in_orphan (q h : path) (w : world) :
  h ∉ handlers w -> h ∉ handlers (orphan q w).
Proof.
  unfold orphan. simpl. rewrite !list_elem_of_In, filter_In. tauto.
Qed.

Lemma orphan_removes (q : path) (w : world) : q ∉ handlers (orphan q w).
Proof.
  unfold orphan. simpl. rewrite list_elem_of_In, filter_In.
  intros [_ H]. rewrite bool_decide_eq_true_2 in H by reflexivity. discriminate.
Qed.

Lemma os_replace_ok (src dst : PurePath) (w w' : world) :
  os_replace src dst w = (Ok tt, w') ->
  exists qs qd c,
    stat (fs w) (cwd w) src = inr (qs, File c)
    /\ locate (fs w) (cwd w) dst = inr qd
    /\ cwd w' = cwd w
    /\ fs w' !! qd = Some (File c)
    /\ (qd ∉ handlers w')
    /\ (forall q, q <> qs -> q <> qd -> fs w' !! q = fs w !! q)
    /\ (forall q, q ∉ handlers w -> q ∉ handlers w').
Proof.
  unfold os_replace, fs_replace.
  destruct (stat (fs w) (cwd w) src) as [e | [qs [| c]]] eqn:Hs; try discriminate.
  destruct (locate (fs w) (cwd w) dst) as [e | qd]; [discriminate |].
  assert (Hqs : fs w !! qs = Some (File c)).
  { unfold stat in Hs. destruct (locate (fs w) (cwd w) src) as [e | q]; [discriminate |].
    destruct (node_at (fs w) q) as [n |] eqn:Hn; [| discriminate].
    injection Hs as -> ->. destruct qs; [discriminate | exact Hn]. }
  destruct (node_at (fs w) qd) as [[| old] |] eqn:Hd; [discriminate | |].
  - case_bool_decide as Heq.
    + intros H. injection H as <-. subst qd.
      exists qs, qs, c. repeat split; auto using orphan_removes, not_in_orphan.
    + unfold put. destruct qd as [| a qd]; [discriminate |].
      destruct (node_at (fs w) (removelast (a :: qd))) as [[| ?] |]; try discriminate.
      intros H. injection H as <-.
      exists qs, (a :: qd), c. repeat split; auto using orphan_removes, not_in_orphan.
      * simpl. rewrite lookup_delete_ne by congruence. apply lookup_insert_eq.
      * intros q H1 H2. simpl.
        rewrite lookup_delete_ne by congruence. now rewrite lookup_insert_ne by congruence.
  - case_bool_decide as Heq.
    + intros H. injection H as <-. subst qd.
      exists qs, qs, c. repeat split; auto using orphan_removes, not_in_orphan.
    + unfold put. destruct qd as [| a qd]; [discriminate |].
      destruct (node_at (fs w) (removelast (a :: qd))) as [[| ?] |]; try discriminate.
      intros H. injection H as <-.
      exists qs, (a :: qd), c. repeat split; auto using orphan_removes, not_in_orphan.
      * simpl. rewrite lookup_delete_ne by congruence. apply lookup_insert_eq.
      * intros q H1 H2. simpl.
        rewrite lookup_delete_ne by congruence. now rewrite lookup_insert_ne by congruence.
Qed.

Lemma unlink_spec (p : PurePath) (w : world) (r : res unit) (w' : world) :
  unlink_missing_ok p w = (r, w') ->
  cwd w' = cwd w
  /\ (forall q, q ∉ handlers w -> q ∉ handlers w')
  /\ (forall q, locate (fs w) (cwd w) p <> inr q -> fs w' !! q = fs w !! q).
Proof.
  unfold unlink_missing_ok, fs_unlink.
  destruct (locate (fs w) (cwd w) p) as [e | t].
  - destruct e; intros H; injection H as <- <-; auto.
  - destruct (node_at (fs w) t) as [[| c] |]; intros H; injection H as <- <-; auto.
    repeat split; auto using not_in_orphan.
    intros q Hq. simpl. rewrite lookup_delete_ne; [reflexivity | congruence].
Qed.

(** ** Replicas that hold the bytes of the call *)

Section OneCall.

(** The bytes [data] of one [demo] call and the replica name [rn] of its
    index. *)
Variable data : list byte.
Variable rn : string.

Lemma keeps_ret {A} (a : A) : keeps data rn (ret a).
Proof. intros w a' w' H. injection H as <- <-. auto. Qed.

Lemma keeps_bind {A B} (m : M A) (k : A -> M B) :
  keeps data rn m -> (forall a, keeps data rn (k a)) -> keeps data rn (bind m k).
Proof.
  intros Hm Hk w b w'. unfold bind.
  destruct (m w) as [[a | e] w1] eqn:E; [| discriminate].
  intros H. destruct (Hm _ _ _ E) as [Hc Hg]. destruct (Hk a _ _ _ H) as [Hc' Hg'].
  split; [congruence | auto].
Qed.

Lemma keeps_for_each {A} (l : list A) (body : A -> M unit) :
  (forall x, keeps data rn (body x)) -> keeps data rn (for_each l body).
Proof.
  intros Hb. induction l as [| x l IH]; simpl.
  - apply keeps_ret.
  - apply keeps_bind; [apply Hb | intros _; exact IH].
Qed.

Lemma keeps_log (level msg : string) : keeps data rn (log level msg).
Proof.
  intros w a w' H.
  destruct (log_spec level msg w)
    as (w1 & Hrun & Hc & _ & Hh & _ & _ & _ & _ & Hf & _).
  rewrite Hrun in H. injection H as _ <-.
  split; [exact Hc |]. intros q _ [Hq Hn]. split.
  - now rewrite Hf.
  - now rewrite Hh.
Qed.

Lemma keeps_read_bytes (p : PurePath) : keeps data rn (read_bytes p).
Proof. intros w c w' H. apply read_bytes_ok in H as [-> _]. auto. Qed.

Lemma keeps_sha256 (p : PurePath) : keeps data rn (sha256 p).
Proof.
  apply keeps_bind; [apply keeps_read_bytes | intros c; apply keeps_ret].
Qed.

Lemma keeps_grows {A} (m : M A) : grows m -> keeps data rn m.
Proof.
  intros Hm w a w' H. destruct (Hm _ _ _ H) as (Hc & Hh & Hf).
  split; [exact Hc |]. intros q _ [Hq Hn]. split.
  - eapply lookup_weaken; eauto.
  - now rewrite Hh.
Qed.

(** Writing [data] itself can only make a replica good. *)
Lemma keeps_write_data (p : PurePath) : keeps data rn (write_bytes p data).
Proof.
  intros w [] w' H. apply write_bytes_ok in H as (t & _ & _ & _ & ->).
  split; [reflexivity |]. intros q _ [Hq Hn]. split; [| exact Hn]. simpl.
  destruct (decide (t = q)) as [-> | Hne].
  - apply lookup_insert_eq.
  - now rewrite lookup_insert_ne.
Qed.

Lemma located_elsewhere (p : PurePath) (f : gmap path node) (c q : path) :
  named_otherwise rn p -> List.last q "" = rn -> locate f c p <> inr q.
Proof.
  intros (pre & c0 & Hp & Hn & Hne) Hq Hl. unfold locate in Hl. rewrite Hp in Hl.
  apply walk_last in Hl; [| exact Hn]. congruence.
Qed.

Lemma keeps_write_elsewhere (p : PurePath) (d : list byte) :
  named_otherwise rn p -> keeps data rn (write_bytes p d).
Proof.
  intros Hp w [] w' H. apply write_bytes_ok in H as (t & Hl & _ & _ & ->).
  split; [reflexivity |]. intros q Hq [Hf Hn]. split; [| exact Hn]. simpl.
  rewrite lookup_insert_ne; [exact Hf |].
  intros ->. eapply located_elsewhere; eauto.
Qed.

Lemma keeps_unlink_elsewhere (p : PurePath) :
  named_otherwise rn p -> keeps data rn (unlink_missing_ok p).
Proof.
  intros Hp w a w' H. apply unlink_spec in H as (Hc & Hh & Hf).
  split; [exact Hc |]. intros q Hq [Hq1 Hq2]. split; [| auto].
  rewrite Hf; [exact Hq1 |]. now apply located_elsewhere.
Qed.

End OneCall.

(** ** One [demo] call writes the same bytes everywhere (C10) *)

Lemma payload_name_not_replica (idx : Z) :
  "friendly_note.txt" <> WormDemo._replica_name idx.
Proof. apply head_char_ne. discriminate. Qed.

Lemma keeps_payload (data : list byte) (idx : Z) (dir : PurePath) :
  keeps data (WormDemo._replica_name idx) (WormDemo._payload dir).
Proof.
  assert (Hp : named_otherwise (WormDemo._replica_name idx) (dir // "friendly_note.txt")).
  { rewrite joinpath_simple by reflexivity.
    exists (parts dir), "friendly_note.txt".
    split; [reflexivity |]. split; [reflexivity | apply payload_name_not_replica]. }
  intros w [] w'. unfold WormDemo._payload, except_Exception.
  set (inner := (write_text _ _ ;; logger_info _)).
  assert (Hin : keeps data (WormDemo._replica_name idx) inner).
  { apply keeps_bind; [now apply keeps_write_elsewhere | intros _; apply keeps_log]. }
  assert (Hraise : forall e w1, inner w = (Raise e, w1) -> w1 = w).
  { intros e w1. unfold inner, bind, write_text.
    destruct (write_bytes _ _ w) as [[[] | e'] w2] eqn:E.
    - unfold logger_info. destruct (log_spec "INFO"
        ("Payload note written at " +:+ str (dir // "friendly_note.txt")) w2)
        as (w3 & -> & _). discriminate.
    - intros H. injection H as _ <-. eapply write_bytes_raise; eauto. }
  destruct (inner w) as [[[] | [msg | e | code]] w1] eqn:E.
  - intros H. injection H as <-. eapply Hin; eauto.
  - rewrite (Hraise _ _ eq_refl). apply keeps_log.
  - rewrite (Hraise _ _ eq_refl). apply keeps_log.
  - discriminate.
Qed.

(** [_atomic_write] of a source that holds [data], onto a normalised
    absolute destination [Y]: afterwards [Y] is good, and so is every
    replica that was. *)
Lemma atomic_write_ok (data : list byte) (idx : Z) (src : PurePath) (Y : path)
  (w w' : world) :
  normal Y = true ->
  fs_read (fs w) (cwd w) src = inr data ->
  WormDemo._atomic_write src (absolute Y) w = (Ok tt, w') ->
  cwd w' = cwd w
  /\ (forall q, List.last q "" = WormDemo._replica_name idx ->
                good data q w -> good data q w')
  /\ good data Y w'.
Proof.
  intros HY Hsrc. unfold WormDemo._atomic_write, bind, NamedTemporaryFile.
  destruct (mkdir_parents _ w) as [[[] | e1] w1] eqn:E1; [| discriminate].
  destruct (grows_mkdir_parents _ _ _ _ E1) as (Hc1 & Hh1 & Hf1).
  destruct (mkstemp TMP_MAX _ w1) as [[tmp | e2] w2] eqn:E2; [| discriminate].
  destruct (mkstemp_spec _ _ _ _ _ E2) as (Hc2 & Hh2 & Hf2 & Htmp).
  destruct (Htmp tmp eq_refl) as (q0 & n & ->).
  destruct (read_bytes src w2) as [[c | e3] w3] eqn:E3; [| discriminate].
  apply read_bytes_ok in E3 as [-> Hread].
  assert (c = data) as ->.
  { apply (fs_read_mono _ (fs w2)) in Hsrc; [| now transitivity (fs w1)].
    rewrite Hc2, Hc1 in Hread. congruence. }
  destruct (write_bytes _ data w2) as [[[] | e4] w4] eqn:E4; [| discriminate].
  pose proof (write_then_read _ _ _ _ E4) as Hback.
  apply write_bytes_ok in E4 as (qt & Hqt & _ & _ & ->).
  intros E5. apply os_replace_ok in E5
    as (qs & qd & c' & Hst & Hqd & Hc5 & Hnew & Hnh & Hfr & Hhs).
  cbn [fs cwd handlers set_fs] in *.
  assert (c' = data) as ->.
  { unfold fs_read in Hback. rewrite Hst in Hback. congruence. }
  assert (qd = Y) as -> by (eapply locate_absolute_normal; eauto).
  assert (Hqt_last : List.last qt "" = tmp_name n).
  { unfold locate in Hqt. cbn [anchored parts absolute] in Hqt.
    eapply walk_last; eauto using tmp_name_normal. }
  assert (Hqs_last : List.last qs "" = tmp_name n).
  { unfold stat, locate in Hst. cbn [anchored parts absolute] in Hst.
    destruct (walk _ [] (q0 ++ [tmp_name n])) as [e | t] eqn:Hw; [discriminate |].
    destruct (node_at _ t); [| discriminate]. injection Hst as -> _.
    eapply walk_last; eauto using tmp_name_normal. }
  split; [congruence |]. split; [| split; assumption].
  intros q Hq [Hq1 Hq2].
  assert (q <> qt) by (intros ->; pose proof (tmp_name_not_replica n idx); congruence).
  assert (q <> qs) by (intros ->; pose proof (tmp_name_not_replica n idx); congruence).
  split.
  - destruct (decide (q = Y)) as [-> | Hne]; [exact Hnew |].
    rewrite Hfr by assumption. rewrite lookup_insert_ne by congruence.
    eapply lookup_weaken; [| exact Hf2]. eapply lookup_weaken; eauto.
  - apply Hhs. now rewrite Hh2, Hh1.
Qed.

Lemma returns_ret {A} (P : A -> Prop) (a : A) : P a -> returns P (ret a).
Proof. intros Ha w a' w' H. injection H as <- _. exact Ha. Qed.

Lemma returns_bind {A B} (P : B -> Prop) (m : M A) (k : A -> M B) :
  (forall a, returns P (k a)) -> returns P (bind m k).
Proof.
  intros Hk w b w'. unfold bind. destruct (m w) as [[a | e] w1]; [| discriminate].
  apply Hk.
Qed.

Lemma resolve_join_replica_name (c : path) (p : PurePath) (idx : Z) :
  resolve c (p // WormDemo._replica_name idx)
  = resolve c p ++ [WormDemo._replica_name idx].
Proof.
  rewrite joinpath_simple by (apply replica_name_no_slash || reflexivity).
  unfold resolve. cbn [anchored parts]. rewrite fold_left_app. cbn [fold_left].
  apply step_normal_name, replica_name_normal.
Qed.

Lemma absolute_join_replica_name (X : path) (idx : Z) :
  absolute X // WormDemo._replica_name idx
  = absolute (X ++ [WormDemo._replica_name idx]).
Proof.
  now rewrite joinpath_simple by (apply replica_name_no_slash || reflexivity).
Qed.

Lemma normal_snoc_replica_name (X : path) (idx : Z) :
  normal X = true -> normal (X ++ [WormDemo._replica_name idx]) = true.
Proof. intros H. unfold normal. rewrite forallb_app. unfold normal in H. now rewrite H. Qed.

Lemma tmp_host_named (cfg : Config.cfg) (i idx : Z) :
  named_otherwise (WormDemo._replica_name idx)
    (WormDemo.sandbox cfg
     // (".tmp_host_" +:+ pretty i +:+ "_" +:+ pretty idx +:+ ".py")).
Proof.
  rewrite joinpath_simple;
    [| rewrite !contains_app, !pretty_Z_no_slash; reflexivity | reflexivity].
  eexists _, _. split; [reflexivity |]. split; [reflexivity |].
  apply head_char_ne. discriminate.
Qed.

Lemma tmp_replica_named (cfg : Config.cfg) (idx : Z) :
  named_otherwise (WormDemo._replica_name idx)
    (WormDemo.sandbox cfg // (".tmp_replica_" +:+ pretty idx +:+ ".py")).
Proof.
  rewrite joinpath_simple;
    [| rewrite !contains_app, !pretty_Z_no_slash; reflexivity | reflexivity].
  eexists _, _. split; [reflexivity |]. split; [reflexivity |].
  apply head_char_ne. discriminate.
Qed.

(** One host of the spread loop: replicas that were good stay good, and
    a host whose directory is inside the sandbox gets a good replica. *)
Lemma spread_host_ok (cfg : Config.cfg) (data : list byte) (idx : Z)
  (payload : bool) (i : Z) (w w' : world) :
  normal (cwd w) = true ->
  WormDemo.spread_host cfg idx data payload i w = (Ok tt, w') ->
  cwd w' = cwd w
  /\ (forall q, List.last q "" = WormDemo._replica_name idx ->
                good data q w -> good data q w')
  /\ (is_within (cwd w) (absolute (resolve (cwd w) (WormDemo.host_dir cfg i)))
        (WormDemo.sandbox cfg) = true ->
      good data (resolve (cwd w) (WormDemo.host_dir cfg i)
                 ++ [WormDemo._replica_name idx]) w').
Proof.
  intros Hn. unfold WormDemo.spread_host.
  destruct (is_within _ _ _) eqn:Hg; cbn [negb].
  - rewrite absolute_join_replica_name.
    set (tmp := WormDemo.sandbox cfg // _).
    set (Y := resolve (cwd w) (WormDemo.host_dir cfg i) ++ [WormDemo._replica_name idx]).
    assert (HY : normal Y = true)
      by (apply normal_snoc_replica_name, resolve_normal, Hn).
    unfold bind at 1.
    destruct (write_bytes tmp data w) as [[[] | e1] w1] eqn:E1; [| discriminate].
    destruct (keeps_write_data data (WormDemo._replica_name idx) tmp _ _ _ E1)
      as [Hc1 Hk1].
    pose proof (write_then_read _ _ _ _ E1) as Hsrc.
    unfold bind at 1.
    destruct (WormDemo._atomic_write tmp (absolute Y) w1) as [[[] | e2] w2] eqn:E2;
      [| discriminate].
    destruct (atomic_write_ok data idx _ _ _ _ HY Hsrc E2) as (Hc2 & Hk2 & Hg2).
    intros E3.
    assert (Hrest : keeps data (WormDemo._replica_name idx)
              (unlink_missing_ok tmp ;;
               logger_info ("(simulated) spread -> host_" +:+ pretty i +:+ "/"
                            +:+ Config.replica_dir cfg +:+ "/" +:+ name (absolute Y)) ;;
               if payload then WormDemo._payload (absolute (resolve (cwd w)
                                                    (WormDemo.host_dir cfg i)))
               else ret tt)).
    { apply keeps_bind; [apply keeps_unlink_elsewhere, tmp_host_named | intros _].
      apply keeps_bind; [apply keeps_log | intros _].
      destruct payload; [apply keeps_payload | apply keeps_ret]. }
    destruct (Hrest _ _ _ E3) as [Hc3 Hk3].
    split; [congruence |]. split.
    + intros q Hq Hgood. auto.
    + intros _. apply Hk3; [| exact Hg2].
      unfold Y. apply last_last.
  - intros E. destruct (keeps_log data (WormDemo._replica_name idx) _ _ _ _ _ E)
      as [Hc Hk].
    split; [exact Hc |]. split; [exact Hk | discriminate].
Qed.

Lemma elem_of_range1 (i n : Z) : i ∈ range1 n <-> 1 <= i <= n.
Proof.
  unfold range1. rewrite list_elem_of_fmap. split.
  - intros (k & -> & Hk). apply elem_of_seq in Hk. lia.
  - intros H. exists (Z.to_nat i). split; [lia |]. apply elem_of_seq. lia.
Qed.

(** The whole loop. *)
Lemma spread_loop_ok (cfg : Config.cfg) (data : list byte) (idx : Z)
  (payload : bool) (l : list Z) (w w' : world) :
  normal (cwd w) = true ->
  for_each l (WormDemo.spread_host cfg idx data payload) w = (Ok tt, w') ->
  cwd w' = cwd w
  /\ (forall q, List.last q "" = WormDemo._replica_name idx ->
                good data q w -> good data q w')
  /\ (forall i, i ∈ l ->
        is_within (cwd w) (absolute (resolve (cwd w) (WormDemo.host_dir cfg i)))
          (WormDemo.sandbox cfg) = true ->
        good data (resolve (cwd w) (WormDemo.host_dir cfg i)
                   ++ [WormDemo._replica_name idx]) w').
Proof.
  revert w. induction l as [| j l IH]; intros w Hn; cbn [for_each].
  - intros H. injection H as <-. split; [reflexivity |]. split; [auto |].
    intros i Hi. now apply not_elem_of_nil in Hi.
  - unfold bind.
    destruct (WormDemo.spread_host cfg idx data payload j w) as [[[] | e] w1] eqn:E;
      [| discriminate].
    destruct (spread_host_ok _ _ _ _ _ _ _ Hn E) as (Hc1 & Hk1 & Hg1).
    intros H. apply IH in H as (Hc2 & Hk2 & Hg2); [| now rewrite Hc1].
    rewrite Hc1 in *.
    split; [congruence |]. split; [auto |].
    intros i Hi Hw. apply elem_of_cons in Hi as [-> | Hi].
    + apply Hk2; [apply last_last | auto].
    + auto.
Qed.

(** The primary replica. *)
Lemma write_primary_ok (cfg : Config.cfg) (polymorph payload : bool)
  (token idx : Z) (w : world) (d : list byte) (w' : world) :
  normal (cwd w) = true ->
  WormDemo.write_primary cfg polymorph payload token idx (absolute (script w))
    (absolute (resolve (cwd w) (WormDemo.replicas cfg // WormDemo._replica_name idx)))
    w = (Ok d, w') ->
  exists base,
    fs_read (fs w) (cwd w) (absolute (script w)) = inr base
    /\ d = WormDemo.replica_data polymorph token base
    /\ cwd w' = cwd w
    /\ good d (resolve (cwd w) (WormDemo.replicas cfg // WormDemo._replica_name idx)) w'.
Proof.
  intros Hn. unfold WormDemo.write_primary.
  set (Y := resolve (cwd w) (WormDemo.replicas cfg // WormDemo._replica_name idx)).
  assert (HY : normal Y = true) by (apply resolve_normal, Hn).
  assert (HYlast : List.last Y "" = WormDemo._replica_name idx)
    by (unfold Y; rewrite resolve_join_replica_name; apply last_last).
  unfold bind at 1.
  destruct (read_bytes (absolute (script w)) w) as [[base | e0] w0] eqn:E0;
    [| discriminate].
  apply read_bytes_ok in E0 as [-> Hbase].
  set (data := WormDemo.replica_data polymorph token base).
  set (tmp := WormDemo.sandbox cfg // _).
  unfold bind at 1.
  destruct (write_bytes tmp data w) as [[[] | e1] w1] eqn:E1; [| discriminate].
  destruct (keeps_write_data data (WormDemo._replica_name idx) tmp _ _ _ E1)
    as [Hc1 _].
  pose proof (write_then_read _ _ _ _ E1) as Hsrc.
  unfold bind at 1.
  destruct (WormDemo._atomic_write tmp (absolute Y) w1) as [[[] | e2] w2] eqn:E2;
    [| discriminate].
  destruct (atomic_write_ok data idx _ _ _ _ HY Hsrc E2) as (Hc2 & _ & Hg2).
  intros E3.
  match type of E3 with ?m w2 = _ => set (rest := m) in E3 end.
  assert (Hkeeps : keeps data (WormDemo._replica_name idx) rest).
  { unfold rest.
    apply keeps_bind; [apply keeps_unlink_elsewhere, tmp_replica_named | intros _].
    apply keeps_bind; [apply keeps_log | intros _].
    apply keeps_bind; [apply keeps_sha256 | intros h1].
    apply keeps_bind; [apply keeps_sha256 | intros h2].
    apply keeps_bind; [apply keeps_log | intros _].
    apply keeps_bind; [| intros _; apply keeps_ret].
    destruct payload; [apply keeps_payload | apply keeps_ret]. }
  assert (Hret : returns (eq data) rest).
  { unfold rest. do 6 (apply returns_bind; intros ?). now apply returns_ret. }
  destruct (Hkeeps _ _ _ E3) as [Hc3 Hk3].
  pose proof (Hret _ _ _ E3) as <-.
  exists base. repeat split; try congruence; apply Hk3; auto.
Qed.

(** C10: in a [demo] call that replicates and returns normally, the
    bytes [data] are computed once from the source, and when the call
    returns the primary replica and, with [simulate_spread], the replica
    of every configured host whose directory is inside the sandbox hold
    exactly these bytes; their SHA-256 checksums are therefore equal. *)
Theorem C10_one_call_writes_the_same_bytes
  (cfg : Config.cfg) (polymorph simulate_spread payload : bool) (token : Z)
  (w w' : world) :
  normal (cwd w) = true ->
  exists_ w (WormDemo.marker cfg) = false ->
  is_within (cwd w)
    (absolute (resolve (cwd w)
       (WormDemo.replicas cfg // WormDemo._replica_name (WormDemo._next_index cfg w))))
    (WormDemo.sandbox cfg) = true ->
  WormDemo.demo cfg polymorph simulate_spread payload token w = (Ok tt, w') ->
  exists base,
    fs_read (fs w) (cwd w) (absolute (script w)) = inr base
    /\ fs w' !! resolve (cwd w)
                  (WormDemo.replicas cfg
                   // WormDemo._replica_name (WormDemo._next_index cfg w))
       = Some (File (WormDemo.replica_data polymorph token base))
    /\ (simulate_spread = true ->
        forall i, 1 <= i <= Config.host_count cfg ->
          is_within (cwd w) (absolute (resolve (cwd w) (WormDemo.host_dir cfg i)))
            (WormDemo.sandbox cfg) = true ->
          fs w' !! (resolve (cwd w) (WormDemo.host_dir cfg i)
                    ++ [WormDemo._replica_name (WormDemo._next_index cfg w)])
          = Some (File (WormDemo.replica_data polymorph token base))
          /\ digest_at (fs w')
               (resolve (cwd w) (WormDemo.host_dir cfg i)
                ++ [WormDemo._replica_name (WormDemo._next_index cfg w)])
             = digest_at (fs w')
                 (resolve (cwd w)
                    (WormDemo.replicas cfg
                     // WormDemo._replica_name (WormDemo._next_index cfg w)))).
Proof.
  intros Hn Hm Hg. unfold WormDemo.demo.
  destruct (exists_ w (WormDemo.sandbox cfg)); cbn [negb].
  2: { unfold bind, logger_error.
       destruct (log_spec "ERROR" "Sandbox not initialized. Run --init first." w)
         as (w1 & -> & _). discriminate. }
  rewrite Hm. unfold except_OSError. cbv beta zeta. rewrite Hg.
  set (idx := WormDemo._next_index cfg w).
  destruct (WormDemo.replicate cfg polymorph simulate_spread payload token idx _ _ w)
    as [[[] | [msg | e | code]] w1] eqn:E; try discriminate.
  intros H. injection H as <-.
  unfold WormDemo.replicate, bind in E.
  destruct (WormDemo.write_primary cfg polymorph payload token idx _ _ w)
    as [[d | e] w0] eqn:Ep; [| discriminate].
  apply write_primary_ok in Ep as (base & Hbase & -> & Hc0 & Hgood); [| exact Hn].
  exists base. split; [exact Hbase |].
  unfold WormDemo.spread in E.
  destruct (simulate_spread && (0 <? Config.host_count cfg)) eqn:Hsp.
  - apply spread_loop_ok in E as (_ & Hk & Hhosts); [| now rewrite Hc0].
    rewrite Hc0 in *.
    assert (Hprimary : good (WormDemo.replica_data polymorph token base)
              (resolve (cwd w) (WormDemo.replicas cfg // WormDemo._replica_name idx)) w1).
    { apply Hk; [| exact Hgood]. rewrite resolve_join_replica_name. apply last_last. }
    split; [apply Hprimary |].
    intros _ i Hi Hw.
    assert (Hhost : good (WormDemo.replica_data polymorph token base)
              (resolve (cwd w) (WormDemo.host_dir cfg i)
               ++ [WormDemo._replica_name idx]) w1)
      by (apply Hhosts; [now apply elem_of_range1 | exact Hw]).
    split; [apply Hhost |].
    unfold digest_at. destruct Hhost as [-> _]. now destruct Hprimary as [-> _].
  - injection E as <-. split; [apply Hgood |].
    intros -> i Hi. cbn [andb] in Hsp. apply Z.ltb_ge in Hsp. lia.
Qed.

(** C10 at a concrete input: the runbook's demo with all three options
    and token 12345. *)
Lemma C10_one_call_writes_the_same_bytes_witness :
  let w' := snd (WormDemo.demo Config.CFG true true true 12345 w_armed_call) in
  exists base,
    fs_read (fs w_armed_call) (cwd w_armed_call) (absolute (script w_armed_call))
    = inr base
    /\ fs w' !! resolve (cwd w_armed_call)
                  (WormDemo.replicas Config.CFG
                   // WormDemo._replica_name
                        (WormDemo._next_index Config.CFG w_armed_call))
       = Some (File (WormDemo.replica_data true 12345 base))
    /\ (true = true ->
        forall i, 1 <= i <= Config.host_count Config.CFG ->
          is_within (cwd w_armed_call)
            (absolute (resolve (cwd w_armed_call) (WormDemo.host_dir Config.CFG i)))
            (WormDemo.sandbox Config.CFG) = true ->
          fs w' !! (resolve (cwd w_armed_call) (WormDemo.host_dir Config.CFG i)
                    ++ [WormDemo._replica_name
                          (WormDemo._next_index Config.CFG w_armed_call)])
          = Some (File (WormDemo.replica_data true 12345 base))
          /\ digest_at (fs w')
               (resolve (cwd w_armed_call) (WormDemo.host_dir Config.CFG i)
                ++ [WormDemo._replica_name
                      (WormDemo._next_index Config.CFG w_armed_call)])
             = digest_at (fs w')
                 (resolve (cwd w_armed_call)
                    (WormDemo.replicas Config.CFG
                     // WormDemo._replica_name
                          (WormDemo._next_index Config.CFG w_armed_call)))).
Proof.
  apply (C10_one_call_writes_the_same_bytes Config.CFG true true true 12345
           w_armed_call);
    vm_compute; reflexivity.
Defined.

(** The same run, evaluated: the four replicas of the call carry one
    checksum, which is not the checksum of the unmutated source. *)
Example spread_run_checksums :
  let w' := snd (WormDemo.demo Config.CFG true true true 12345 w_armed_call) in
  let primary := digest_at (fs w') (sandbox_w ++ ["replicas"; "w_copy_1.py"]) in
  is_Some primary
  /\ digest_at (fs w') (sandbox_w ++ ["hosts"; "host_1"; "replicas"; "w_copy_1.py"])
     = primary
  /\ digest_at (fs w') (sandbox_w ++ ["hosts"; "host_2"; "replicas"; "w_copy_1.py"])
     = primary
  /\ digest_at (fs w') (sandbox_w ++ ["hosts"; "host_3"; "replicas"; "w_copy_1.py"])
     = primary
  /\ primary <> Some (SHA256.hexdigest script_bytes).
Proof. vm_compute. repeat split; [eexists; reflexivity | discriminate]. Qed.

(** * Further properties of the code *)

(** ** Name resolution *)

Lemma walk_fold (f : gmap path node) (comps : list string) (cur t : path) :
  walk f cur comps = inr t -> t = fold_left step comps cur.
Proof.
  revert cur. induction comps as [| c cs IH]; intros cur H; simpl in *.
  - now injection H as <-.
  - destruct (node_at f cur) as [[| ?] |]; try discriminate. now apply IH.
Qed.

(** Whatever the tree holds, a path that the kernel can locate is located
    where [resolve] says. *)
Lemma locate_resolve (f : gmap path node) (c : path) (p : PurePath) (t : path) :
  locate f c p = inr t -> t = resolve c p.
Proof. unfold locate, resolve. apply walk_fold. Qed.

Lemma resolve_absolute_normal (c q : path) :
  normal q = true -> resolve c (absolute q) = q.
Proof.
  intros Hn. unfold resolve. cbn [anchored parts absolute].
  assert (H : forall cur, fold_left step q cur = cur ++ q).
  { clear c. induction q as [| a q IH]; intros cur; simpl.
    - now rewrite app_nil_r.
    - simpl in Hn. apply andb_true_iff in Hn as [Ha Hq].
      rewrite step_normal_name by exact Ha. rewrite IH by exact Hq.
      now rewrite <- app_assoc. }
  apply H.
Qed.

Lemma Path_no_slash (n : string) :
  Config.contains "/" n = false ->
  Path n = mkPath false (if kept_part n then [n] else []).
Proof.
  intros Hs. unfold Path. rewrite split_slash_no_slash by exact Hs.
  cbn [List.filter]. f_equal.
  destruct n as [| a n]; [reflexivity |].
  cbn [Config.contains] in Hs. apply orb_false_iff in Hs as [Ha _].
  cbn [String.prefix].
  destruct (ascii_dec "/" a) as [<- | Hne]; [| reflexivity].
  now rewrite Ascii.eqb_refl in Ha.
Qed.

Lemma resolve_join_no_slash (c : path) (p : PurePath) (n : string) :
  Config.contains "/" n = false ->
  resolve c (p // n) = step (resolve c p) n.
Proof.
  intros Hs. unfold joinpath. rewrite Path_no_slash by exact Hs.
  cbn [anchored parts]. unfold resolve. cbn [anchored parts].
  unfold step at 1.
  destruct (kept_part n) eqn:Hk.
  - rewrite fold_left_app. reflexivity.
  - rewrite app_nil_r. unfold step.
    destruct (String.eqb n "..") eqn:Hd; [| now rewrite Hk].
    apply String.eqb_eq in Hd. subst n. discriminate.
Qed.


(** ** The path guard *)

Lemma is_within_refl (c : path) (p : PurePath) : is_within c p p = true.
Proof. unfold is_within. now apply bool_decide_eq_true_2. Qed.

Lemma is_within_trans (c : path) (p q r : PurePath) :
  is_within c p q = true -> is_within c q r = true -> is_within c p r = true.
Proof.
  unfold is_within. rewrite !bool_decide_eq_true. intros H1 H2.
  now transitivity (resolve c q).
Qed.


(** ** What a validated configuration can name *)

Lemma step_no_slash_cases (cur : path) (n : string) :
  step cur n = cur ++ [n] \/ step cur n = cur \/ step cur n = removelast cur.
Proof.
  unfold step. destruct (String.eqb n ".."); [auto |].
  destruct (kept_part n); auto.
Qed.

Lemma validated_names_have_no_slash (d : gmap string Config.pyval) (k : string) :
  Config.validate_cfg d = Ok tt -> In k Config.name_keys ->
  exists s, Config.get d k = Config.PyStr s /\ Config.contains "/" s = false.
Proof.
  intros Hv Hk.
  assert (Hn : Forall (fun k => name_accepted (Config.get d k)) Config.name_keys).
  { apply check_names_accepts. revert Hv. unfold Config.validate_cfg.
    destruct (negb _ || _); [discriminate |].
    destruct (_ || _ || _); [discriminate | auto]. }
  rewrite Forall_forall in Hn. apply list_elem_of_In in Hk.
  destruct (Hn k Hk) as (s & Hs & _ & Hsep).
  exists s. split; [exact Hs |].
  unfold Config.has_separator in Hsep. cbn [existsb] in Hsep.
  now apply orb_false_iff in Hsep as [H _].
Qed.

(** X2: After [validate_cfg], the sandbox is the working directory, its
    parent or a direct child of it, and each of the replica directory,
    the hosts root, the marker and the log file is the sandbox, its parent
    or a direct child of it: a validated name moves at most one level. *)
Theorem validated_paths_one_level (d : gmap string Config.pyval) (c : path) :
  Config.validate_cfg d = Ok tt ->
  let cfg := Config.of_dict d in
  let S := resolve c (WormDemo.sandbox cfg) in
  (S = c ++ [Config.sandbox cfg] \/ S = c \/ S = removelast c)
  /\ Forall (fun '(p, n) => resolve c p = S ++ [n] \/ resolve c p = S
                            \/ resolve c p = removelast S)
       [(WormDemo.replicas cfg, Config.replica_dir cfg);
        (WormDemo.hosts_root cfg, Config.hosts_root cfg);
        (WormDemo.marker cfg, Config.marker cfg);
        (WormDemo.log_path cfg, Config.logfile cfg)].
Proof.
  intros Hv cfg S.
  assert (Hns : forall k, In k Config.name_keys ->
            Config.contains "/" (Config.str_value (Config.get d k)) = false).
  { intros k Hk. destruct (validated_names_have_no_slash d k Hv Hk) as (s & -> & Hs).
    exact Hs. }
  split.
  - unfold S, WormDemo.sandbox, cfg. cbn [Config.sandbox Config.of_dict].
    replace (Path (Config.str_value (Config.get d "sandbox")))
      with (mkPath false [] // Config.str_value (Config.get d "sandbox")).
    + rewrite resolve_join_no_slash by (apply Hns; simpl; auto).
      apply step_no_slash_cases.
    + unfold joinpath. rewrite Path_no_slash by (apply Hns; simpl; auto). reflexivity.
  - unfold WormDemo.replicas, WormDemo.hosts_root, WormDemo.marker,
      WormDemo.log_path, cfg.
    cbn [Config.replica_dir Config.hosts_root Config.marker Config.logfile
         Config.of_dict].
    do 4 (constructor;
          [rewrite resolve_join_no_slash by (apply Hns; simpl; auto 10);
           apply step_no_slash_cases |]).
    constructor.
Qed.

(** ** When the guards of [demo] pass *)

Lemma replica_name_kept (idx : Z) : kept_part (WormDemo._replica_name idx) = true.
Proof. reflexivity. Qed.

Lemma step_prefix (S cur : path) (n : string) :
  S `prefix_of` cur -> String.eqb n ".." = false -> S `prefix_of` step cur n.
Proof.
  intros Hp Hd. unfold step. rewrite Hd.
  destruct (kept_part n); [now apply prefix_app_r | exact Hp].
Qed.


Lemma host_name_normal (i : Z) : normal_name ("host_" +:+ pretty i) = true.
Proof. reflexivity. Qed.

Lemma host_name_no_slash (i : Z) : Config.contains "/" ("host_" +:+ pretty i) = false.
Proof. rewrite contains_app, pretty_Z_no_slash. reflexivity. Qed.


(** X6: With [hosts_root = ".."] the hosts lie next to the sandbox: unless the
    sandbox is the root or is itself named like the host, the guard
    rejects the host. *)
Theorem host_guard_rejects_parent (cfg : Config.cfg) (c : path) (i : Z) :
  normal c = true ->
  Config.hosts_root cfg = ".." ->
  normal_name (Config.replica_dir cfg) = true ->
  Config.contains "/" (Config.replica_dir cfg) = false ->
  resolve c (WormDemo.sandbox cfg) <> [] ->
  List.last (resolve c (WormDemo.sandbox cfg)) "" <> "host_" +:+ pretty i ->
  is_within c (absolute (resolve c (WormDemo.host_dir cfg i))) (WormDemo.sandbox cfg)
  = false.
Proof.
  intros Hn Hh Hr Hs HS Hlast. unfold is_within.
  rewrite resolve_absolute_normal by (apply resolve_normal, Hn).
  apply bool_decide_eq_false_2.
  unfold WormDemo.host_dir, WormDemo.hosts_root.
  rewrite (resolve_join_no_slash _ _ _ Hs).
  rewrite (resolve_join_no_slash _ _ _ (host_name_no_slash i)).
  rewrite Hh. rewrite resolve_join_no_slash by reflexivity.
  set (S := resolve c (WormDemo.sandbox cfg)) in *.
  change (step S "..") with (removelast S).
  rewrite (step_normal_name _ _ (host_name_normal i)).
  rewrite (step_normal_name _ _ Hr).
  destruct (exists_last HS) as (S' & a & HS'). rewrite HS' in *.
  rewrite removelast_last. rewrite last_last in Hlast.
  rewrite <- !app_assoc. intros Hp. apply prefix_app_inv in Hp.
  destruct Hp as [k Hk]. simpl in Hk. congruence.
Qed.

(** ** Which exceptions the operations raise *)

Lemma never_raises_only {A} (m : M A) : never_raises m -> raises_only_OSError m.
Proof. intros H w e w' E. destruct (H w) as (a & w1 & Hw). congruence. Qed.

Lemma never_raises_log (level msg : string) : never_raises (log level msg).
Proof. intros w. destruct (log_spec level msg w) as (w' & H & _). eauto. Qed.

Lemma never_raises_print (s : string) : never_raises (print s).
Proof. intros w. unfold print. eauto. Qed.

Lemma never_raises_ret {A} (a : A) : never_raises (ret a).
Proof. intros w. unfold ret. eauto. Qed.

Lemma never_raises_bind {A B} (m : M A) (k : A -> M B) :
  never_raises m -> (forall a, never_raises (k a)) -> never_raises (bind m k).
Proof.
  intros Hm Hk w. unfold bind. destruct (Hm w) as (a & w1 & ->). apply Hk.
Qed.

Lemma only_OSError_bind {A B} (m : M A) (k : A -> M B) :
  raises_only_OSError m -> (forall a, raises_only_OSError (k a)) ->
  raises_only_OSError (bind m k).
Proof.
  intros Hm Hk w e w'. unfold bind.
  destruct (m w) as [[a | e1] w1] eqn:E.
  - apply Hk.
  - intros H. injection H as <- <-. eapply Hm; eauto.
Qed.

Lemma only_OSError_for_each {A} (l : list A) (body : A -> M unit) :
  (forall x, raises_only_OSError (body x)) -> raises_only_OSError (for_each l body).
Proof.
  intros Hb. induction l as [| x l IH]; simpl.
  - apply never_raises_only, never_raises_ret.
  - apply only_OSError_bind; [apply Hb | intros _; exact IH].
Qed.

Lemma only_OSError_when (c : world -> bool) (m : M unit) :
  raises_only_OSError m -> raises_only_OSError (when_ c m).
Proof.
  intros Hm w e w'. unfold when_. destruct (c w); [apply Hm | discriminate].
Qed.

Lemma only_OSError_lift_fs (f : gmap path node -> path -> errno + gmap path node) :
  raises_only_OSError (lift_fs f).
Proof.
  intros w e w'. unfold lift_fs. destruct (f (fs w) (cwd w)); [| discriminate].
  intros H. injection H as <- _. eauto.
Qed.

Lemma only_OSError_os_mkdir (p : PurePath) : raises_only_OSError (os_mkdir p).
Proof. apply only_OSError_lift_fs. Qed.

Lemma only_OSError_mkdir_leaf (p : PurePath) : raises_only_OSError (mkdir_leaf p).
Proof.
  intros w e w'. unfold mkdir_leaf.
  destruct (os_mkdir p w) as [[[] | e1] w1] eqn:E; [discriminate |].
  destruct (only_OSError_os_mkdir p _ _ _ E) as [en ->].
  destruct en; try (intros H; injection H as <- _; eauto);
    destruct (is_dir w1 p); try discriminate; intros H; injection H as <- _; eauto.
Qed.

Lemma only_OSError_mkdir_rev (anch : bool) (rparts : list string) :
  raises_only_OSError (mkdir_rev anch rparts).
Proof.
  induction rparts as [| c rest IH]; intros w e w'; cbn [mkdir_rev];
    destruct (os_mkdir _ w) as [[[] | e1] w1] eqn:E; try discriminate;
    destruct (only_OSError_os_mkdir _ _ _ _ E) as [en ->];
    destruct en;
    try (intros H; injection H as <- _; eauto);
    try (destruct (is_dir w1 _); try discriminate; intros H; injection H as <- _; eauto).
  apply (only_OSError_bind _ _ IH (fun _ => only_OSError_mkdir_leaf _)).
Qed.

Lemma only_OSError_mkdir_parents (p : PurePath) : raises_only_OSError (mkdir_parents p).
Proof. apply only_OSError_mkdir_rev. Qed.

Lemma only_OSError_write_bytes (p : PurePath) (d : list byte) :
  raises_only_OSError (write_bytes p d).
Proof.
  intros w e w'. unfold write_bytes.
  destruct (fs_write true (fs w) (cwd w) p d) as [en | [q f']]; [| discriminate].
  intros H. injection H as <- _. eauto.
Qed.

Lemma only_OSError_read_bytes (p : PurePath) : raises_only_OSError (read_bytes p).
Proof.
  intros w e w'. unfold read_bytes.
  destruct (fs_read (fs w) (cwd w) p); [| discriminate].
  intros H. injection H as <- _. eauto.
Qed.

Lemma only_OSError_sha256 (p : PurePath) : raises_only_OSError (sha256 p).
Proof.
  apply only_OSError_bind; [apply only_OSError_read_bytes |].
  intros c. apply never_raises_only, never_raises_ret.
Qed.

Lemma only_OSError_unlink (p : PurePath) : raises_only_OSError (unlink_missing_ok p).
Proof.
  intros w e w'. unfold unlink_missing_ok.
  destruct (fs_unlink (fs w) (cwd w) p) as [en | [[q |] f']]; try discriminate.
  intros H. injection H as <- _. eauto.
Qed.

Lemma only_OSError_os_replace (src dst : PurePath) :
  raises_only_OSError (os_replace src dst).
Proof.
  intros w e w'. unfold os_replace.
  destruct (fs_replace (fs w) (cwd w) src dst) as [en | [q f']]; [| discriminate].
  intros H. injection H as <- _. eauto.
Qed.

Lemma only_OSError_rmtree (p : PurePath) : raises_only_OSError (rmtree p).
Proof.
  intros w e w'. unfold rmtree.
  destruct (fs_rmtree (fs w) (cwd w) p) as [[en f'] | f']; [| discriminate].
  intros H. injection H as <- _. eauto.
Qed.

Lemma only_OSError_mkstemp (fuel : nat) (d : PurePath) :
  raises_only_OSError (mkstemp fuel d).
Proof.
  induction fuel as [| fuel IH]; intros w e w'; cbn [mkstemp].
  - intros H. injection H as <- _. eauto.
  - destruct (locate (fs w) (cwd w) d) as [en | q].
    + intros H. injection H as <- _. eauto.
    + destruct (node_at (fs w) _); [apply IH |].
      destruct (put (fs w) _ _) as [en | f']; [| discriminate].
      intros H. injection H as <- _. eauto.
Qed.

Lemma only_OSError_FileHandler (p : PurePath) : raises_only_OSError (FileHandler p).
Proof.
  intros w e w'. unfold FileHandler.
  destruct (fs_write false _ _ _ _) as [en | [q f']]; [| discriminate].
  intros H. injection H as <- _. eauto.
Qed.

Lemma only_OSError_atomic_write (src dst : PurePath) :
  raises_only_OSError (WormDemo._atomic_write src dst).
Proof.
  unfold WormDemo._atomic_write, NamedTemporaryFile.
  apply only_OSError_bind; [apply only_OSError_mkdir_parents | intros _].
  apply only_OSError_bind; [apply only_OSError_mkstemp | intros tmp].
  apply only_OSError_bind; [apply only_OSError_read_bytes | intros c].
  apply only_OSError_bind; [apply only_OSError_write_bytes | intros _].
  apply only_OSError_os_replace.
Qed.

(** [except Exception] around a body that raises only [OSError]s, with a
    handler that returns: the whole never raises. *)
Lemma never_raises_except_Exception {A} (m : M A) (h : string -> M A) :
  raises_only_OSError m -> (forall s, never_raises (h s)) ->
  never_raises (except_Exception m h).
Proof.
  intros Hm Hh w. unfold except_Exception.
  destruct (m w) as [[a | e] w1] eqn:E; [eauto |].
  destruct (Hm _ _ _ E) as [en ->]. apply Hh.
Qed.

(** [_payload] never raises: a failed write of the note ends in a
    warning. *)
Lemma never_raises_payload (target_dir : PurePath) :
  never_raises (WormDemo._payload target_dir).
Proof.
  unfold WormDemo._payload. apply never_raises_except_Exception.
  - apply only_OSError_bind; [apply only_OSError_write_bytes | intros _].
    apply never_raises_only, never_raises_log.
  - intros s. apply never_raises_log.
Qed.

(** Building the [WormDemo] object never raises, whatever the
    configuration and the state of the file system: a sandbox that cannot
    be created or a log file that cannot be opened ends in two
    warnings. *)
Lemma never_raises_init_object (cfg : Config.cfg) :
  never_raises (WormDemo.__init__ cfg).
Proof.
  unfold WormDemo.__init__, WormDemo._attach_file_logger.
  apply never_raises_except_Exception.
  - apply only_OSError_bind; [apply only_OSError_mkdir_parents | intros _].
    apply only_OSError_when.
    apply only_OSError_bind; [apply only_OSError_FileHandler | intros _].
    apply never_raises_only, never_raises_log.
  - intros s. apply never_raises_bind; [apply never_raises_log | intros _].
    apply never_raises_log.
Qed.

(** ** The exit status of each command *)

Lemma log_then_exit (level msg : string) (n : Z) (w : world) :
  fst ((log level msg ;; sys_exit (A := unit) n) w) = Raise (SystemExit n).
Proof.
  unfold bind. destruct (log_spec level msg w) as (w' & -> & _). reflexivity.
Qed.

Lemma except_OSError_outcome (m : M unit) (msg : errno -> string) (n : Z) (w : world) :
  raises_only_OSError m ->
  fst (except_OSError m (fun e => logger_error (msg e) ;; sys_exit n) w) = Ok tt
  \/ fst (except_OSError m (fun e => logger_error (msg e) ;; sys_exit n) w)
     = Raise (SystemExit n).
Proof.
  intros Hm. unfold except_OSError.
  destruct (m w) as [[[] | e] w1] eqn:E; [now left |].
  destruct (Hm _ _ _ E) as [en ->]. right. apply log_then_exit.
Qed.

Lemma only_OSError_payload_if (b : bool) (d : PurePath) :
  raises_only_OSError (if b then WormDemo._payload d else ret tt).
Proof.
  destruct b; apply never_raises_only;
    [apply never_raises_payload | apply never_raises_ret].
Qed.

Lemma only_OSError_spread_host (cfg : Config.cfg) (idx : Z) (data : list byte)
  (payload : bool) (i : Z) :
  raises_only_OSError (WormDemo.spread_host cfg idx data payload i).
Proof.
  intros w e w'. unfold WormDemo.spread_host.
  destruct (negb _).
  - apply (never_raises_only _ (never_raises_log _ _)).
  - refine (only_OSError_bind _ _ _ _ w e w');
      [apply only_OSError_write_bytes | intros _].
    apply only_OSError_bind; [apply only_OSError_atomic_write | intros _].
    apply only_OSError_bind; [apply only_OSError_unlink | intros _].
    apply only_OSError_bind; [apply never_raises_only, never_raises_log | intros _].
    apply only_OSError_payload_if.
Qed.

Lemma only_OSError_replicate (cfg : Config.cfg) (polymorph simulate_spread payload : bool)
  (token idx : Z) (src dst : PurePath) :
  raises_only_OSError
    (WormDemo.replicate cfg polymorph simulate_spread payload token idx src dst).
Proof.
  unfold WormDemo.replicate, WormDemo.write_primary, WormDemo.spread.
  apply only_OSError_bind.
  - apply only_OSError_bind; [apply only_OSError_read_bytes | intros base].
    apply only_OSError_bind; [apply only_OSError_write_bytes | intros _].
    apply only_OSError_bind; [apply only_OSError_atomic_write | intros _].
    apply only_OSError_bind; [apply only_OSError_unlink | intros _].
    apply only_OSError_bind; [apply never_raises_only, never_raises_log | intros _].
    apply only_OSError_bind; [apply only_OSError_sha256 | intros h1].
    apply only_OSError_bind; [apply only_OSError_sha256 | intros h2].
    apply only_OSError_bind; [apply never_raises_only, never_raises_log | intros _].
    apply only_OSError_bind; [apply only_OSError_payload_if | intros _].
    apply never_raises_only, never_raises_ret.
  - intros data. destruct (_ && _).
    + apply only_OSError_for_each. intros i. apply only_OSError_spread_host.
    + apply never_raises_only, never_raises_ret.
Qed.

(** With file operations that raise nothing but [OSError], [demo] ends
    in one of three ways: a normal return, exit status 2 (no sandbox) or
    exit status 4 (an [OSError] while replicating). *)
Lemma demo_outcome_cases (cfg : Config.cfg) (polymorph simulate_spread payload : bool)
  (token : Z) (w : world) :
  let r := fst (WormDemo.demo cfg polymorph simulate_spread payload token w) in
  r = Ok tt \/ r = Raise (SystemExit 2) \/ r = Raise (SystemExit 4).
Proof.
  cbv zeta. unfold WormDemo.demo.
  destruct (negb _).
  - right. left. apply log_then_exit.
  - destruct (exists_ w (WormDemo.marker cfg)).
    + left. unfold logger_info.
      destruct (log_spec "INFO" "STOP present; replication blocked." w) as (w' & -> & _).
      reflexivity.
    + unfold WormDemo.replication_failed.
      match goal with
      | |- context [except_OSError ?m _ w] =>
          destruct (except_OSError_outcome m
                      (fun e => "Replication failed: " +:+ errno_name e) 4 w)
            as [H | H]
      end; [| now left | now right; right].
      intros w1 e w'. cbv beta zeta.
      destruct (is_within _ _ _).
      * apply only_OSError_replicate.
      * apply (never_raises_only _ (never_raises_log _ _)).
Qed.

(** [init] returns normally or ends with exit status 1. *)
Lemma init_outcome_cases (cfg : Config.cfg) (colorama : bool) (w : world) :
  let r := fst (WormDemo.init cfg colorama w) in
  r = Ok tt \/ r = Raise (SystemExit 1).
Proof.
  cbv zeta. unfold WormDemo.init.
  apply (except_OSError_outcome _ (fun e => "Init failed: " +:+ errno_name e) 1 w).
  apply only_OSError_bind; [apply only_OSError_mkdir_parents | intros _].
  apply only_OSError_bind;
    [intros w1 e w'; apply only_OSError_write_bytes | intros _].
  apply only_OSError_bind;
    [apply only_OSError_when, only_OSError_write_bytes | intros _].
  apply only_OSError_bind; [apply only_OSError_mkdir_parents | intros _].
  apply only_OSError_bind;
    [apply only_OSError_for_each; intros i; apply only_OSError_mkdir_parents
    | intros _].
  apply never_raises_only, never_raises_log.
Qed.

(** [cleanup] returns normally or ends with exit status 5. *)
Lemma cleanup_outcome_cases (cfg : Config.cfg) (w : world) :
  let r := fst (WormDemo.cleanup cfg w) in
  r = Ok tt \/ r = Raise (SystemExit 5).
Proof.
  cbv zeta. unfold WormDemo.cleanup.
  apply (except_OSError_outcome _ (fun e => "Cleanup failed: " +:+ errno_name e) 5 w).
  apply only_OSError_bind; [apply only_OSError_write_bytes | intros _].
  apply only_OSError_bind; [apply only_OSError_when, only_OSError_rmtree | intros _].
  apply only_OSError_bind.
  - apply only_OSError_when.
    apply only_OSError_bind; [apply only_OSError_rmtree | intros _].
    apply only_OSError_mkdir_parents.
  - intros _. apply never_raises_only, never_raises_log.
Qed.

(** [status] has no handler: it returns normally or lets an [OSError]
    escape (reading a replica entry that is not a regular file). *)
Lemma only_OSError_status (cfg : Config.cfg) (colorama : bool) :
  raises_only_OSError (WormDemo.status cfg colorama).
Proof.
  intros w e w'. unfold WormDemo.status.
  destruct (negb _); [apply (never_raises_only _ (never_raises_print _)) |].
  destruct colorama.
  - refine (only_OSError_bind _ _ _ _ w e w');
      [apply never_raises_only, never_raises_print | intros _].
    apply only_OSError_bind; [apply never_raises_only, never_raises_print | intros _].
    apply never_raises_only, never_raises_print.
  - refine (only_OSError_bind _ _ _ _ w e w');
      [apply never_raises_only, never_raises_print | intros _].
    do 4 (apply only_OSError_bind;
          [apply never_raises_only, never_raises_print | intros _]).
    apply only_OSError_bind.
    + apply only_OSError_for_each. intros c.
      apply only_OSError_bind; [apply only_OSError_sha256 | intros h].
      apply never_raises_only, never_raises_print.
    + intros _. unfold WormDemo.status_hosts. apply only_OSError_when.
      intros w1 e1 w1'.
      refine (only_OSError_bind _ _ _ _ w1 e1 w1');
        [apply never_raises_only, never_raises_print | intros _].
      apply only_OSError_for_each. intros h w2.
      apply (never_raises_only _ (never_raises_print _)).
Qed.

(** [validate_cfg] raises nothing but [ValueError]. *)
Lemma validate_cfg_raises_ValueError (d : gmap string Config.pyval) (e : exn) :
  Config.validate_cfg d = Raise e -> exists msg, e = ValueError msg.
Proof.
  unfold Config.validate_cfg.
  destruct (negb _ || _); [intros H; injection H as <-; eauto |].
  destruct (_ || _ || _); [intros H; injection H as <-; eauto |].
  generalize Config.name_keys. intros l.
  induction l as [| k l IH]; cbn [Config.check_names]; [discriminate |].
  unfold Config.check_name at 1.
  destruct (_ || _); [intros H; injection H as <-; eauto |].
  destruct (Config.has_separator _); [intros H; injection H as <-; eauto |].
  exact IH.
Qed.

(** X9: How a process ends, command by command.  A rejected configuration
    ends every command with [sys.exit(10)].  Otherwise the only statuses
    passed to [sys.exit] are 1 by [--init], 2 and 4 by [--demo] and 5 by
    [--cleanup]; [--status] never calls it; any other ending is a normal
    return or an exception that escapes (status 1); and a process without
    a command returns normally. *)
Theorem run_sys_exit_statuses (CFG : gmap string Config.pyval) (colorama : bool)
  (args : command) (token : Z) (w : world) :
  let r := fst (run CFG colorama args token w) in
  match Config.validate_cfg CFG with
  | Raise _ => r = Raise (SystemExit 10)
  | Ok _ =>
      match args with
      | CmdInit => r = Ok tt \/ r = Raise (SystemExit 1) \/ escapes r
      | CmdDemo _ _ _ =>
          r = Ok tt \/ r = Raise (SystemExit 2) \/ r = Raise (SystemExit 4)
          \/ escapes r
      | CmdStatus => r = Ok tt \/ escapes r
      | CmdCleanup => r = Ok tt \/ r = Raise (SystemExit 5) \/ escapes r
      | CmdNone => r = Ok tt
      end
  end.
Proof.
  cbv zeta. unfold run, main.
  destruct (Config.validate_cfg CFG) as [[] | e] eqn:Hv.
  - destruct (never_raises_init_object (Config.of_dict CFG) (fresh_process w))
      as ([] & w1 & Hinit).
    assert (Hrun : forall k : M unit,
               fst ((WormDemo.__init__ (Config.of_dict CFG) ;; k) (fresh_process w))
               = fst (k w1)).
    { intros k. unfold bind. now rewrite Hinit. }
    destruct args as [| pm sp pl | | |]; rewrite !Hrun.
    + destruct (init_outcome_cases (Config.of_dict CFG) colorama w1) as [-> | ->];
        auto.
    + destruct (demo_outcome_cases (Config.of_dict CFG) pm sp pl token w1)
        as [-> | [-> | ->]]; auto.
    + destruct (WormDemo.status (Config.of_dict CFG) colorama w1)
        as [[[] | e] w2] eqn:E; [now left |].
      destruct (only_OSError_status _ _ _ _ _ E) as [en ->]. right.
      eexists. split; [reflexivity | discriminate].
    + destruct (cleanup_outcome_cases (Config.of_dict CFG) w1) as [-> | ->];
        auto.
    + unfold bind, print. reflexivity.
  - destruct (validate_cfg_raises_ValueError _ _ Hv) as [msg ->].
    unfold logger_error. apply log_then_exit.
Qed.

(** ** What [init] leaves behind *)

Lemma extends_refl (f : gmap path node) : extends f f.
Proof. split; [auto | intros p; auto]. Qed.

Lemma extends_trans (f g h : gmap path node) :
  extends f g -> extends g h -> extends f h.
Proof. intros [A1 A2] [B1 B2]. split; [auto | intros p Hp; auto]. Qed.

Lemma subseteq_extends (f f' : gmap path node) : f ⊆ f' -> extends f f'.
Proof.
  intros Hs. split; [| now apply subseteq_dirs_kept].
  intros p [n Hn]. exists n. eapply lookup_weaken; eauto.
Qed.

Lemma insert_file_extends (f : gmap path node) (q : path) (c : list byte) :
  node_at f q <> Some Dir -> extends f (<[q := File c]> f).
Proof.
  intros Hq. split; [| now apply insert_file_dirs_kept].
  intros p Hp. destruct (decide (p = q)) as [-> | Hne].
  - rewrite lookup_insert_eq. eauto.
  - now rewrite lookup_insert_ne.
Qed.

Lemma stat_extends (f f' : gmap path node) (c : path) (p : PurePath) (q : path) (n : node) :
  extends f f' -> stat f c p = inr (q, n) ->
  exists n', stat f' c p = inr (q, n') /\ (n = Dir -> n' = Dir).
Proof.
  intros [He Hd]. unfold stat, locate.
  destruct (walk f _ _) as [e | t] eqn:Hw; [discriminate |].
  rewrite (walk_mono _ _ _ _ _ Hd Hw).
  destruct (node_at f t) as [m |] eqn:Hn; [| discriminate].
  intros [= -> ->].
  destruct q as [| a q].
  - cbn in *. injection Hn as <-. eauto.
  - cbn [node_at] in *. destruct (He (a :: q)) as [n' Hn']; [eauto |].
    rewrite Hn'. exists n'. split; [reflexivity |].
    intros ->. specialize (Hd (a :: q) Hn). cbn in Hd. congruence.
Qed.

Lemma exists_extends (w w' : world) (p : PurePath) :
  cwd w' = cwd w -> extends (fs w) (fs w') ->
  exists_ w p = true -> exists_ w' p = true.
Proof.
  intros Hc He. unfold exists_. rewrite Hc.
  destruct (stat (fs w) (cwd w) p) as [e | [q n]] eqn:Hs; [discriminate |].
  destruct (stat_extends _ _ _ _ _ _ He Hs) as (n' & -> & _). reflexivity.
Qed.

Lemma is_dir_extends (w w' : world) (p : PurePath) :
  cwd w' = cwd w -> extends (fs w) (fs w') ->
  is_dir w p = true -> is_dir w' p = true.
Proof.
  intros Hc He. unfold is_dir. rewrite Hc.
  destruct (stat (fs w) (cwd w) p) as [e | [q [| c]]] eqn:Hs; try discriminate.
  destruct (stat_extends _ _ _ _ _ _ He Hs) as (n' & -> & Hn).
  now rewrite Hn.
Qed.

Lemma keeps_entries_ret {A} (a : A) : keeps_entries (ret a).
Proof. intros w r w' [= <- <-]. split; [reflexivity | apply extends_refl]. Qed.

Lemma keeps_entries_bind {A B} (m : M A) (k : A -> M B) :
  keeps_entries m -> (forall a, keeps_entries (k a)) -> keeps_entries (bind m k).
Proof.
  intros Hm Hk w r w'. unfold bind.
  destruct (m w) as [[a | e] w1] eqn:E; intros H.
  - destruct (Hm _ _ _ E) as [C1 E1], (Hk a _ _ _ H) as [C2 E2].
    split; [congruence | eapply extends_trans; eauto].
  - injection H as <- <-. eapply Hm; eauto.
Qed.

Lemma keeps_entries_grows {A} (m : M A) : grows m -> keeps_entries m.
Proof.
  intros Hm w r w' H. destruct (Hm _ _ _ H) as (C & _ & S).
  split; [exact C | now apply subseteq_extends].
Qed.

Lemma keeps_entries_when (c : world -> bool) (m : M unit) :
  keeps_entries m -> keeps_entries (when_ c m).
Proof.
  intros Hm w r w'. unfold when_. destruct (c w); [apply Hm |].
  intros [= <- <-]. split; [reflexivity | apply extends_refl].
Qed.

Lemma keeps_entries_for_each {A} (l : list A) (body : A -> M unit) :
  (forall a, keeps_entries (body a)) -> keeps_entries (for_each l body).
Proof.
  intros Hb. induction l as [| a l IH]; cbn [for_each].
  - apply keeps_entries_ret.
  - apply keeps_entries_bind; [apply Hb | intros _; exact IH].
Qed.

Lemma keeps_entries_write_bytes (p : PurePath) (d : list byte) :
  keeps_entries (write_bytes p d).
Proof.
  intros w [[] | e] w' H.
  - destruct (write_bytes_ok _ _ _ _ H) as (q & _ & _ & Hq & ->).
    split; [reflexivity | now apply insert_file_extends].
  - apply write_bytes_raise in H as ->. split; [reflexivity | apply extends_refl].
Qed.

Lemma keeps_entries_log (level msg : string) : keeps_entries (log level msg).
Proof.
  intros w r w' H.
  destruct (log_spec level msg w) as (w1 & E & C & _ & _ & _ & _ & _ & _ & _ & Hs & Hd).
  rewrite E in H. injection H as <- <-.
  split; [exact C |]. split; [intros p; apply Hs |].
  intros [| a p]; [auto |]. cbn [node_at]. apply Hd.
Qed.

Lemma os_mkdir_ok_is_dir (p : PurePath) (w w' : world) :
  os_mkdir p w = (Ok tt, w') -> is_dir w' p = true.
Proof.
  unfold os_mkdir, lift_fs, fs_mkdir, is_dir, stat.
  destruct (locate (fs w) (cwd w) p) as [e | q] eqn:Hl; [discriminate |].
  destruct (node_at (fs w) q) eqn:Hn; [discriminate |].
  destruct (put (fs w) q Dir) as [e | f'] eqn:Hp; [discriminate |].
  intros [= <-]. cbn [fs cwd set_fs].
  pose proof (put_grows _ _ _ _ Hn Hp) as Hs.
  unfold locate in *.
  rewrite (walk_mono _ _ _ _ _ (subseteq_dirs_kept _ _ Hs) Hl).
  unfold put in Hp. destruct q as [| a q]; [discriminate |].
  destruct (node_at (fs w) (removelast (a :: q))) as [[| c] |]; try discriminate.
  injection Hp as <-. cbn [node_at]. now rewrite lookup_insert_eq.
Qed.

Lemma mkdir_leaf_ok_is_dir (p : PurePath) (w w' : world) :
  mkdir_leaf p w = (Ok tt, w') -> is_dir w' p = true.
Proof.
  unfold mkdir_leaf.
  destruct (os_mkdir p w) as [[[] | [m | e | n]] w1] eqn:E; try discriminate.
  - intros [= <-]. eapply os_mkdir_ok_is_dir; eauto.
  - destruct e; try discriminate;
      (destruct (is_dir w1 p) eqn:Hd; [intros [= <-]; exact Hd | discriminate]).
Qed.

Lemma mkdir_rev_ok_is_dir (anch : bool) (rparts : list string) (w w' : world) :
  mkdir_rev anch rparts w = (Ok tt, w') ->
  is_dir w' (mkPath anch (rev rparts)) = true.
Proof.
  destruct rparts as [| a rest]; cbn [mkdir_rev];
    destruct (os_mkdir _ w) as [[[] | [m | e | n]] w1] eqn:E; try discriminate;
    try (intros [= <-]; eapply os_mkdir_ok_is_dir; eauto; fail).
  - destruct e; try discriminate;
      (destruct (is_dir w1 _) eqn:Hd; [intros [= <-]; exact Hd | discriminate]).
  - destruct e.
    + unfold bind. destruct (mkdir_rev anch rest w1) as [[[] | e] w2]; [| discriminate].
      apply mkdir_leaf_ok_is_dir.
    + destruct (is_dir w1 _) eqn:Hd; [intros [= <-]; exact Hd | discriminate].
    + destruct (is_dir w1 _) eqn:Hd; [intros [= <-]; exact Hd | discriminate].
    + destruct (is_dir w1 _) eqn:Hd; [intros [= <-]; exact Hd | discriminate].
    + destruct (is_dir w1 _) eqn:Hd; [intros [= <-]; exact Hd | discriminate].
    + destruct (is_dir w1 _) eqn:Hd; [intros [= <-]; exact Hd | discriminate].
Qed.

(** [p.mkdir(parents=True, exist_ok=True)] returns only when [p] is a
    directory afterwards. *)
Lemma mkdir_parents_ok_is_dir (p : PurePath) (w w' : world) :
  mkdir_parents p w = (Ok tt, w') -> is_dir w' p = true.
Proof.
  unfold mkdir_parents. intros H. apply mkdir_rev_ok_is_dir in H.
  rewrite rev_involutive in H. now destruct p.
Qed.

Lemma write_bytes_ok_exists (p : PurePath) (d : list byte) (w w' : world) :
  write_bytes p d w = (Ok tt, w') -> exists_ w' p = true.
Proof.
  intros H. apply write_then_read in H. unfold exists_, fs_read in *.
  destruct (stat (fs w') (cwd w') p); [discriminate | reflexivity].
Qed.

(** The steps of [init] inside its [try]. *)
Lemma init_ok_inv (cfg : Config.cfg) (colorama : bool) (w w' : world) :
  WormDemo.init cfg colorama w = (Ok tt, w') ->
  exists w1 w2 w3 w4,
    mkdir_parents (WormDemo.sandbox cfg) w = (Ok tt, w1)
    /\ write_text (WormDemo.sandbox cfg // "manifest.json")
         (WormDemo.manifest cfg (asctime w1)) w1 = (Ok tt, w2)
    /\ when_ (fun w => negb (exists_ w (WormDemo.marker cfg)))
         (write_text (WormDemo.marker cfg)
            ("This STOP file prevents replication. Remove it to allow up to "
             +:+ pretty (Config.limit cfg) +:+ " harmless copies." +:+ NL)) w2
       = (Ok tt, w3)
    /\ (mkdir_parents (WormDemo.hosts_root cfg) ;;
        for_each (range1 (Config.host_count cfg))
          (fun i => mkdir_parents (WormDemo.host_dir cfg i))) w3 = (Ok tt, w4)
    /\ logger_info ("Sandbox ready at ./" +:+ str (WormDemo.sandbox cfg) +:+ ". "
                    +:+ WormDemo.C_OK colorama +:+ "STOP present."
                    +:+ WormDemo.C_RST colorama) w4 = (Ok tt, w').
Proof.
  unfold WormDemo.init, except_OSError.
  match goal with |- context [match ?m w with _ => _ end] =>
    destruct (m w) as [[[] | e] wf] eqn:E end.
  - intros [= <-]. revert E. unfold bind at 1.
    destruct (mkdir_parents _ w) as [[[] | e] w1] eqn:E1; [| discriminate].
    unfold bind at 1.
    destruct (write_text _ _ w1) as [[[] | e] w2] eqn:E2; [| discriminate].
    unfold bind at 1.
    destruct (when_ _ _ w2) as [[[] | e] w3] eqn:E3; [| discriminate].
    unfold bind at 1.
    destruct (mkdir_parents _ w3) as [[[] | e] w4] eqn:E4; [| discriminate].
    unfold bind at 1.
    destruct (for_each _ _ w4) as [[[] | e] w5] eqn:E5; [| discriminate].
    intros E6. exists w1, w2, w3, w5. repeat split; try assumption.
    unfold bind. now rewrite E4, E5.
  - destruct e as [m | e | n]; discriminate.
Qed.

Lemma keeps_entries_init_hosts (cfg : Config.cfg) :
  keeps_entries
    (mkdir_parents (WormDemo.hosts_root cfg) ;;
     for_each (range1 (Config.host_count cfg))
       (fun i => mkdir_parents (WormDemo.host_dir cfg i))).
Proof.
  apply keeps_entries_bind;
    [apply keeps_entries_grows, grows_mkdir_parents | intros _].
  apply keeps_entries_for_each. intros i.
  apply keeps_entries_grows, grows_mkdir_parents.
Qed.

(** After a successful [init] the sandbox is a directory and the STOP file
    exists. *)
Lemma init_ok_post (cfg : Config.cfg) (colorama : bool) (w w' : world) :
  WormDemo.init cfg colorama w = (Ok tt, w') ->
  is_dir w' (WormDemo.sandbox cfg) = true
  /\ exists_ w' (WormDemo.marker cfg) = true.
Proof.
  intros H. apply init_ok_inv in H as (w1 & w2 & w3 & w4 & E1 & E2 & E3 & E4 & E5).
  pose proof (mkdir_parents_ok_is_dir _ _ _ E1) as D1.
  destruct (keeps_entries_write_bytes _ _ _ _ _ E2) as [C2 X2].
  assert (K3 : keeps_entries
            (when_ (fun w => negb (exists_ w (WormDemo.marker cfg)))
               (write_text (WormDemo.marker cfg)
                  ("This STOP file prevents replication. Remove it to allow up to "
                   +:+ pretty (Config.limit cfg) +:+ " harmless copies." +:+ NL))))
    by apply keeps_entries_when, keeps_entries_write_bytes.
  destruct (K3 _ _ _ E3) as [C3 X3].
  destruct (keeps_entries_init_hosts cfg _ _ _ E4) as [C4 X4].
  destruct (keeps_entries_log _ _ _ _ _ E5) as [C5 X5].
  assert (M3 : exists_ w3 (WormDemo.marker cfg) = true).
  { revert E3. unfold when_.
    destruct (exists_ w2 (WormDemo.marker cfg)) eqn:Hm; cbn [negb].
    - now intros [= <-].
    - apply write_bytes_ok_exists. }
  split.
  - eapply is_dir_extends; [exact C5 | exact X5 |].
    eapply is_dir_extends; [exact C4 | exact X4 |].
    eapply is_dir_extends; [exact C3 | exact X3 |].
    eapply is_dir_extends; [exact C2 | exact X2 | exact D1].
  - eapply exists_extends; [exact C5 | exact X5 |].
    eapply exists_extends; [exact C4 | exact X4 | exact M3].
Qed.

(** A [demo] that finds the STOP file returns at once. *)
Lemma demo_blocked (cfg : Config.cfg) (pm sp pl : bool) (token : Z) (w : world) :
  exists_ w (WormDemo.sandbox cfg) = true ->
  exists_ w (WormDemo.marker cfg) = true ->
  WormDemo.demo cfg pm sp pl token w
  = logger_info "STOP present; replication blocked." w.
Proof.
  intros Hs Hm. unfold WormDemo.demo. rewrite Hs, Hm. reflexivity.
Qed.

(** X11: Whatever the flags, a [demo] that follows a successful [init] copies
    nothing: it returns normally, prints that replication is blocked, and
    the only files that change are the attached log files. *)
Theorem init_then_demo_is_blocked (cfg : Config.cfg) (colorama pm sp pl : bool)
  (token : Z) (w w1 : world) :
  WormDemo.init cfg colorama w = (Ok tt, w1) ->
  exists w2,
    WormDemo.demo cfg pm sp pl token w1 = (Ok tt, w2)
    /\ stdout w2 = stdout w1 ++ ["[INFO] STOP present; replication blocked."]
    /\ forall p, p ∉ handlers w1 -> fs w2 !! p = fs w1 !! p.
Proof.
  intros H. apply init_ok_post in H as [Hd Hm].
  rewrite (demo_blocked _ _ _ _ _ _ (exists_is_dir _ _ Hd) Hm).
  unfold logger_info.
  destruct (log_spec "INFO" "STOP present; replication blocked." w1)
    as (w2 & E & _ & _ & _ & _ & _ & _ & Ho & Hf & _).
  exists w2. repeat split; assumption.
Qed.

(** ** The sandbox must exist (C4) *)

(** C4: whenever the sandbox directory does not exist when [demo] is
    called, the call ends with the not-initialised error, whatever its
    options and token: it logs [Sandbox not initialized. Run --init first.]
    and leaves with [sys.exit(2)], a status [demo] uses for nothing else
    (lemma [demo_exit_2_only_without_sandbox]).  Nothing is replicated: no entry of the file system is
    created or deleted, no directory changes, and only the attached log
    files can change.  Running [init] repairs it: after an [init] that
    returns normally the same call no longer fails. *)
Theorem C4_demo_without_sandbox_is_not_initialized
  (cfg : Config.cfg) (polymorph simulate_spread payload : bool) (token : Z) (w : world) :
  exists_ w (WormDemo.sandbox cfg) = false ->
  exists w',
    WormDemo.demo cfg polymorph simulate_spread payload token w
    = (Raise (SystemExit 2), w')
    /\ stdout w' = stdout w ++ ["[ERROR] Sandbox not initialized. Run --init first."]
    /\ handlers w' = handlers w
    /\ (forall p, p ∉ handlers w -> fs w' !! p = fs w !! p)
    /\ (forall p, is_Some (fs w' !! p) <-> is_Some (fs w !! p))
    /\ (forall p, fs w' !! p = Some Dir <-> fs w !! p = Some Dir)
    /\ (forall colorama w1,
          WormDemo.init cfg colorama w' = (Ok tt, w1) ->
          exists_ w1 (WormDemo.sandbox cfg) = true
          /\ fst (WormDemo.demo cfg polymorph simulate_spread payload token w1) = Ok tt).
Proof.
  intros Hs. unfold WormDemo.demo at 1. rewrite Hs. cbn [negb].
  destruct (log_spec "ERROR" "Sandbox not initialized. Run --init first." w)
    as (w' & Hrun & _ & _ & Hh & _ & _ & _ & Hout & Hframe & Hsome & Hdir).
  exists w'. unfold logger_error, bind. rewrite Hrun. cbn [sys_exit].
  do 6 (split; [assumption || reflexivity |]).
  intros colorama w1 Hi. apply init_ok_post in Hi as [Hd Hm].
  split; [now apply exists_is_dir |].
  rewrite (demo_blocked _ _ _ _ _ _ (exists_is_dir _ _ Hd) Hm).
  unfold logger_info.
  destruct (log_spec "INFO" "STOP present; replication blocked." w1) as (w2 & -> & _).
  reflexivity.
Qed.

(** Status 2 belongs to this error alone: [demo] leaves with
    [sys.exit(2)] only when the sandbox directory is missing. *)
Lemma demo_exit_2_only_without_sandbox
  (cfg : Config.cfg) (polymorph simulate_spread payload : bool) (token : Z) (w : world) :
  fst (WormDemo.demo cfg polymorph simulate_spread payload token w)
  = Raise (SystemExit 2) ->
  exists_ w (WormDemo.sandbox cfg) = false.
Proof.
  unfold WormDemo.demo.
  destruct (exists_ w (WormDemo.sandbox cfg)); [| reflexivity]. cbn [negb].
  destruct (exists_ w (WormDemo.marker cfg)).
  - unfold logger_info.
    destruct (log_spec "INFO" "STOP present; replication blocked." w) as (w' & -> & _).
    discriminate.
  - unfold WormDemo.replication_failed.
    match goal with
    | |- context [except_OSError ?m _ w] =>
        destruct (except_OSError_outcome m
                    (fun e => "Replication failed: " +:+ errno_name e) 4 w)
          as [H | H]
    end; [| rewrite H; discriminate | rewrite H; discriminate].
    intros w1 e w'. cbv beta zeta.
    destruct (is_within _ _ _).
    + apply only_OSError_replicate.
    + apply (never_raises_only _ (never_raises_log _ _)).
Qed.

(** The state of C4 is reached by a whole process: started in a working
    directory that has been removed together with the directory above
    it, [__init__] cannot create the sandbox directory, and [--demo] ends
    with status 2 and changes nothing. *)
Lemma not_initialized_is_reached_by_a_run :
  exists_ (snd (WormDemo.__init__ Config.CFG (fresh_process w_no_cwd)))
    (WormDemo.sandbox Config.CFG) = false
  /\ fst (run CFG_dict false (CmdDemo false false false) 0 w_no_cwd)
     = Raise (SystemExit 2)
  /\ fs (snd (run CFG_dict false (CmdDemo false false false) 0 w_no_cwd))
     = fs w_no_cwd
  /\ In "[ERROR] Sandbox not initialized. Run --init first."
        (stdout (snd (run CFG_dict false (CmdDemo false false false) 0 w_no_cwd))).
Proof.
  split; [vm_compute; reflexivity |].
  split; [vm_compute; reflexivity |].
  split; [vm_compute; reflexivity |].
  vm_compute. auto.
Qed.

Lemma fs_read_same (f f' : gmap path node) (c : path) (p : PurePath)
  (t : path) (d : list byte) :
  dirs_kept f f' -> locate f c p = inr t -> f' !! t = f !! t ->
  fs_read f c p = inr d -> fs_read f' c p = inr d.
Proof.
  intros Hd Hl Ht. unfold fs_read, stat. rewrite Hl.
  unfold locate in *. rewrite (walk_mono _ _ _ _ _ Hd Hl).
  destruct t as [| a t]; [auto |]. cbn [node_at]. now rewrite Ht.
Qed.

Lemma fs_read_located (f : gmap path node) (c : path) (p : PurePath) (d : list byte) :
  fs_read f c p = inr d -> locate f c p = inr (resolve c p).
Proof.
  unfold fs_read, stat.
  destruct (locate f c p) as [e | t] eqn:Hl; [discriminate |].
  intros _. now rewrite (locate_resolve _ _ _ _ Hl).
Qed.

Lemma write_bytes_handlers (p : PurePath) (d : list byte) (w : world) (r : res unit)
  (w' : world) :
  write_bytes p d w = (r, w') -> handlers w' = handlers w.
Proof.
  destruct r as [[] | e]; intros H.
  - destruct (write_bytes_ok _ _ _ _ H) as (q & _ & _ & _ & ->). reflexivity.
  - now apply write_bytes_raise in H as ->.
Qed.

(** X12: [init] writes the STOP file only when there is none: a STOP file that
    is there already keeps its content, provided it is neither the
    manifest nor an attached log file. *)
Theorem init_keeps_existing_marker (cfg : Config.cfg) (colorama : bool)
  (w w' : world) (c : list byte) :
  fs_read (fs w) (cwd w) (WormDemo.marker cfg) = inr c ->
  resolve (cwd w) (WormDemo.marker cfg)
    <> resolve (cwd w) (WormDemo.sandbox cfg // "manifest.json") ->
  (resolve (cwd w) (WormDemo.marker cfg) ∉ handlers w) ->
  WormDemo.init cfg colorama w = (Ok tt, w') ->
  fs_read (fs w') (cwd w') (WormDemo.marker cfg) = inr c.
Proof.
  intros Hr Hne Hh H.
  apply init_ok_inv in H as (w1 & w2 & w3 & w4 & E1 & E2 & E3 & E4 & E5).
  set (t := resolve (cwd w) (WormDemo.marker cfg)) in *.
  (* the sandbox directory *)
  destruct (grows_mkdir_parents _ _ _ _ E1) as (C1 & H1 & S1).
  pose proof (fs_read_mono _ _ _ _ _ S1 Hr) as R1. rewrite <- C1 in R1.
  (* the manifest *)
  assert (R2 : fs_read (fs w2) (cwd w2) (WormDemo.marker cfg) = inr c
               /\ cwd w2 = cwd w1 /\ handlers w2 = handlers w1).
  { pose proof (write_bytes_handlers _ _ _ _ _ E2) as H2.
    destruct (write_bytes_ok _ _ _ _ E2) as (q & Hq & _ & Hnd & ->).
    cbn [fs cwd handlers set_fs] in *. repeat split; try reflexivity.
    apply locate_resolve in Hq. rewrite C1 in Hq.
    eapply fs_read_same; [now apply insert_file_dirs_kept | | | exact R1].
    - apply (fs_read_located _ _ _ _ R1).
    - rewrite C1. fold t. apply lookup_insert_ne. congruence. }
  destruct R2 as (R2 & C2 & H2).
  (* the STOP file is there: nothing is written *)
  assert (E : w3 = w2).
  { revert E3. unfold when_, exists_, fs_read in *.
    destruct (stat (fs w2) (cwd w2) (WormDemo.marker cfg)); [discriminate |].
    now intros [= <-]. }
  subst w3.
  (* the mock hosts *)
  assert (G4 : grows (mkdir_parents (WormDemo.hosts_root cfg) ;;
                      for_each (range1 (Config.host_count cfg))
                        (fun i => mkdir_parents (WormDemo.host_dir cfg i)))).
  { apply grows_bind; [apply grows_mkdir_parents | intros _].
    generalize (range1 (Config.host_count cfg)). intros l.
    induction l as [| i l IH]; cbn [for_each].
    - intros w0 r w0' [= <- <-]. repeat split; reflexivity.
    - apply grows_bind; [apply grows_mkdir_parents | intros _; exact IH]. }
  destruct (G4 _ _ _ E4) as (C4 & H4 & S4).
  pose proof (fs_read_mono _ _ _ _ _ S4 R2) as R4. rewrite <- C4 in R4.
  (* the log line *)
  unfold logger_info in E5.
  match type of E5 with log ?l ?m _ = _ =>
    destruct (log_spec l m w4) as (w5 & E & C5 & _ & _ & _ & _ & _ & _ & Hf & Hs & Hd)
  end.
  rewrite E in E5. injection E5 as <-.
  rewrite C5.
  eapply fs_read_same; [| apply (fs_read_located _ _ _ _ R4) | | exact R4].
  - intros [| a p]; [auto |]. cbn [node_at]. apply Hd.
  - apply Hf. rewrite H4, H2, H1, C4, C2, C1. exact Hh.
Qed.

(** ** [demo] stays inside the sandbox *)

Lemma dirs_kept_refl (f : gmap path node) : dirs_kept f f.
Proof. intros p; auto. Qed.

Lemma dirs_kept_trans (f g h : gmap path node) :
  dirs_kept f g -> dirs_kept g h -> dirs_kept f h.
Proof. intros A B p Hp. auto. Qed.

Lemma confined_ret (c R : path) {A} (a : A) : confined c R (ret a).
Proof.
  intros w r w' Hc _ [= <- <-].
  repeat split; auto using dirs_kept_refl.
Qed.

Lemma confined_bind (c R : path) {A B} (m : M A) (k : A -> M B) :
  confined c R m -> (forall a, confined c R (k a)) -> confined c R (bind m k).
Proof.
  intros Hm Hk w r w' Hc Hi. unfold bind.
  destruct (m w) as [[a | e] w1] eqn:E; intros H.
  - destruct (Hm _ _ _ Hc Hi E) as (C1 & D1 & H1 & F1).
    assert (Hi1 : forall t, t `prefix_of` R -> node_at (fs w1) t = Some Dir)
      by (intros t Ht; apply D1, Hi, Ht).
    destruct (Hk a _ _ _ C1 Hi1 H) as (C2 & D2 & H2 & F2).
    repeat split; [exact C2 | eapply dirs_kept_trans; eauto | auto |].
    intros t Ht Hh. rewrite F2; [now apply F1 | exact Ht |].
    intros Hin. apply Hh, H1, Hin.
  - injection H as <- <-. eapply Hm; eauto.
Qed.

Lemma confined_for_each (c R : path) {A} (l : list A) (body : A -> M unit) :
  (forall a, confined c R (body a)) -> confined c R (for_each l body).
Proof.
  intros Hb. induction l as [| a l IH]; cbn [for_each].
  - apply confined_ret.
  - apply confined_bind; [apply Hb | intros _; exact IH].
Qed.

Lemma confined_log (c R : path) (level msg : string) : confined c R (log level msg).
Proof.
  intros w r w' Hc _ H.
  destruct (log_spec level msg w)
    as (w1 & E & C & _ & Hh & _ & _ & _ & _ & Hf & _ & Hd).
  rewrite E in H. injection H as <- <-.
  repeat split.
  - congruence.
  - intros [| a p]; [auto |]. cbn [node_at]. apply Hd.
  - intros h. now rewrite Hh.
  - intros t _ Ht. now apply Hf.
Qed.

Lemma confined_read_bytes (c R : path) (p : PurePath) : confined c R (read_bytes p).
Proof.
  intros w r w' Hc _. unfold read_bytes.
  destruct (fs_read _ _ _); intros [= <- <-];
    repeat split; auto using dirs_kept_refl.
Qed.

Lemma confined_sha256 (c R : path) (p : PurePath) : confined c R (sha256 p).
Proof.
  unfold sha256. apply confined_bind; [apply confined_read_bytes | intros d].
  apply confined_ret.
Qed.

Lemma confined_except_Exception (c R : path) (m : M unit) (h : string -> M unit) :
  confined c R m -> (forall s, confined c R (h s)) ->
  confined c R (except_Exception m h).
Proof.
  intros Hm Hh w r w' Hc Hi. unfold except_Exception.
  destruct (m w) as [[[] | [s | e | n]] w1] eqn:E; intros H.
  - injection H as <- <-. eapply Hm; eauto.
  - destruct (Hm _ _ _ Hc Hi E) as (C1 & D1 & H1 & F1).
    assert (Hi1 : forall t, t `prefix_of` R -> node_at (fs w1) t = Some Dir)
      by (intros t Ht; apply D1, Hi, Ht).
    destruct (Hh s _ _ _ C1 Hi1 H) as (C2 & D2 & H2 & F2).
    repeat split; [exact C2 | eapply dirs_kept_trans; eauto | auto |].
    intros t Ht Hn. rewrite F2; [now apply F1 | exact Ht |].
    intros Hin. apply Hn, H1, Hin.
  - destruct (Hm _ _ _ Hc Hi E) as (C1 & D1 & H1 & F1).
    assert (Hi1 : forall t, t `prefix_of` R -> node_at (fs w1) t = Some Dir)
      by (intros t Ht; apply D1, Hi, Ht).
    destruct (Hh (errno_name e) _ _ _ C1 Hi1 H) as (C2 & D2 & H2 & F2).
    repeat split; [exact C2 | eapply dirs_kept_trans; eauto | auto |].
    intros t Ht Hn. rewrite F2; [now apply F1 | exact Ht |].
    intros Hin. apply Hn, H1, Hin.
  - injection H as <- <-. eapply Hm; eauto.
Qed.

(** Writing the file that [p] names changes that entry only. *)
Lemma confined_write_bytes (c R : path) (p : PurePath) (d : list byte) :
  R `prefix_of` resolve c p -> confined c R (write_bytes p d).
Proof.
  intros Hp w [[] | e] w' Hc _ H.
  - destruct (write_bytes_ok _ _ _ _ H) as (q & Hq & _ & Hnd & ->).
    cbn [fs cwd handlers set_fs].
    apply locate_resolve in Hq. rewrite Hc in Hq. subst q.
    repeat split; auto using insert_file_dirs_kept.
    intros t Ht _. apply lookup_insert_ne. intros <-. now apply Ht.
  - apply write_bytes_raise in H as ->.
    repeat split; auto using dirs_kept_refl.
Qed.

Lemma delete_file_dirs_kept (f : gmap path node) (q : path) (d : list byte) :
  node_at f q = Some (File d) -> dirs_kept f (delete q f).
Proof.
  intros Hq [| a p]; [auto |]. cbn [node_at]. intros Hp.
  rewrite lookup_delete_ne; [exact Hp |].
  intros ->. cbn [node_at] in Hq. congruence.
Qed.

Lemma elem_of_orphan (q h : path) (w : world) :
  h ∈ handlers (orphan q w) -> h ∈ handlers w.
Proof.
  unfold orphan. cbn [handlers set_handlers].
  rewrite !list_elem_of_In, filter_In. tauto.
Qed.

Lemma confined_unlink (c R : path) (p : PurePath) :
  R `prefix_of` resolve c p -> confined c R (unlink_missing_ok p).
Proof.
  intros Hp w r w' Hc _. unfold unlink_missing_ok, fs_unlink.
  destruct (locate (fs w) (cwd w) p) as [e | q] eqn:Hl.
  - destruct e; intros [= <- <-]; repeat split; auto using dirs_kept_refl.
  - apply locate_resolve in Hl. rewrite Hc in Hl. subst q.
    destruct (node_at (fs w) (resolve c p)) as [[| d] |] eqn:Hn;
      intros [= <- <-]; try (repeat split; auto using dirs_kept_refl; fail).
    repeat split; cbn [fs cwd set_fs orphan set_handlers handlers].
    + exact Hc.
    + eapply delete_file_dirs_kept; eauto.
    + intros h. rewrite !list_elem_of_In, filter_In. tauto.
    + intros t Ht _. apply lookup_delete_ne. intros <-. now apply Ht.
Qed.

Lemma os_mkdir_inv (p : PurePath) (w : world) (r : res unit) (w' : world) :
  os_mkdir p w = (r, w') ->
  (exists e, r = Raise (OSError e) /\ w' = w)
  \/ (r = Ok tt
      /\ exists q, locate (fs w) (cwd w) p = inr q /\ q <> []
                   /\ w' = set_fs (<[q := Dir]> (fs w)) w).
Proof.
  unfold os_mkdir, lift_fs, fs_mkdir.
  destruct (locate (fs w) (cwd w) p) as [e | q] eqn:Hl;
    [intros [= <- <-]; eauto |].
  destruct (node_at (fs w) q) eqn:Hn; [intros [= <- <-]; eauto |].
  unfold put. destruct q as [| a q]; [intros [= <- <-]; eauto |].
  destruct (node_at (fs w) (removelast (a :: q))) as [[| d] |];
    intros [= <- <-]; eauto.
  right. split; [reflexivity |]. exists (a :: q). repeat split. discriminate.
Qed.

Lemma mkdir_leaf_world (p : PurePath) (w : world) (r : res unit) (w' : world) :
  mkdir_leaf p w = (r, w') -> exists r0, os_mkdir p w = (r0, w').
Proof.
  unfold mkdir_leaf.
  destruct (os_mkdir p w) as [[[] | [m | e | n]] w1];
    try (intros [= <- <-]; eauto; fail).
  destruct e; try (intros [= <- <-]; eauto; fail);
    (destruct (is_dir w1 p); intros [= <- <-]; eauto).
Qed.

(** [mkdir(parents=True)] of an absolute path creates nothing but that
    path and directories above it. *)
Lemma mkdir_rev_changes (rparts : list string) (w : world) (r : res unit) (w' : world) :
  normal (rev rparts) = true ->
  mkdir_rev true rparts w = (r, w') ->
  forall t, fs w' !! t = fs w !! t \/ (t `prefix_of` rev rparts /\ t <> []).
Proof.
  revert w r w'. induction rparts as [| a rest IH]; intros w r w' Hn H t.
  - cbn [mkdir_rev] in H.
    destruct (os_mkdir_inv _ _ _ _ (surjective_pairing (os_mkdir (mkPath true (rev [])) w)))
      as [(e & Hr & Hw) | (Hr & q & Hq & Hne & Hw)].
    + destruct (os_mkdir (mkPath true (rev [])) w) as [r1 w1]. cbn [fst snd] in *.
      subst. left.
      destruct e; try (destruct (is_dir w _)); now injection H as <- <-.
    + destruct (os_mkdir (mkPath true (rev [])) w) as [r1 w1]. cbn [fst snd] in *.
      subst. injection H as <- <-. cbn [fs set_fs].
      apply (locate_absolute_normal _ _ []) in Hq; [congruence | reflexivity].
  - cbn [mkdir_rev] in H.
    assert (Hn' : normal (rev rest) = true).
    { cbn [rev] in Hn. unfold normal in *. rewrite forallb_app in Hn.
      now apply andb_true_iff in Hn as [? _]. }
    assert (Hlast : forall w0 r0 w0',
               os_mkdir (mkPath true (rev (a :: rest))) w0 = (r0, w0') ->
               fs w0' !! t = fs w0 !! t
               \/ (t `prefix_of` rev (a :: rest) /\ t <> [])).
    { intros w0 r0 w0' E.
      destruct (os_mkdir_inv _ _ _ _ E) as [(e & _ & ->) | (_ & q & Hq & Hne & ->)];
        [now left |].
      apply (locate_absolute_normal _ _ (rev (a :: rest))) in Hq; [| exact Hn].
      subst q. cbn [fs set_fs].
      destruct (decide (t = rev (a :: rest))) as [-> | Hd].
      - right. split; [reflexivity | exact Hne].
      - left. now apply lookup_insert_ne. }
    destruct (os_mkdir (mkPath true (rev (a :: rest))) w) as [r1 w1] eqn:E.
    pose proof (Hlast _ _ _ E) as H1.
    destruct r1 as [[] | [m | e | n]]; try (now injection H as <- <-).
    destruct e; try (destruct (is_dir w1 _); now injection H as <- <-).
    (* ENOENT: the parent first *)
    destruct (os_mkdir_inv _ _ _ _ E) as [(e & _ & ->) | (Hr & _)]; [| discriminate].
    unfold bind in H.
    destruct (mkdir_rev true rest w) as [[[] | e2] w2] eqn:E2.
    + destruct (mkdir_leaf_world _ _ _ _ H) as [r0 E3].
      destruct (IH _ _ _ Hn' E2 t) as [Ht | [Ht Hne]].
      * destruct (Hlast _ _ _ E3) as [Ht' | Ht']; [left; congruence | now right].
      * right. split; [| exact Hne]. cbn [rev]. now apply prefix_app_r.
    + injection H as <- <-.
      destruct (IH _ _ _ Hn' E2 t) as [Ht | [Ht Hne]]; [now left |].
      right. split; [| exact Hne]. cbn [rev]. now apply prefix_app_r.
Qed.

Lemma confined_mkdir_absolute (c R X : path) :
  normal X = true -> R `prefix_of` X -> confined c R (mkdir_parents (absolute X)).
Proof.
  intros Hn Hp w r w' Hc Hi H.
  destruct (grows_mkdir_parents _ _ _ _ H) as (C & Hh & Hs).
  repeat split.
  - congruence.
  - now apply subseteq_dirs_kept.
  - intros h. now rewrite Hh.
  - intros t Ht _.
    unfold mkdir_parents in H. cbn [anchored parts absolute] in H.
    assert (Hn2 : normal (rev (rev X)) = true) by now rewrite rev_involutive.
    destruct (mkdir_rev_changes _ _ _ _ Hn2 H t) as [E | [Hpre Hne]]; [exact E |].
    rewrite rev_involutive in Hpre.
    destruct (prefix_weak_total _ _ _ Hpre Hp) as [Htr | Hrt]; [| contradiction].
    specialize (Hi t Htr). destruct t as [| a t]; [contradiction |].
    cbn [node_at] in Hi. pose proof (lookup_weaken _ _ _ _ Hi Hs) as Hw.
    etransitivity; [exact Hw | symmetry; exact Hi].
Qed.

Lemma confined_returns_bind (c R : path) {A B} (P : A -> Prop) (m : M A) (k : A -> M B) :
  confined c R m -> returns P m -> (forall a, P a -> confined c R (k a)) ->
  confined c R (bind m k).
Proof.
  intros Hm HP Hk w r w' Hc Hi. unfold bind.
  destruct (m w) as [[a | e] w1] eqn:E; intros H.
  - destruct (Hm _ _ _ Hc Hi E) as (C1 & D1 & H1 & F1).
    assert (Hi1 : forall t, t `prefix_of` R -> node_at (fs w1) t = Some Dir)
      by (intros t Ht; apply D1, Hi, Ht).
    destruct (Hk a (HP _ _ _ E) _ _ _ C1 Hi1 H) as (C2 & D2 & H2 & F2).
    repeat split; [exact C2 | eapply dirs_kept_trans; eauto | auto |].
    intros t Ht Hh. rewrite F2; [now apply F1 | exact Ht |].
    intros Hin. apply Hh, H1, Hin.
  - injection H as <- <-. eapply Hm; eauto.
Qed.

(** The temporary file is a new entry of the directory asked for. *)
Lemma mkstemp_changes (fuel : nat) (X : path) (w : world) (r : res PurePath) (w' : world) :
  normal X = true ->
  mkstemp fuel (absolute X) w = (r, w') ->
  (forall t, X `prefix_of` t \/ fs w' !! t = fs w !! t)
  /\ forall tmp, r = Ok tmp -> exists n, tmp = absolute (X ++ [tmp_name n]).
Proof.
  intros Hn. revert w. induction fuel as [| fuel IH]; intros w; cbn [mkstemp].
  - intros [= <- <-]. split; [now right | discriminate].
  - destruct (locate (fs w) (cwd w) (absolute X)) as [e | q] eqn:Hl.
    + intros [= <- <-]. split; [now right | discriminate].
    + apply (locate_absolute_normal _ _ X) in Hl; [| exact Hn]. subst q.
      destruct (node_at (fs w) (X ++ [tmp_name (tmp_seq w)])) eqn:Hc.
      * intros H. apply IH in H. exact H.
      * unfold put. destruct (X ++ [tmp_name (tmp_seq w)]) as [| a l] eqn:Hcand.
        { intros [= <- <-]. split; [now right | discriminate]. }
        rewrite <- Hcand.
        destruct (node_at (fs w) (removelast _)) as [[| d] |];
          intros [= <- <-]; try (split; [now right | discriminate]).
        split.
        -- intros t. cbn [fs set_fs set_tmp_seq].
           destruct (decide (t = X ++ [tmp_name (tmp_seq w)])) as [-> | Hd].
           ++ left. now apply prefix_app_r.
           ++ right. now apply lookup_insert_ne.
        -- intros tmp [= <-]. eauto.
Qed.

Lemma confined_mkstemp (c R X : path) (fuel : nat) :
  normal X = true -> R `prefix_of` X -> confined c R (mkstemp fuel (absolute X)).
Proof.
  intros Hn Hp w r w' Hc _ H.
  destruct (mkstemp_spec _ _ _ _ _ H) as (C & Hh & Hs & _).
  destruct (mkstemp_changes _ _ _ _ _ Hn H) as [Hch _].
  repeat split.
  - congruence.
  - now apply subseteq_dirs_kept.
  - intros h. now rewrite Hh.
  - intros t Ht _. destruct (Hch t) as [Hx | E]; [| exact E].
    exfalso. apply Ht. now transitivity X.
Qed.

Lemma confined_os_replace (c R : path) (src dst : PurePath) :
  R `prefix_of` resolve c src -> R `prefix_of` resolve c dst ->
  confined c R (os_replace src dst).
Proof.
  intros Hs Hd w r w' Hc _. unfold os_replace, fs_replace, stat.
  destruct (locate (fs w) (cwd w) src) as [e | qs] eqn:Ls;
    [intros [= <- <-]; repeat split; auto using dirs_kept_refl |].
  destruct (node_at (fs w) qs) as [[| d] |] eqn:Ns;
    try (intros [= <- <-]; repeat split; auto using dirs_kept_refl; fail).
  destruct (locate (fs w) (cwd w) dst) as [e | qd] eqn:Ld;
    [intros [= <- <-]; repeat split; auto using dirs_kept_refl |].
  apply locate_resolve in Ls, Ld. rewrite Hc in Ls, Ld.
  assert (Hor : forall f, dirs_kept (fs w) f ->
            (forall t, ~ R `prefix_of` t -> f !! t = fs w !! t) ->
            cwd (orphan qd (set_fs f w)) = c
            /\ dirs_kept (fs w) (fs (orphan qd (set_fs f w)))
            /\ (forall h, h ∈ handlers (orphan qd (set_fs f w)) -> h ∈ handlers w)
            /\ (forall t, ~ R `prefix_of` t -> t ∉ handlers w ->
                          fs (orphan qd (set_fs f w)) !! t = fs w !! t)).
  { intros f Hk Hf. repeat split; cbn [fs cwd handlers orphan set_handlers set_fs]; auto.
    intros h. rewrite !list_elem_of_In, filter_In. tauto. }
  assert (Hnd : node_at (fs w) qd <> Some Dir ->
            forall f, put (fs w) qd (File d) = inr f ->
            dirs_kept (fs w) (delete qs f)
            /\ forall t, ~ R `prefix_of` t -> delete qs f !! t = fs w !! t).
  { intros Hq f. unfold put. destruct qd as [| a qd]; [discriminate |].
    destruct (node_at (fs w) (removelast (a :: qd))) as [[| d'] |]; try discriminate.
    intros [= <-]. split.
    - eapply dirs_kept_trans; [apply insert_file_dirs_kept, Hq |].
      destruct (decide (qs = a :: qd)) as [E | E].
      + rewrite E. intros [| b p]; [auto |]. cbn [node_at]. intros Hb.
        rewrite lookup_delete_ne; [exact Hb |]. intros Heq.
        rewrite <- Heq, lookup_insert_eq in Hb. discriminate.
      + apply (delete_file_dirs_kept _ _ d).
        destruct qs as [| b qs]; [discriminate |]. cbn [node_at] in *.
        now rewrite lookup_insert_ne.
    - intros t Ht. rewrite lookup_delete_ne, lookup_insert_ne; [reflexivity | |];
        intros <-; apply Ht; congruence. }
  destruct (node_at (fs w) qd) as [[| d'] |] eqn:Nd;
    [intros [= <- <-]; repeat split; auto using dirs_kept_refl | |].
  - destruct (bool_decide (qs = qd)).
    + intros [= <- <-]. apply Hor; auto using dirs_kept_refl.
    + destruct (put (fs w) qd (File d)) as [e | f] eqn:Hp;
        [intros [= <- <-]; repeat split; auto using dirs_kept_refl |].
      intros [= <- <-]. destruct (Hnd ltac:(discriminate) f eq_refl). now apply Hor.
  - destruct (bool_decide (qs = qd)).
    + intros [= <- <-]. apply Hor; auto using dirs_kept_refl.
    + destruct (put (fs w) qd (File d)) as [e | f] eqn:Hp;
        [intros [= <- <-]; repeat split; auto using dirs_kept_refl |].
      intros [= <- <-]. destruct (Hnd ltac:(discriminate) f eq_refl). now apply Hor.
Qed.

Lemma returns_mkstemp (c R X : path) (fuel : nat) :
  normal X = true -> R `prefix_of` X ->
  returns (fun tmp => R `prefix_of` resolve c tmp) (mkstemp fuel (absolute X)).
Proof.
  intros Hn Hp w tmp w' H.
  destruct (mkstemp_changes _ _ _ _ _ Hn H) as [_ Ht].
  destruct (Ht tmp eq_refl) as [n ->].
  rewrite resolve_absolute_normal.
  - apply prefix_app_r, Hp.
  - unfold normal in *. rewrite forallb_app, Hn. reflexivity.
Qed.

(** [_atomic_write] into a directory [X] inside [R] changes nothing
    outside [R]: the temporary file is made next to the destination. *)
Lemma confined_atomic_write (c R X : path) (n : string) (src : PurePath) :
  normal X = true -> normal_name n = true -> R `prefix_of` X ->
  confined c R (WormDemo._atomic_write src (absolute (X ++ [n]))).
Proof.
  intros Hn Hnn Hp. unfold WormDemo._atomic_write, NamedTemporaryFile.
  assert (Hpar : parent (absolute (X ++ [n])) = absolute X).
  { unfold parent, absolute. cbn [anchored parts]. now rewrite removelast_last. }
  rewrite Hpar.
  apply confined_bind; [now apply confined_mkdir_absolute | intros _].
  eapply confined_returns_bind;
    [now apply confined_mkstemp | now apply (returns_mkstemp c R) |].
  intros tmp Htmp. cbv beta in Htmp.
  apply confined_bind; [apply confined_read_bytes | intros d].
  apply confined_bind; [now apply confined_write_bytes | intros _].
  apply confined_os_replace; [exact Htmp |].
  rewrite resolve_absolute_normal.
  - now apply prefix_app_r.
  - unfold normal in *. rewrite forallb_app, Hn. cbn. now rewrite Hnn.
Qed.

Lemma resolve_join_plain (c : path) (p : PurePath) (n : string) :
  Config.contains "/" n = false -> normal_name n = true ->
  resolve c (p // n) = resolve c p ++ [n].
Proof.
  intros Hs Hn. rewrite resolve_join_no_slash by exact Hs.
  now apply step_normal_name.
Qed.

Lemma confined_payload (c R : path) (target : PurePath) :
  R `prefix_of` resolve c target -> confined c R (WormDemo._payload target).
Proof.
  intros Hp. unfold WormDemo._payload.
  apply confined_except_Exception; [| intros s; apply confined_log].
  apply confined_bind; [| intros _; apply confined_log].
  apply confined_write_bytes.
  rewrite resolve_join_plain by reflexivity. now apply prefix_app_r.
Qed.

Lemma confined_payload_if (c R : path) (b : bool) (target : PurePath) :
  R `prefix_of` resolve c target ->
  confined c R (if b then WormDemo._payload target else ret tt).
Proof.
  intros Hp. destruct b; [now apply confined_payload | apply confined_ret].
Qed.

Lemma tmp_host_in_sandbox (cfg : Config.cfg) (c : path) (i idx : Z) :
  resolve c (WormDemo.sandbox cfg) `prefix_of`
  resolve c (WormDemo.sandbox cfg
             // (".tmp_host_" +:+ pretty i +:+ "_" +:+ pretty idx +:+ ".py")).
Proof.
  rewrite resolve_join_plain;
    [now apply prefix_app_r
    | rewrite !contains_app, !pretty_Z_no_slash; reflexivity
    | reflexivity].
Qed.

Lemma tmp_replica_in_sandbox (cfg : Config.cfg) (c : path) (idx : Z) :
  resolve c (WormDemo.sandbox cfg) `prefix_of`
  resolve c (WormDemo.sandbox cfg // (".tmp_replica_" +:+ pretty idx +:+ ".py")).
Proof.
  rewrite resolve_join_plain;
    [now apply prefix_app_r
    | rewrite !contains_app, !pretty_Z_no_slash; reflexivity
    | reflexivity].
Qed.

(** A mock host that passes the guard is written inside the sandbox; one
    that fails it is only logged. *)
Lemma confined_spread_host (cfg : Config.cfg) (c : path) (idx : Z)
  (data : list byte) (payload : bool) (i : Z) :
  normal c = true ->
  confined c (resolve c (WormDemo.sandbox cfg))
    (WormDemo.spread_host cfg idx data payload i).
Proof.
  intros Hn w r w' Hc Hi. unfold WormDemo.spread_host. rewrite Hc.
  set (Hd := resolve c (WormDemo.host_dir cfg i)).
  assert (HnH : normal Hd = true) by now apply resolve_normal.
  destruct (is_within c (absolute Hd) (WormDemo.sandbox cfg)) eqn:Hg; cbn [negb].
  - unfold is_within in Hg. apply bool_decide_eq_true in Hg.
    rewrite resolve_absolute_normal in Hg by exact HnH.
    rewrite absolute_join_replica_name.
    revert w r w' Hc Hi.
    change (confined c (resolve c (WormDemo.sandbox cfg))
      (write_bytes
         (WormDemo.sandbox cfg
          // (".tmp_host_" +:+ pretty i +:+ "_" +:+ pretty idx +:+ ".py")) data ;;
       WormDemo._atomic_write
         (WormDemo.sandbox cfg
          // (".tmp_host_" +:+ pretty i +:+ "_" +:+ pretty idx +:+ ".py"))
         (absolute (Hd ++ [WormDemo._replica_name idx])) ;;
       unlink_missing_ok
         (WormDemo.sandbox cfg
          // (".tmp_host_" +:+ pretty i +:+ "_" +:+ pretty idx +:+ ".py")) ;;
       logger_info ("(simulated) spread -> host_" +:+ pretty i +:+ "/"
                    +:+ Config.replica_dir cfg +:+ "/"
                    +:+ name (absolute (Hd ++ [WormDemo._replica_name idx]))) ;;
       if payload then WormDemo._payload (absolute Hd) else ret tt)).
    apply confined_bind;
      [apply confined_write_bytes, tmp_host_in_sandbox | intros _].
    apply confined_bind;
      [apply confined_atomic_write;
         [exact HnH | apply replica_name_normal | exact Hg] | intros _].
    apply confined_bind;
      [apply confined_unlink, tmp_host_in_sandbox | intros _].
    apply confined_bind; [apply confined_log | intros _].
    apply confined_payload_if. now rewrite resolve_absolute_normal.
  - apply confined_log; assumption.
Qed.

(** The replication proper, for a destination [X/w_copy_idx.py] whose
    directory [X] lies inside the sandbox. *)
Lemma confined_replicate (cfg : Config.cfg) (c : path)
  (polymorph simulate_spread payload : bool) (token idx : Z) (src : PurePath) :
  normal c = true ->
  resolve c (WormDemo.sandbox cfg) `prefix_of` resolve c (WormDemo.replicas cfg) ->
  confined c (resolve c (WormDemo.sandbox cfg))
    (WormDemo.replicate cfg polymorph simulate_spread payload token idx src
       (absolute (resolve c (WormDemo.replicas cfg) ++ [WormDemo._replica_name idx]))).
Proof.
  intros Hn Hp. unfold WormDemo.replicate, WormDemo.write_primary, WormDemo.spread.
  apply confined_bind.
  - apply confined_bind; [apply confined_read_bytes | intros base].
    apply confined_bind;
      [apply confined_write_bytes, tmp_replica_in_sandbox | intros _].
    apply confined_bind;
      [apply confined_atomic_write;
         [now apply resolve_normal | apply replica_name_normal | exact Hp]
      | intros _].
    apply confined_bind;
      [apply confined_unlink, tmp_replica_in_sandbox | intros _].
    apply confined_bind; [apply confined_log | intros _].
    apply confined_bind; [apply confined_sha256 | intros h1].
    apply confined_bind; [apply confined_sha256 | intros h2].
    apply confined_bind; [apply confined_log | intros _].
    apply confined_bind; [now apply confined_payload_if | intros _].
    apply confined_ret.
  - intros data. destruct (_ && _); [| apply confined_ret].
    apply confined_for_each. intros i. now apply confined_spread_host.
Qed.

Lemma confined_except_OSError (c R : path) (m : M unit) (h : errno -> M unit) :
  confined c R m -> (forall e, confined c R (h e)) ->
  confined c R (except_OSError m h).
Proof.
  intros Hm Hh w r w' Hc Hi. unfold except_OSError.
  destruct (m w) as [[[] | [s | e | n]] w1] eqn:E; intros H;
    try (injection H as <- <-; eapply Hm; eauto; fail).
  destruct (Hm _ _ _ Hc Hi E) as (C1 & D1 & H1 & F1).
  assert (Hi1 : forall t, t `prefix_of` R -> node_at (fs w1) t = Some Dir)
    by (intros t Ht; apply D1, Hi, Ht).
  destruct (Hh e _ _ _ C1 Hi1 H) as (C2 & D2 & H2 & F2).
  repeat split; [exact C2 | eapply dirs_kept_trans; eauto | auto |].
  intros t Ht Hn. rewrite F2; [now apply F1 | exact Ht |].
  intros Hin. apply Hn, H1, Hin.
Qed.

Lemma confined_sys_exit (c R : path) (n : Z) : confined c R (sys_exit (A := unit) n).
Proof.
  intros w r w' Hc _ [= <- <-]. repeat split; auto using dirs_kept_refl.
Qed.

Lemma prefix_snoc_ne {A} (R X : list A) (n : A) :
  R `prefix_of` X ++ [n] -> X ++ [n] <> R -> R `prefix_of` X.
Proof.
  intros [k Hk] Hne. destruct (decide (k = [])) as [-> | Hk0].
  - rewrite app_nil_r in Hk. contradiction.
  - destruct (exists_last Hk0) as (k' & a & ->).
    rewrite app_assoc in Hk. apply app_inj_tail in Hk as [-> _].
    now exists k'.
Qed.

(** What [demo] changes: with the directories down to the sandbox in
    place whenever the sandbox exists, and a replica destination other
    than the sandbox directory itself. *)
Lemma demo_confined (cfg : Config.cfg) (pm sp pl : bool) (token : Z)
  (w : world) (r : res unit) (w' : world) :
  normal (cwd w) = true ->
  (exists_ w (WormDemo.sandbox cfg) = true ->
   forall t, t `prefix_of` resolve (cwd w) (WormDemo.sandbox cfg) ->
             node_at (fs w) t = Some Dir) ->
  resolve (cwd w) (WormDemo.replicas cfg
                   // WormDemo._replica_name (WormDemo._next_index cfg w))
    <> resolve (cwd w) (WormDemo.sandbox cfg) ->
  WormDemo.demo cfg pm sp pl token w = (r, w') ->
  cwd w' = cwd w
  /\ forall t, ~ resolve (cwd w) (WormDemo.sandbox cfg) `prefix_of` t ->
               t ∉ handlers w ->
               fs w' !! t = fs w !! t.
Proof.
  intros Hn Hi Hne H.
  set (c := cwd w) in *. set (R := resolve c (WormDemo.sandbox cfg)) in *.
  set (idx := WormDemo._next_index cfg w) in *.
  set (X := resolve c (WormDemo.replicas cfg)).
  assert (HY : resolve c (WormDemo.replicas cfg // WormDemo._replica_name idx)
               = X ++ [WormDemo._replica_name idx])
    by apply resolve_join_replica_name.
  rewrite HY in Hne.
  assert (HnY : normal (X ++ [WormDemo._replica_name idx]) = true)
    by (apply normal_snoc_replica_name; now apply resolve_normal).
  pose (m0 := fun w1 : world =>
          if is_within c (absolute (X ++ [WormDemo._replica_name idx]))
               (WormDemo.sandbox cfg)
          then WormDemo.replicate cfg pm sp pl token idx (absolute (script w1))
                 (absolute (X ++ [WormDemo._replica_name idx])) w1
          else logger_error
                 "Replica destination escaped sandbox; replication aborted." w1).
  assert (Hm0 : confined c R m0).
  { intros w1 r1 w1' Hc1 Hi1. unfold m0.
    destruct (is_within c _ _) eqn:Hg.
    - unfold is_within in Hg. apply bool_decide_eq_true in Hg.
      rewrite resolve_absolute_normal in Hg by exact HnY.
      apply confined_replicate; try assumption.
      now apply (prefix_snoc_ne _ _ (WormDemo._replica_name idx)).
    - apply confined_log; assumption. }
  assert (Hf : forall e, confined c R (WormDemo.replication_failed e)).
  { intros e. unfold WormDemo.replication_failed.
    apply confined_bind; [apply confined_log | intros _; apply confined_sys_exit]. }
  unfold WormDemo.demo in H.
  destruct (exists_ w (WormDemo.sandbox cfg)); cbn [negb] in H.
  - specialize (Hi eq_refl).
    assert (Hall : cwd w' = c /\ dirs_kept (fs w) (fs w')
                   /\ (forall h, h ∈ handlers w' -> h ∈ handlers w)
                   /\ (forall t, ~ R `prefix_of` t -> t ∉ handlers w ->
                                 fs w' !! t = fs w !! t)).
    { destruct (exists_ w (WormDemo.marker cfg)).
      + exact (confined_log c R _ _ w r w' eq_refl Hi H).
      + unfold except_OSError in H. cbv beta zeta in H.
        fold c idx in H. rewrite HY in H.
        assert (H' : except_OSError m0 WormDemo.replication_failed w = (r, w'))
          by exact H.
        exact (confined_except_OSError c R m0 _ Hm0 Hf w r w' eq_refl Hi H'). }
    split; apply Hall.
  - unfold bind, logger_error in H.
    destruct (log_spec "ERROR" "Sandbox not initialized. Run --init first." w)
      as (w1 & E & C & _ & _ & _ & _ & _ & _ & Hfs & _).
    rewrite E in H. injection H as <- <-. split; [exact C |].
    intros t _ Ht. now apply Hfs.
Qed.

(** X13: [demo] writes inside the sandbox only.  With the sandbox directory and
    the directories above it in place, and unless the replica destination
    is the sandbox directory itself, a [demo], whatever its flags and
    however it ends, changes no entry outside the sandbox directory other
    than the attached log files. *)
Theorem demo_stays_in_sandbox (cfg : Config.cfg) (pm sp pl : bool) (token : Z)
  (w : world) (r : res unit) (w' : world) :
  normal (cwd w) = true ->
  (forall t, t `prefix_of` resolve (cwd w) (WormDemo.sandbox cfg) ->
             node_at (fs w) t = Some Dir) ->
  resolve (cwd w) (WormDemo.replicas cfg
                   // WormDemo._replica_name (WormDemo._next_index cfg w))
    <> resolve (cwd w) (WormDemo.sandbox cfg) ->
  WormDemo.demo cfg pm sp pl token w = (r, w') ->
  forall t, ~ resolve (cwd w) (WormDemo.sandbox cfg) `prefix_of` t ->
            (t ∉ handlers w) ->
            fs w' !! t = fs w !! t.
Proof.
  intros Hn Hi Hne H.
  apply (demo_confined cfg pm sp pl token w r w' Hn (fun _ => Hi) Hne H).
Qed.

(** ** [_atomic_write]: all or nothing *)

Lemma mkstemp_ok (fuel : nat) (d : PurePath) (w : world) (tmp : PurePath) (w' : world) :
  mkstemp fuel d w = (Ok tmp, w') ->
  exists q n,
    locate (fs w) (cwd w) d = inr q
    /\ tmp = absolute (q ++ [tmp_name n])
    /\ fs w !! (q ++ [tmp_name n]) = None
    /\ fs w' = <[q ++ [tmp_name n] := File []]> (fs w)
    /\ cwd w' = cwd w.
Proof.
  revert w. induction fuel as [| fuel IH]; intros w; cbn [mkstemp]; [discriminate |].
  destruct (locate (fs w) (cwd w) d) as [e | q] eqn:Hl; [discriminate |].
  destruct (node_at (fs w) (q ++ [tmp_name (tmp_seq w)])) as [nd |] eqn:Hc.
  - intros H. apply IH in H as (q' & n & Hq & Ht & Hn & Hf & Hcw).
    cbn [fs cwd set_tmp_seq] in *. rewrite Hl in Hq. injection Hq as <-.
    exists q, n. auto.
  - unfold put. destruct (q ++ [tmp_name (tmp_seq w)]) as [| a l] eqn:Hcand;
      [discriminate |].
    rewrite <- Hcand in *.
    destruct (node_at (fs w) (removelast _)) as [[| x] |]; try discriminate.
    intros [= <- <-]. exists q, (tmp_seq w). repeat split.
    rewrite Hcand in *. exact Hc.
Qed.

Lemma os_replace_raise (src dst : PurePath) (w : world) (e : exn) (w' : world) :
  os_replace src dst w = (Raise e, w') -> w' = w.
Proof.
  unfold os_replace. destruct (fs_replace _ _ _ _) as [x | [q f]];
    [now intros [= _ <-] | discriminate].
Qed.

Lemma fs_read_node (f : gmap path node) (c : path) (p : PurePath) (d : list byte) :
  fs_read f c p = inr d <->
  locate f c p = inr (resolve c p) /\ node_at f (resolve c p) = Some (File d).
Proof.
  unfold fs_read, stat. split.
  - destruct (locate f c p) as [e | t] eqn:Hl; [discriminate |].
    rewrite <- (locate_resolve _ _ _ _ Hl).
    destruct (node_at f t) as [[| x] |]; try discriminate.
    now intros [= ->].
  - intros [-> ->]. reflexivity.
Qed.

Lemma node_at_file (f : gmap path node) (p : path) (d : list byte) :
  node_at f p = Some (File d) -> f !! p = Some (File d).
Proof. destruct p; [discriminate | auto]. Qed.

Lemma node_at_nonroot (f f' : gmap path node) (p : path) (d : list byte) (n : node) :
  node_at f p = Some (File d) -> f' !! p = Some n -> node_at f' p = Some n.
Proof. destruct p; [discriminate | auto]. Qed.

(** X14: [_atomic_write] replaces an existing destination by the bytes of the
    source or leaves it as it was: after a normal return the destination
    reads as the source did, after an exception as it did before. *)
Theorem atomic_write_all_or_nothing (src dst : PurePath) (s d : list byte)
  (w : world) (r : res unit) (w' : world) :
  normal (cwd w) = true ->
  fs_read (fs w) (cwd w) src = inr s ->
  fs_read (fs w) (cwd w) dst = inr d ->
  WormDemo._atomic_write src dst w = (r, w') ->
  cwd w' = cwd w
  /\ fs_read (fs w') (cwd w') dst
     = inr (match r with Ok _ => s | Raise _ => d end).
Proof.
  intros Hn Hs Hd. unfold WormDemo._atomic_write, NamedTemporaryFile, bind.
  destruct (mkdir_parents (parent dst) w) as [[[] | e1] w1] eqn:E1;
    destruct (grows_mkdir_parents _ _ _ _ E1) as (C1 & _ & S1);
    pose proof (fs_read_mono _ _ _ _ _ S1 Hd) as D1; rewrite <- C1 in D1;
    pose proof (fs_read_mono _ _ _ _ _ S1 Hs) as R1; rewrite <- C1 in R1;
    [| intros [= <- <-]; now rewrite C1 in *].
  destruct (mkstemp TMP_MAX (parent dst) w1) as [[tmp | e2] w2] eqn:E2;
    destruct (mkstemp_spec _ _ _ _ _ E2) as (C2 & _ & S2 & _);
    pose proof (fs_read_mono _ _ _ _ _ S2 D1) as D2; rewrite <- C2 in D2;
    pose proof (fs_read_mono _ _ _ _ _ S2 R1) as R2; rewrite <- C2 in R2;
    [| intros [= <- <-]; split; [congruence | exact D2]].
  apply mkstemp_ok in E2 as (q & n & Hq & -> & Hfresh & _ & _).
  set (cand := q ++ [tmp_name n]) in *.
  assert (Hcn : normal cand = true).
  { apply locate_resolve in Hq. subst q cand. unfold normal.
    rewrite forallb_app. fold (normal (resolve (cwd w1) (parent dst))).
    rewrite resolve_normal by congruence. reflexivity. }
  unfold read_bytes at 1. rewrite R2.
  destruct (write_bytes (absolute cand) s w2) as [[[] | e4] w4] eqn:E4;
    [| apply write_bytes_raise in E4 as ->; intros [= <- <-];
       split; [congruence | exact D2]].
  pose proof (write_then_read _ _ _ _ E4) as T4.
  destruct (write_bytes_ok _ _ _ _ E4) as (q4 & Hq4 & _ & Hnd & ->).
  apply locate_absolute_normal in Hq4; [| exact Hcn]. subst q4.
  cbn [fs cwd set_fs] in T4.
  apply fs_read_node in D2 as [L2 N2].
  rewrite <- C2 in D1. apply fs_read_node in D1 as [_ N1].
  set (T := resolve (cwd w2) dst) in *.
  assert (HT : T <> cand).
  { intros E. rewrite E in N1. apply node_at_file in N1.
    pose proof (eq_trans (eq_sym N1) Hfresh). discriminate. }
  assert (D4 : fs_read (<[cand := File s]> (fs w2)) (cwd w2) dst = inr d).
  { apply fs_read_node. split.
    - unfold locate in *.
      apply (walk_mono _ _ _ _ _ (insert_file_dirs_kept _ _ _ Hnd) L2).
    - fold T. destruct T as [| a l]; [exact N2 |]. cbn [node_at] in *.
      rewrite lookup_insert_ne; [exact N2 | congruence]. }
  intros E5. destruct r as [[] | e5].
  - assert (Hk : confined (cwd w2) [] (os_replace (absolute cand) dst))
      by (apply confined_os_replace; apply prefix_nil).
    destruct (Hk (set_fs (<[cand := File s]> (fs w2)) w2) _ _ eq_refl
                ltac:(intros t Ht; apply prefix_nil_inv in Ht; now subst t) E5)
      as (C5 & K5 & _ & _).
    destruct (os_replace_ok _ _ _ _ E5) as (qs & qd & c & Hst & Hld & _ & Hfd & _).
    cbn [fs cwd set_fs] in *.
    unfold fs_read in T4. rewrite Hst in T4. injection T4 as ->.
    split; [congruence |]. rewrite C5.
    apply fs_read_node in D4 as [L4 N4].
    pose proof (eq_trans (eq_sym L4) Hld) as Hx. injection Hx as <-.
    apply fs_read_node. split.
    + unfold locate in *. apply (walk_mono _ _ _ _ _ K5 L4).
    + exact (node_at_nonroot _ _ _ _ _ N4 Hfd).
  - apply os_replace_raise in E5 as ->.
    cbn [fs cwd set_fs]. split; [congruence | exact D4].
Qed.

(** ** What [cleanup] leaves behind *)

Lemma plain_name_inv (s : string) :
  plain_name s = true ->
  normal_name s = true /\ kept_part s = true /\ Config.contains "/" s = false.
Proof.
  unfold plain_name, normal_name. intros H.
  apply andb_true_iff in H as [H1 H2]. apply negb_true_iff in H2.
  pose proof H1 as H3. apply andb_true_iff in H3 as [H3 _]. auto.
Qed.

Lemma Path_plain (s : string) : plain_name s = true -> Path s = mkPath false [s].
Proof. intros H. apply plain_name_inv in H as (_ & ? & ?). now apply Path_simple. Qed.

Lemma joinpath_plain (p : PurePath) (s : string) :
  plain_name s = true -> p // s = mkPath (anchored p) (parts p ++ [s]).
Proof. intros H. apply plain_name_inv in H as (_ & ? & ?). now apply joinpath_simple. Qed.

(** Looking up a child of a child of the working directory. *)
Lemma stat_two (f : gmap path node) (c : path) (a b : string) :
  normal_name a = true -> normal_name b = true ->
  stat f c (mkPath false [a; b])
  = match node_at f c, node_at f (c ++ [a]) with
    | Some Dir, Some Dir =>
        match f !! (c ++ [a; b]) with
        | Some n => inr (c ++ [a; b], n)
        | None => inl ENOENT
        end
    | Some Dir, Some (File _) => inl ENOTDIR
    | Some Dir, None => inl ENOENT
    | Some (File _), _ => inl ENOTDIR
    | None, _ => inl ENOENT
    end.
Proof.
  intros Ha Hb. unfold stat, locate. cbn [anchored parts walk].
  rewrite (step_normal_name _ _ Ha), (step_normal_name _ _ Hb).
  rewrite <- app_assoc. cbn [app].
  destruct (node_at f c) as [[| x] |]; try reflexivity.
  destruct (node_at f (c ++ [a])) as [[| x] |]; try reflexivity.
  destruct (c ++ [a; b]) as [| y l] eqn:E; [| reflexivity].
  destruct c; discriminate.
Qed.

Lemma match_last_name {A} (l : string) (x y z : A) :
  match l with
  | "" => x
  | ".." => y
  | _ => z
  end
  = if String.eqb l "" then x else if String.eqb l ".." then y else z.
Proof.
  destruct l as [| a s]; [reflexivity |].
  destruct a as [[] [] [] [] [] [] [] []]; try reflexivity.
  destruct s as [| b s']; [reflexivity |].
  destruct b as [[] [] [] [] [] [] [] []]; try reflexivity.
  destruct s'; reflexivity.
Qed.

Lemma rmtree_ok (p : PurePath) (w w' : world) :
  rmtree p w = (Ok tt, w') ->
  exists q,
    stat (fs w) (cwd w) p = inr (q, Dir)
    /\ cwd w' = cwd w
    /\ (forall t, q `prefix_of` t -> fs w' !! t = None)
    /\ (forall t, ~ q `prefix_of` t -> fs w' !! t = fs w !! t)
    /\ (forall t, t ∉ handlers w -> t ∉ handlers w').
Proof.
  unfold rmtree, fs_rmtree.
  destruct (stat (fs w) (cwd w) p) as [e | [q [| d]]] eqn:Hs; try discriminate.
  rewrite match_last_name.
  destruct (String.eqb _ ""); [discriminate |].
  destruct (String.eqb _ ".."); [discriminate |].
  intros [= <-]. exists q. cbn [fs cwd handlers set_handlers set_fs].
  repeat split.
  - intros t Ht.
    destruct (decide (q = t)) as [<- | Hne]; [apply lookup_delete_eq |].
    rewrite lookup_delete_ne by exact Hne.
    apply map_lookup_filter_None. right. intros n _. cbn [fst].
    unfold below. rewrite (bool_decide_eq_true_2 _ Ht).
    rewrite bool_decide_eq_false_2 by congruence. discriminate.
  - intros t Ht. rewrite lookup_delete_ne by (intros <-; now apply Ht).
    destruct (fs w !! t) as [n |] eqn:E.
    + apply map_lookup_filter_Some. split; [exact E |]. cbn [fst].
      unfold below. now rewrite (bool_decide_eq_false_2 _ Ht).
    + apply map_lookup_filter_None. now left.
  - intros t Ht. rewrite list_elem_of_In, filter_In, <- list_elem_of_In. tauto.
Qed.

Lemma node_at_snoc (f : gmap path node) (c : path) (l : list string) :
  l <> [] -> node_at f (c ++ l) = f !! (c ++ l).
Proof. intros Hl. destruct (c ++ l) eqn:E; [| reflexivity]. destruct c, l; now try discriminate. Qed.

Lemma node_at_same (f f' : gmap path node) (p : path) :
  f' !! p = f !! p -> node_at f' p = node_at f p.
Proof. destruct p; [reflexivity | auto]. Qed.

Lemma prefix_two_one (c : path) (a b : string) (l : list string) :
  (length l < 2)%nat -> ~ (c ++ [a; b]) `prefix_of` (c ++ l).
Proof.
  intros Hl Hp. apply prefix_length in Hp. rewrite !length_app in Hp.
  cbn [length] in Hp. lia.
Qed.

Lemma prefix_two_two (c : path) (a b a' b' : string) :
  (c ++ [a; b]) `prefix_of` (c ++ [a'; b']) -> b = b'.
Proof.
  intros Hp. apply prefix_app_inv in Hp.
  apply prefix_cons_inv_2 in Hp. now apply prefix_cons_inv_1 in Hp.
Qed.

(** Removing a directory [c/s/x] other than the marker keeps the sandbox
    and its marker. *)
Lemma rmtree_keeps_marker (c : path) (s m x : string) (d : list byte) (w w' : world) :
  normal_name s = true -> normal_name x = true -> m <> x ->
  sandbox_with_marker c s m d w ->
  rmtree (mkPath false [s; x]) w = (Ok tt, w') ->
  sandbox_with_marker c s m d w'
  /\ fs w' !! (c ++ [s; x]) = None
  /\ forall y, fs w !! (c ++ [s; y]) = None -> fs w' !! (c ++ [s; y]) = None.
Proof.
  intros Hs Hx Hmx (Hc & Dc & DS & FT & HT) H.
  apply rmtree_ok in H as (q & Hst & C' & Hgone & Hkept & Hh).
  rewrite Hc, (stat_two _ _ _ _ Hs Hx), Dc in Hst.
  rewrite (node_at_snoc _ c [s]) in Hst by discriminate. rewrite DS in Hst.
  destruct (fs w !! (c ++ [s; x])) as [n |]; [| discriminate].
  injection Hst as <- ->.
  assert (K0 : ~ (c ++ [s; x]) `prefix_of` c).
  { rewrite <- (app_nil_r c) at 2. apply prefix_two_one. cbn. lia. }
  assert (K1 : ~ (c ++ [s; x]) `prefix_of` (c ++ [s]))
    by (apply prefix_two_one; cbn; lia).
  assert (K2 : ~ (c ++ [s; x]) `prefix_of` (c ++ [s; m])).
  { intros Hp. apply prefix_two_two in Hp. congruence. }
  repeat split.
  - congruence.
  - rewrite (node_at_same _ _ _ (Hkept c K0)). exact Dc.
  - now rewrite (Hkept _ K1).
  - now rewrite (Hkept _ K2).
  - now apply Hh.
  - now apply Hgone.
  - intros y Hy. destruct (decide (x = y)) as [<- | Hne]; [now apply Hgone |].
    rewrite Hkept; [exact Hy |]. intros Hp. apply prefix_two_two in Hp. congruence.
Qed.

(** Creating the directory [c/s/x] again. *)
Lemma mkdir_in_sandbox (c : path) (s m x : string) (d : list byte) (w : world)
  (r : res unit) (w' : world) :
  normal_name s = true -> normal_name x = true -> m <> x ->
  sandbox_with_marker c s m d w ->
  mkdir_parents (mkPath false [s; x]) w = (r, w') ->
  sandbox_with_marker c s m d w'
  /\ forall y, y <> x -> fs w !! (c ++ [s; y]) = None -> fs w' !! (c ++ [s; y]) = None.
Proof.
  intros Hs Hx Hmx (Hc & Dc & DS & FT & HT) H.
  destruct (grows_mkdir_parents _ _ _ _ H) as (C' & Hh & Hsub).
  assert (Hloc : locate (fs w) (cwd w) (mkPath false [s; x]) = inr (c ++ [s; x])).
  { unfold locate. cbn [anchored parts walk]. rewrite Hc, Dc.
    rewrite (step_normal_name _ _ Hs), (node_at_snoc _ c [s]) by discriminate.
    rewrite DS, (step_normal_name _ _ Hx), <- app_assoc. reflexivity. }
  assert (Hw : w' = w \/ w' = set_fs (<[c ++ [s; x] := Dir]> (fs w)) w).
  { unfold mkdir_parents in H. cbn [anchored parts rev app mkdir_rev] in H.
    destruct (os_mkdir (mkPath false [s; x]) w) as [r1 w1] eqn:E.
    destruct (os_mkdir_inv _ _ _ _ E) as [(e & -> & ->) | (-> & q & Hq & _ & ->)].
    - revert E H. unfold os_mkdir, lift_fs, fs_mkdir. rewrite Hloc.
      rewrite (node_at_snoc _ c [s; x]) by discriminate.
      destruct (fs w !! (c ++ [s; x])) as [n |] eqn:En.
      + intros [= <-]. destruct (is_dir w _); intros [= _ <-]; now left.
      + unfold put. destruct (c ++ [s; x]) as [| a l] eqn:El;
          [destruct c; discriminate |].
        rewrite <- El. replace (removelast (c ++ [s; x])) with (c ++ [s])
          by (change (c ++ [s; x]) with (c ++ ([s] ++ [x]));
              now rewrite app_assoc, removelast_last).
        rewrite (node_at_snoc _ c [s]) by discriminate. rewrite DS. discriminate.
    - rewrite Hloc in Hq. injection Hq as <-. injection H as _ <-. now right. }
  destruct Hw as [-> | ->]; [repeat split; auto |].
  unfold sandbox_with_marker. cbn [fs cwd handlers set_fs].
  refine (conj (conj Hc (conj _ (conj _ (conj _ HT)))) _).
  - rewrite (node_at_same (fs w)); [exact Dc |].
    apply lookup_insert_ne. intros E. apply (f_equal length) in E.
    rewrite length_app in E. cbn in E. lia.
  - rewrite lookup_insert_ne; [exact DS |].
    intros E. apply (f_equal length) in E. rewrite !length_app in E. cbn in E. lia.
  - rewrite lookup_insert_ne; [exact FT |].
    intros E. apply app_inv_head in E. congruence.
  - intros y Hy Hn. rewrite lookup_insert_ne; [exact Hn |].
    intros E. apply app_inv_head in E. congruence.
Qed.

Lemma locate_two (f : gmap path node) (c q : path) (a b : string) :
  normal_name a = true -> normal_name b = true ->
  locate f c (mkPath false [a; b]) = inr q ->
  node_at f c = Some Dir /\ f !! (c ++ [a]) = Some Dir /\ q = c ++ [a; b].
Proof.
  intros Ha Hb. unfold locate. cbn [anchored parts walk].
  rewrite (step_normal_name _ _ Ha), (step_normal_name _ _ Hb).
  destruct (node_at f c) as [[| x] |]; try discriminate.
  rewrite (node_at_snoc _ c [a]) by discriminate.
  destruct (f !! (c ++ [a])) as [[| x] |]; try discriminate.
  rewrite <- app_assoc. now intros [= <-].
Qed.

Lemma exists_two (c : path) (s m x : string) (d : list byte) (w : world) :
  normal_name s = true -> normal_name x = true ->
  sandbox_with_marker c s m d w ->
  exists_ w (mkPath false [s; x]) = bool_decide (is_Some (fs w !! (c ++ [s; x]))).
Proof.
  intros Hs Hx (Hc & Dc & DS & _). unfold exists_.
  rewrite Hc, (stat_two _ _ _ _ Hs Hx), Dc.
  rewrite (node_at_snoc _ c [s]) by discriminate. rewrite DS.
  destruct (fs w !! (c ++ [s; x])) as [n |].
  - symmetry. apply bool_decide_eq_true_2. eauto.
  - symmetry. apply bool_decide_eq_false_2. now intros [? ?].
Qed.

Lemma log_keeps_marker (c : path) (s m : string) (d : list byte) (level msg : string)
  (w w' : world) :
  sandbox_with_marker c s m d w ->
  log level msg w = (Ok tt, w') ->
  sandbox_with_marker c s m d w'
  /\ forall t, fs w !! t = None -> fs w' !! t = None.
Proof.
  intros (Hc & Dc & DS & FT & HT) H.
  destruct (log_spec level msg w)
    as (w1 & E & C & _ & Hh & _ & _ & _ & _ & Hf & Hs & Hd).
  rewrite E in H. injection H as <-.
  refine (conj (conj _ (conj _ (conj _ (conj _ _)))) _).
  - congruence.
  - destruct c as [| a c]; [reflexivity |]. cbn [node_at] in *. now apply Hd.
  - now apply Hd.
  - now rewrite Hf.
  - now rewrite Hh.
  - intros t Ht. destruct (fs w1 !! t) as [n |] eqn:En; [| reflexivity].
    destruct (proj1 (Hs t) ltac:(eauto)) as [n' Hn']. congruence.
Qed.

Lemma stat_two_absent (f : gmap path node) (c : path) (a b : string) :
  normal_name a = true -> normal_name b = true ->
  node_at f c = Some Dir -> f !! (c ++ [a]) = Some Dir ->
  f !! (c ++ [a; b]) = None ->
  stat f c (mkPath false [a; b]) = inl ENOENT.
Proof.
  intros Ha Hb Dc DS Hn. rewrite (stat_two _ _ _ _ Ha Hb), Dc.
  rewrite (node_at_snoc _ c [a]) by discriminate. now rewrite DS, Hn.
Qed.

Lemma fs_read_two (f : gmap path node) (c : path) (a b : string) (d : list byte) :
  normal_name a = true -> normal_name b = true ->
  node_at f c = Some Dir -> f !! (c ++ [a]) = Some Dir ->
  f !! (c ++ [a; b]) = Some (File d) ->
  fs_read f c (mkPath false [a; b]) = inr d.
Proof.
  intros Ha Hb Dc DS Hn. unfold fs_read. rewrite (stat_two _ _ _ _ Ha Hb), Dc.
  rewrite (node_at_snoc _ c [a]) by discriminate. now rewrite DS, Hn.
Qed.

(** X15: After a successful [cleanup] of a sandbox with plain, distinct names
    the kill switch is back with the content [STOP], the replica
    directory is gone, and the next replica index is 1 -- provided the
    STOP file is not an attached log file.  The names are plain when they
    are not empty, [.] or [..] and hold no slash; the marker must differ
    from the replica directory and from the hosts root. *)
Theorem cleanup_restores_marker (cfg : Config.cfg) (w w' : world) :
  plain_name (Config.sandbox cfg) = true ->
  plain_name (Config.replica_dir cfg) = true ->
  plain_name (Config.hosts_root cfg) = true ->
  plain_name (Config.marker cfg) = true ->
  Config.marker cfg <> Config.replica_dir cfg ->
  Config.marker cfg <> Config.hosts_root cfg ->
  (resolve (cwd w) (WormDemo.marker cfg) ∉ handlers w) ->
  WormDemo.cleanup cfg w = (Ok tt, w') ->
  fs_read (fs w') (cwd w') (WormDemo.marker cfg)
  = inr (list_byte_of_string ("STOP" +:+ NL))
  /\ exists_ w' (WormDemo.replicas cfg) = false
  /\ WormDemo._next_index cfg w' = 1.
Proof.
  intros Ps Pr Ph Pm Hmr Hmh HT H.
  set (s := Config.sandbox cfg) in *. set (r := Config.replica_dir cfg) in *.
  set (h := Config.hosts_root cfg) in *. set (m := Config.marker cfg) in *.
  set (c := cwd w) in *.
  destruct (plain_name_inv _ Ps) as (Ns & _ & _).
  destruct (plain_name_inv _ Pr) as (Nr & _ & _).
  destruct (plain_name_inv _ Ph) as (Nh & _ & _).
  destruct (plain_name_inv _ Pm) as (Nm & _ & _).
  assert (Em : WormDemo.marker cfg = mkPath false [s; m]).
  { unfold WormDemo.marker, WormDemo.sandbox. fold s m.
    now rewrite (Path_plain _ Ps), (joinpath_plain _ _ Pm). }
  assert (Er : WormDemo.replicas cfg = mkPath false [s; r]).
  { unfold WormDemo.replicas, WormDemo.sandbox. fold s r.
    now rewrite (Path_plain _ Ps), (joinpath_plain _ _ Pr). }
  assert (Eh : WormDemo.hosts_root cfg = mkPath false [s; h]).
  { unfold WormDemo.hosts_root, WormDemo.sandbox. fold s h.
    now rewrite (Path_plain _ Ps), (joinpath_plain _ _ Ph). }
  rewrite Em in HT.
  assert (ET : resolve c (mkPath false [s; m]) = c ++ [s; m]).
  { unfold resolve. cbn [anchored parts fold_left].
    rewrite (step_normal_name _ _ Ns), (step_normal_name _ _ Nm).
    now rewrite <- app_assoc. }
  rewrite ET in HT.
  (* the steps inside the [try] *)
  unfold WormDemo.cleanup, except_OSError in H. rewrite Em, Er, Eh in H.
  match type of H with context [match ?b w with _ => _ end] =>
    destruct (b w) as [[[] | e] wf] eqn:E end;
    [| destruct e as [x | e | n]; discriminate].
  injection H as ->. revert E. unfold bind at 1, write_text.
  destruct (write_bytes _ _ w) as [[[] | e] w1] eqn:E1; [| discriminate].
  unfold bind at 1.
  destruct (when_ _ _ w1) as [[[] | e] w2] eqn:E2; [| discriminate].
  unfold bind at 1.
  destruct (when_ _ _ w2) as [[[] | e] w3] eqn:E3; [| discriminate].
  intros E4.
  (* the STOP file *)
  assert (I1 : sandbox_with_marker c s m (list_byte_of_string ("STOP" +:+ NL)) w1).
  { destruct (write_bytes_ok _ _ _ _ E1) as (q & Hq & _ & _ & ->).
    apply locate_two in Hq as (Dc & DS & ->); [| exact Ns | exact Nm].
    fold c in Dc, DS |- *.
    unfold sandbox_with_marker. cbn [fs cwd handlers set_fs].
    refine (conj eq_refl (conj _ (conj _ (conj _ HT)))).
    - rewrite (node_at_same (fs w)); [exact Dc |].
      apply lookup_insert_ne. intros E. apply (f_equal length) in E.
      rewrite length_app in E. cbn in E. lia.
    - rewrite lookup_insert_ne; [exact DS |].
      intros E. apply (f_equal length) in E. rewrite !length_app in E. cbn in E. lia.
    - apply lookup_insert_eq. }
  (* the replicas *)
  assert (I2 : sandbox_with_marker c s m (list_byte_of_string ("STOP" +:+ NL)) w2
               /\ fs w2 !! (c ++ [s; r]) = None).
  { revert E2. unfold when_. rewrite (exists_two c s m r _ w1 Ns Nr I1).
    destruct (fs w1 !! (c ++ [s; r])) as [n |] eqn:En.
    - rewrite bool_decide_eq_true_2 by eauto. intros E2.
      destruct (rmtree_keeps_marker c s m r _ _ _ Ns Nr Hmr I1 E2) as (? & ? & _).
      auto.
    - rewrite bool_decide_eq_false_2 by (now intros [? ?]).
      intros [= <-]. auto. }
  destruct I2 as [I2 R2].
  (* the mock hosts *)
  assert (I3 : sandbox_with_marker c s m (list_byte_of_string ("STOP" +:+ NL)) w3
               /\ fs w3 !! (c ++ [s; r]) = None).
  { revert E3. unfold when_. rewrite (exists_two c s m h _ w2 Ns Nh I2).
    destruct (fs w2 !! (c ++ [s; h])) as [n |] eqn:En.
    - rewrite bool_decide_eq_true_2 by eauto. unfold bind.
      destruct (rmtree _ w2) as [[[] | e] w2a] eqn:Ea; [| discriminate].
      intros Eb.
      destruct (rmtree_keeps_marker c s m h _ _ _ Ns Nh Hmh I2 Ea) as (Ia & _ & Ra).
      destruct (mkdir_in_sandbox c s m h _ _ _ _ Ns Nh Hmh Ia Eb) as (Ib & Rb).
      split; [exact Ib |]. apply Rb; [| now apply Ra].
      intros ->. congruence.
    - rewrite bool_decide_eq_false_2 by (now intros [? ?]).
      intros [= <-]. auto. }
  destruct I3 as [I3 R3].
  (* the log line *)
  destruct (log_keeps_marker _ _ _ _ _ _ _ _ I3 E4) as [(Hc & Dc & DS & FT & _) R4].
  specialize (R4 _ R3).
  assert (Hst : stat (fs w') (cwd w') (mkPath false [s; r]) = inl ENOENT).
  { rewrite Hc. now apply stat_two_absent. }
  repeat split.
  - rewrite Em, Hc. now apply fs_read_two.
  - unfold exists_. now rewrite Er, Hst.
  - unfold WormDemo._next_index, WormDemo.copies, glob. rewrite Er, Hst. reflexivity.
Qed.

(** ** When [status] fails *)

Lemma never_raises_for_each {A} (l : list A) (body : A -> M unit) :
  (forall a, never_raises (body a)) -> never_raises (for_each l body).
Proof.
  intros Hb. induction l as [| a l IH]; cbn [for_each].
  - apply never_raises_ret.
  - apply never_raises_bind; [apply Hb | intros _; exact IH].
Qed.

Lemma never_raises_status_hosts (cfg : Config.cfg) :
  never_raises (WormDemo.status_hosts cfg).
Proof.
  intros w. unfold WormDemo.status_hosts, when_.
  destruct (exists_ w (WormDemo.hosts_root cfg)); [| eexists _, _; reflexivity].
  refine (never_raises_bind _ _ (never_raises_print _) _ w). intros _.
  apply never_raises_for_each. intros h w1. apply never_raises_print.
Qed.

(** The loop of [status] over the replicas: it reads every replica in
    turn and changes nothing but the output. *)
Lemma status_loop (cs : list PurePath) (w : world) :
  (fst (for_each cs (fun c => do h <- sha256 c ;
                              print (" - " +:+ name c +:+ "  sha256=" +:+ h)) w) = Ok tt
   <-> Forall (fun c => exists d, fs_read (fs w) (cwd w) c = inr d) cs)
  /\ (forall e, fst (for_each cs (fun c => do h <- sha256 c ;
                              print (" - " +:+ name c +:+ "  sha256=" +:+ h)) w)
                = Raise e -> exists en, e = OSError en).
Proof.
  set (body := fun c => do h <- sha256 c ;
                        print (" - " +:+ name c +:+ "  sha256=" +:+ h)).
  revert w. induction cs as [| c cs IH]; intros w; cbn [for_each].
  - split; [split; [constructor | reflexivity] | discriminate].
  - assert (Hstep :
      (body c ;; for_each cs body) w
      = match fs_read (fs w) (cwd w) c with
        | inl e => (Raise (OSError e), w)
        | inr d =>
            for_each cs body
              (set_stdout (stdout w ++ [" - " +:+ name c +:+ "  sha256="
                                        +:+ SHA256.hexdigest d]) w)
        end).
    { unfold bind, body, sha256, bind, read_bytes.
      destruct (fs_read (fs w) (cwd w) c); reflexivity. }
    rewrite Hstep. clear Hstep.
    destruct (fs_read (fs w) (cwd w) c) as [e | d] eqn:Hr.
    + cbn [fst]. split; [split; [discriminate |] | intros e' [= <-]; eauto].
      intros HF. inversion HF as [| ? ? [d Hd] _]. congruence.
    + match goal with |- context [for_each cs body ?w1] =>
        destruct (IH w1) as [IH1 IH2] end.
      cbn [fs cwd set_stdout] in IH1. split; [| exact IH2].
      rewrite IH1. split.
      * intros HF. constructor; [eauto | exact HF].
      * intros HF. now inversion HF.
Qed.

Lemma bind_print {B} (l : string) (k : M B) (w : world) :
  (print l ;; k) w = k (set_stdout (stdout w ++ [l]) w).
Proof. reflexivity. Qed.

(** X16: [status] ends normally exactly when every replica it lists can be
    read; with [colorama] available it lists no replica and always ends
    normally. *)
Theorem status_returns_iff_replicas_readable (cfg : Config.cfg) (colorama : bool)
  (w : world) :
  fst (WormDemo.status cfg colorama w) = Ok tt
  <-> (colorama = false ->
       exists_ w (WormDemo.sandbox cfg) = true ->
       exists_ w (WormDemo.replicas cfg) = true ->
       Forall (fun c => exists d, fs_read (fs w) (cwd w) c = inr d)
         (WormDemo.copies w (WormDemo.replicas cfg))).
Proof.
  unfold WormDemo.status.
  destruct (exists_ w (WormDemo.sandbox cfg)); cbn [negb];
    [| split; [intros _ _ [=] | reflexivity]].
  destruct colorama; [split; [intros _ [=] | reflexivity] |].
  rewrite !bind_print.
  match goal with |- context [bind (for_each ?cs ?b) ?k ?w1] =>
    assert (Hf : fs w1 = fs w) by reflexivity;
    assert (Hc : cwd w1 = cwd w) by reflexivity;
    generalize dependent w1; intros wp Hf Hc
  end.
  match goal with |- context [for_each ?cs ?b] =>
    destruct (status_loop cs wp) as [HL _]
  end.
  rewrite Hf, Hc in HL. unfold bind at 1.
  destruct (for_each _ _ wp) as [[[] | e] w2].
  - destruct (never_raises_status_hosts cfg w2) as ([] & w3 & ->). cbn [fst] in *.
    split; [intros _ _ _ Hr | reflexivity].
    rewrite Hr in HL. now apply HL.
  - cbn [fst] in *. split; [discriminate | intros HF].
    specialize (HF eq_refl eq_refl).
    destruct (exists_ w (WormDemo.replicas cfg)).
    + specialize (HF eq_refl). apply HL in HF. discriminate.
    + pose proof (proj2 HL ltac:(constructor)). discriminate.
Qed.

(** ** Listing a directory *)

Lemma NoDup_omap_inj {A B} (g : A -> option B) (l : list A) :
  (forall x y z, x ∈ l -> y ∈ l -> g x = Some z -> g y = Some z -> x = y) ->
  NoDup l -> NoDup (omap g l).
Proof.
  intros Hinj Hl. induction Hl as [| x l Hx Hl IH]; cbn [omap list_omap].
  - constructor.
  - assert (IH' : NoDup (omap g l)).
    { apply IH. intros a b z Ha Hb. apply Hinj; now right. }
    destruct (g x) as [z |] eqn:Hz; [| exact IH'].
    constructor; [| exact IH'].
    rewrite list_elem_of_omap. intros (y & Hy & Hgy).
    assert (E : x = y) by (apply (Hinj x y z); [now left | now right | auto | auto]).
    subst y. contradiction.
Qed.

Lemma listdir_entry (q p : path) (n : string) :
  match p with
  | [] => None
  | _ => if bool_decide (removelast p = q) then Some (List.last p "") else None
  end = Some n <-> p = q ++ [n].
Proof.
  split.
  - destruct p as [| a p']; [discriminate |].
    destruct (bool_decide (removelast (a :: p') = q)) eqn:Hb; [| discriminate].
    apply bool_decide_eq_true in Hb. intros H. apply (inj Some) in H.
    rewrite <- H, <- Hb. apply app_removelast_last. discriminate.
  - intros ->. destruct (q ++ [n]) as [| a p'] eqn:E; [destruct q; discriminate |].
    rewrite <- E, removelast_last, last_last.
    now rewrite bool_decide_eq_true_2.
Qed.

(** The listing of [q] names exactly the entries [q/n] of the map, each
    of them once. *)
Lemma elem_of_listdir (f : gmap path node) (q : path) (n : string) :
  n ∈ listdir f q <-> is_Some (f !! (q ++ [n])).
Proof.
  unfold listdir. rewrite merge_sort_Permutation, list_elem_of_omap. split.
  - intros ([p v] & Hin & Hg). apply elem_of_map_to_list in Hin.
    apply listdir_entry in Hg. subst p. eauto.
  - intros [v Hv]. exists (q ++ [n], v). split.
    + now apply elem_of_map_to_list.
    + now apply listdir_entry.
Qed.

Lemma NoDup_listdir (f : gmap path node) (q : path) : NoDup (listdir f q).
Proof.
  unfold listdir. rewrite merge_sort_Permutation.
  apply NoDup_omap_inj; [| apply NoDup_map_to_list].
  intros [p1 v1] [p2 v2] n I1 I2 H1 H2.
  apply listdir_entry in H1, H2. subst p1 p2.
  apply elem_of_map_to_list in I1, I2. congruence.
Qed.

Lemma Permutation_List_filter {A} (P : A -> bool) (l l' : list A) :
  l ≡ₚ l' -> List.filter P l ≡ₚ List.filter P l'.
Proof.
  induction 1 as [| x l l' _ IH | x y l | l l' l'' _ IH1 _ IH2]; cbn [List.filter].
  - reflexivity.
  - destruct (P x); [now constructor | exact IH].
  - destruct (P x), (P y); try reflexivity. apply perm_swap.
  - now transitivity (List.filter P l').
Qed.

(** Two maps with the same entries in [q] list the same names there. *)
Lemma listdir_same_entries (f f' : gmap path node) (q : path) :
  (forall n, is_Some (f' !! (q ++ [n])) <-> is_Some (f !! (q ++ [n]))) ->
  listdir f' q ≡ₚ listdir f q.
Proof.
  intros H. apply NoDup_Permutation; try apply NoDup_listdir.
  intros n. now rewrite !elem_of_listdir.
Qed.

(** ** v1.1: the replication limit *)

Lemma FileHandler_ok (p : PurePath) (w w' : world) :
  FileHandler p w = (Ok tt, w') ->
  exists q,
    locate (fs w) (cwd w) (absolute (resolve (cwd w) p)) = inr q
    /\ node_at (fs w) q <> Some Dir
    /\ handlers w' = handlers w ++ [q]
    /\ cwd w' = cwd w
    /\ dirs_kept (fs w) (fs w')
    /\ is_Some (fs w' !! q)
    /\ forall t, t <> q -> fs w' !! t = fs w !! t.
Proof.
  unfold FileHandler, fs_write.
  destruct (locate (fs w) (cwd w) (absolute (resolve (cwd w) p))) as [e | q] eqn:Hl;
    [discriminate |].
  destruct (node_at (fs w) q) as [[| old] |] eqn:Hn; [discriminate | |].
  - intros [= <-]. exists q. cbn [fs cwd handlers set_handlers set_fs].
    refine (conj eq_refl (conj _ (conj eq_refl (conj eq_refl (conj _ (conj _ _)))))).
    + congruence.
    + apply insert_file_dirs_kept. congruence.
    + rewrite lookup_insert_eq. eauto.
    + intros t Ht. now apply lookup_insert_ne.
  - unfold put. destruct q as [| a q]; [discriminate |].
    destruct (node_at (fs w) (removelast (a :: q))) as [[| x] |]; try discriminate.
    intros [= <-]. exists (a :: q). cbn [fs cwd handlers set_handlers set_fs].
    refine (conj eq_refl (conj _ (conj eq_refl (conj eq_refl (conj _ (conj _ _)))))).
    + congruence.
    + apply insert_file_dirs_kept. congruence.
    + rewrite lookup_insert_eq. eauto.
    + intros t Ht. now apply lookup_insert_ne.
Qed.

Lemma logs_only_refl (L : path) (w : world) : logs_only L w w.
Proof.
  refine (conj eq_refl (conj _ (conj _ (conj (dirs_kept_refl _) _)))); auto.
Qed.

Lemma logs_only_trans (L : path) (w1 w2 w3 : world) :
  logs_only L w1 w2 -> logs_only L w2 w3 -> logs_only L w1 w3.
Proof.
  intros (C1 & F1 & S1 & D1 & H1) (C2 & F2 & S2 & D2 & H2).
  refine (conj _ (conj _ (conj _ (conj _ _)))).
  - congruence.
  - intros t Ht Hn. rewrite F2, F1; auto.
    intros Hin. destruct (H1 _ Hin); contradiction.
  - intros t Ht. rewrite S2, S1; tauto.
  - eapply dirs_kept_trans; eauto.
  - intros t Hin. destruct (H2 _ Hin) as [Hin' | ->]; auto.
Qed.

Lemma logs_only_log (L : path) (level msg : string) (w w' : world) :
  log level msg w = (Ok tt, w') -> logs_only L w w'.
Proof.
  intros H.
  destruct (log_spec level msg w)
    as (w1 & E & C & _ & Hh & _ & _ & _ & _ & Hf & Hs & Hd).
  rewrite E in H. injection H as <-.
  refine (conj C (conj _ (conj _ (conj _ _)))).
  - intros t _ Hn. now apply Hf.
  - intros t _. apply Hs.
  - intros [| a p]; [auto |]. cbn [node_at]. apply Hd.
  - intros t Hin. left. now rewrite <- Hh.
Qed.

Lemma logs_only_FileHandler (L : path) (p : PurePath) (w : world) (r : res unit)
  (w' : world) :
  normal (cwd w) = true -> resolve (cwd w) p = L ->
  FileHandler p w = (r, w') -> logs_only L w w'.
Proof.
  intros Hn HL H. destruct r as [[] | e].
  - apply FileHandler_ok in H as (q & Hq & _ & Hh & C & K & _ & Hf).
    apply locate_absolute_normal in Hq; [| now apply resolve_normal].
    rewrite HL in Hq. subst q.
    refine (conj C (conj _ (conj _ (conj K _)))).
    + intros t Ht _. now apply Hf.
    + intros t Ht. now rewrite Hf.
    + intros t. rewrite Hh, elem_of_app, list_elem_of_singleton. tauto.
  - destruct (FileHandler_spec p w) as [(e' & E) | (q & w1 & E & _)];
      rewrite E in H; [| discriminate].
    injection H as _ <-. apply logs_only_refl.
Qed.

Lemma logs_only_add_file_logger (cfg : Config.cfg) (w : world) (r : res unit)
  (w' : world) :
  normal (cwd w) = true ->
  V1_1.add_file_logger cfg w = (r, w') ->
  r = Ok tt
  /\ logs_only (resolve (cwd w) (V1_1.sandbox cfg // Config.logfile cfg)) w w'.
Proof.
  intros Hn. unfold V1_1.add_file_logger, except_Exception. cbv zeta.
  unfold bind at 1.
  destruct (FileHandler _ w) as [[[] | e] w1] eqn:E1;
    pose proof (logs_only_FileHandler _ _ _ _ _ Hn eq_refl E1) as L1.
  - unfold logger_info.
    destruct (log_spec "INFO"
                ("Log file: " +:+ str (V1_1.sandbox cfg // Config.logfile cfg)) w1)
      as (w2 & E2 & _).
    rewrite E2. intros [= <- <-]. split; [reflexivity |].
    eapply logs_only_trans; [exact L1 | eapply logs_only_log; exact E2].
  - assert (Hw : forall msg, logger_warning msg w1 = (r, w') ->
                 r = Ok tt
                 /\ logs_only (resolve (cwd w) (V1_1.sandbox cfg // Config.logfile cfg))
                      w w').
    { intros msg. unfold logger_warning.
      destruct (log_spec "WARNING" msg w1) as (w2 & E2 & _). rewrite E2.
      intros [= <- <-]. split; [reflexivity |].
      eapply logs_only_trans; [exact L1 | eapply logs_only_log; exact E2]. }
    destruct (only_OSError_FileHandler _ _ _ _ E1) as [en ->]. apply Hw.
Qed.

Lemma is_dir_two (c : path) (a b : string) (w : world) :
  normal_name a = true -> normal_name b = true -> cwd w = c ->
  (is_dir w (mkPath false [a; b]) = true
   <-> node_at (fs w) c = Some Dir /\ fs w !! (c ++ [a]) = Some Dir
       /\ fs w !! (c ++ [a; b]) = Some Dir).
Proof.
  intros Ha Hb Hc. unfold is_dir. rewrite Hc, (stat_two _ _ _ _ Ha Hb).
  rewrite (node_at_snoc _ c [a]) by discriminate.
  destruct (node_at (fs w) c) as [[| x] |]; try (split; [discriminate | intros (? & _); discriminate]).
  destruct (fs w !! (c ++ [a])) as [[| x] |];
    try (split; [discriminate | intros (_ & ? & _); discriminate]).
  destruct (fs w !! (c ++ [a; b])) as [[| x] |];
    try (split; [discriminate | intros (_ & _ & ?); discriminate]).
  split; auto.
Qed.

Lemma length_ne_snoc (c : path) (l1 l2 : list string) :
  length l1 <> length l2 -> c ++ l1 <> c ++ l2.
Proof. intros H E. apply app_inv_head in E. congruence. Qed.

(** X17: v1.1 enforces the limit.  With plain names for the sandbox, the
    replica directory and the log file, once the replica directory holds
    [limit] replicas or more, [cmd_demo] returns normally and leaves
    every entry as it is, apart from the log file of the sandbox and the
    attached log files. *)
Theorem v1_1_limit_reached_changes_nothing (cfg : Config.cfg) (w : world)
  (res : res unit) (w' : world) :
  normal (cwd w) = true ->
  plain_name (Config.sandbox cfg) = true ->
  plain_name (Config.replica_dir cfg) = true ->
  plain_name (Config.logfile cfg) = true ->
  is_dir w (V1_1.replicas cfg) = true ->
  Config.limit cfg
    <= Z.of_nat (length (glob (fs w) (cwd w) (V1_1.replicas cfg) "w_copy_" ".py")) ->
  V1_1.cmd_demo cfg w = (res, w') ->
  res = Ok tt
  /\ forall t,
       t <> resolve (cwd w) (V1_1.sandbox cfg // Config.logfile cfg) ->
       (t ∉ handlers w) ->
       fs w' !! t = fs w !! t.
Proof.
  intros Hn Ps Pr Pl Hd Hlim H.
  set (s := Config.sandbox cfg) in *. set (r := Config.replica_dir cfg) in *.
  set (l := Config.logfile cfg) in *. set (c := cwd w) in *.
  destruct (plain_name_inv _ Ps) as (Ns & _ & _).
  destruct (plain_name_inv _ Pr) as (Nr & _ & _).
  destruct (plain_name_inv _ Pl) as (Nl & _ & _).
  assert (Es : V1_1.sandbox cfg = mkPath false [s])
    by (unfold V1_1.sandbox; fold s; now rewrite (Path_plain _ Ps)).
  assert (Er : V1_1.replicas cfg = mkPath false [s; r]).
  { unfold V1_1.replicas. rewrite Es. fold r. now rewrite (joinpath_plain _ _ Pr). }
  assert (EL : resolve c (V1_1.sandbox cfg // l) = c ++ [s; l]).
  { rewrite Es. rewrite (joinpath_plain _ _ Pl).
    unfold resolve. cbn [anchored parts app fold_left].
    rewrite (step_normal_name _ _ Ns), (step_normal_name _ _ Nl).
    now rewrite <- app_assoc. }
  rewrite EL. set (L := c ++ [s; l]) in *.
  rewrite Er in Hd, Hlim.
  apply (is_dir_two c s r w Ns Nr eq_refl) in Hd as (Dc & DS & DR).
  (* what survives logging *)
  assert (Hkeep : forall w1, logs_only L w w1 ->
            is_dir w1 (mkPath false [s; r]) = true
            /\ exists_ w1 (V1_1.sandbox cfg) = true
            /\ length (glob (fs w1) (cwd w1) (mkPath false [s; r]) "w_copy_" ".py")
               = length (glob (fs w) c (mkPath false [s; r]) "w_copy_" ".py")).
  { intros w1 (C1 & F1 & S1 & D1 & H1).
    assert (Dc1 : node_at (fs w1) c = Some Dir) by (apply D1; exact Dc).
    assert (DS1 : fs w1 !! (c ++ [s]) = Some Dir).
    { rewrite <- (node_at_snoc _ c [s]) by discriminate. apply D1.
      now rewrite (node_at_snoc _ c [s]) by discriminate. }
    assert (DR1 : fs w1 !! (c ++ [s; r]) = Some Dir).
    { rewrite <- (node_at_snoc _ c [s; r]) by discriminate. apply D1.
      now rewrite (node_at_snoc _ c [s; r]) by discriminate. }
    split; [apply (is_dir_two c s r w1 Ns Nr C1); auto |].
    split.
    - rewrite Es. unfold exists_, stat, locate. cbn [anchored parts walk].
      rewrite C1. fold c. rewrite Dc1, (step_normal_name _ _ Ns).
      rewrite (node_at_snoc _ c [s]) by discriminate. now rewrite DS1.
    - unfold glob. rewrite C1. fold c. rewrite !(stat_two _ _ _ _ Ns Nr), Dc, Dc1.
      rewrite !(node_at_snoc _ c [s]) by discriminate. rewrite DS, DS1, DR, DR1.
      rewrite !length_fmap. apply Permutation_length, Permutation_List_filter.
      apply listdir_same_entries. intros n. apply S1. unfold L.
      rewrite <- app_assoc. apply length_ne_snoc. discriminate. }
  (* the command *)
  unfold V1_1.cmd_demo in H.
  destruct (Hkeep w (logs_only_refl L w)) as (_ & Hex & _). rewrite Hex in H.
  cbn [negb] in H. unfold bind at 1 in H.
  destruct (V1_1.add_file_logger cfg w) as [r1 w1] eqn:E1.
  destruct (logs_only_add_file_logger _ _ _ _ Hn E1) as [-> L1].
  fold c l in L1. rewrite EL in L1. fold L in L1.
  assert (Hlog : forall level msg w2, logs_only L w w2 ->
            log level msg w2 = (res, w') ->
            res = Ok tt /\ forall t, t <> L -> t ∉ handlers w -> fs w' !! t = fs w !! t).
  { intros level msg w2 L2 E.
    destruct (log_spec level msg w2) as (w3 & E3 & _).
    rewrite E3 in E. injection E as <- <-. split; [reflexivity |].
    apply (logs_only_trans L w w2 w3 L2 (logs_only_log L _ _ _ _ E3)). }
  destruct (exists_ w1 (V1_1.marker cfg)); [eapply Hlog; eauto |].
  unfold bind at 1 in H. rewrite Er in H.
  destruct (Hkeep w1 L1) as (Hd1 & _ & Hcount).
  rewrite (mkdir_parents_existing w1 _ (exists_is_dir _ _ Hd1)), Hd1 in H.
  cbv zeta in H. rewrite Hcount in H.
  destruct (Z.ltb_spec (Config.limit cfg)
              (Z.of_nat (length (glob (fs w) c (mkPath false [s; r]) "w_copy_" ".py")) + 1))
    as [_ | Hge]; [| lia].
  eapply Hlog; eauto.
Qed.

(** ** A [--demo] run stays inside the sandbox *)

(** [mkdir(parents=True)] creates nothing but directories: the one asked
    for and those named by the leading parts of its path. *)
Lemma mkdir_rev_creates (anch : bool) (rparts : list string) (w : world)
  (r : res unit) (w' : world) :
  mkdir_rev anch rparts w = (r, w') ->
  forall t, fs w' !! t = fs w !! t
            \/ (t <> [] /\ fs w' !! t = Some Dir
                /\ exists k, t = resolve (cwd w) (mkPath anch (rev (drop k rparts)))).
Proof.
  revert w r w'. induction rparts as [| a rest IH]; intros w r w' H t.
  - cbn [mkdir_rev] in H.
    destruct (os_mkdir (mkPath anch (rev [])) w) as [r1 w1] eqn:E.
    destruct (os_mkdir_inv _ _ _ _ E) as [(e & -> & ->) | (-> & q & Hq & Hne & ->)].
    + left. destruct e; try (destruct (is_dir w _)); now injection H as <- <-.
    + injection H as <- <-. cbn [fs set_fs].
      destruct (decide (t = q)) as [-> | Hd]; [| left; now apply lookup_insert_ne].
      right. split; [exact Hne |]. split; [apply lookup_insert_eq |].
      exists O. now apply locate_resolve in Hq.
  - cbn [mkdir_rev] in H.
    assert (Hlast : forall w0 r0 w0', cwd w0 = cwd w ->
               os_mkdir (mkPath anch (rev (a :: rest))) w0 = (r0, w0') ->
               fs w0' !! t = fs w0 !! t
               \/ (t <> [] /\ fs w0' !! t = Some Dir
                   /\ exists k, t = resolve (cwd w)
                                      (mkPath anch (rev (drop k (a :: rest)))))).
    { intros w0 r0 w0' Hc E.
      destruct (os_mkdir_inv _ _ _ _ E) as [(e & _ & ->) | (_ & q & Hq & Hne & ->)];
        [now left |].
      cbn [fs set_fs].
      destruct (decide (t = q)) as [-> | Hd]; [| left; now apply lookup_insert_ne].
      right. split; [exact Hne |]. split; [apply lookup_insert_eq |].
      exists O. apply locate_resolve in Hq. now rewrite Hc in Hq. }
    destruct (os_mkdir (mkPath anch (rev (a :: rest))) w) as [r1 w1] eqn:E.
    pose proof (Hlast _ _ _ eq_refl E) as H1.
    destruct r1 as [[] | [m | e | n]]; try (now injection H as <- <-).
    destruct e; try (destruct (is_dir w1 _); now injection H as <- <-).
    destruct (os_mkdir_inv _ _ _ _ E) as [(e & _ & ->) | (Hr & _)]; [| discriminate].
    unfold bind in H.
    destruct (mkdir_rev anch rest w) as [[[] | e2] w2] eqn:E2.
    + destruct (mkdir_leaf_world _ _ _ _ H) as [r0 E3].
      destruct (grows_mkdir_rev _ _ _ _ _ E2) as (C2 & _ & _).
      destruct (grows_mkdir_leaf _ _ _ _ H) as (_ & _ & S3).
      destruct (Hlast _ _ _ C2 E3) as [Ht' | Ht']; [| now right].
      destruct (IH _ _ _ E2 t) as [Ht | (Hne & Hd & k & Hk)]; [left; congruence |].
      right. split; [exact Hne |]. split; [congruence |]. exists (S k). exact Hk.
    + injection H as <- <-.
      destruct (IH _ _ _ E2 t) as [Ht | (Hne & Hd & k & Hk)]; [now left |].
      right. split; [exact Hne |]. split; [exact Hd |]. exists (S k). exact Hk.
Qed.

(** A path of at most one part below the working directory, as a
    validated sandbox name gives: looking it up needs the working
    directory only. *)
Lemma stat_short (f : gmap path node) (c : path) (n : string) :
  Config.contains "/" n = false ->
  node_at f c = Some Dir ->
  stat f c (Path n)
  = match node_at f (resolve c (Path n)) with
    | Some x => inr (resolve c (Path n), x)
    | None => inl ENOENT
    end.
Proof.
  intros Hs Hc. rewrite (Path_no_slash _ Hs). unfold stat, locate, resolve.
  cbn [anchored parts]. destruct (kept_part n); cbn [walk fold_left].
  - now rewrite Hc.
  - reflexivity.
Qed.

Lemma resolve_short (c : path) (n : string) :
  Config.contains "/" n = false -> resolve c (Path n) = step c n.
Proof.
  intros Hs. rewrite (Path_no_slash _ Hs). unfold resolve, step.
  cbn [anchored parts].
  destruct (kept_part n) eqn:Hk; cbn [fold_left].
  - unfold step. now rewrite Hk.
  - destruct (String.eqb n "..") eqn:Hd; [| reflexivity].
    apply String.eqb_eq in Hd. subst n. discriminate.
Qed.

Lemma prefix_removelast {A} (l : list A) : removelast l `prefix_of` l.
Proof.
  destruct (decide (l = [])) as [-> | Hne]; [reflexivity |].
  destruct (exists_last Hne) as (l' & a & ->).
  rewrite removelast_last. now apply prefix_app_r.
Qed.

(** The proper prefixes of [step c n] are prefixes of [c]. *)
Lemma prefix_step (c t : path) (n : string) :
  t `prefix_of` step c n -> t = step c n \/ t `prefix_of` c.
Proof.
  unfold step. destruct (String.eqb n "..").
  - intros H. right. etransitivity; [exact H | apply prefix_removelast].
  - destruct (kept_part n); [| now right].
    intros [k Hk]. destruct (decide (k = [])) as [-> | Hne].
    + left. now rewrite app_nil_r in Hk.
    + right. destruct (exists_last Hne) as (k' & a & ->).
      rewrite app_assoc in Hk. apply app_inj_tail in Hk as [-> _]. now exists k'.
Qed.

Lemma node_at_dirs_kept_prefix (f f' : gmap path node) (c : path) :
  dirs_kept f f' ->
  (forall t, t `prefix_of` c -> node_at f t = Some Dir) ->
  forall t, t `prefix_of` c -> node_at f' t = Some Dir.
Proof. intros Hk Hi t Ht. apply Hk, Hi, Ht. Qed.

Lemma lookup_dir_weaken (f f' : gmap path node) (p : path) :
  p <> [] -> node_at f p = Some Dir -> f ⊆ f' -> f' !! p = f !! p.
Proof.
  destruct p as [| a p]; [contradiction |]. cbn [node_at]. intros _ Hd Hs.
  rewrite Hd. now apply (lookup_weaken _ _ _ _ Hd Hs).
Qed.

(** What building the [WormDemo] object changes in a new process: the
    sandbox directory may be created, and the log file is opened inside
    it. *)
Lemma init_object_confined (cfg : Config.cfg) (w w1 : world) :
  normal (cwd w) = true ->
  Config.contains "/" (Config.sandbox cfg) = false ->
  Config.contains "/" (Config.logfile cfg) = false ->
  (forall t, t `prefix_of` cwd w -> node_at (fs w) t = Some Dir) ->
  (exists_ w (WormDemo.sandbox cfg) = true -> is_dir w (WormDemo.sandbox cfg) = true) ->
  handlers w = [] ->
  WormDemo.__init__ cfg w = (Ok tt, w1) ->
  cwd w1 = cwd w
  /\ dirs_kept (fs w) (fs w1)
  /\ (forall t, ~ resolve (cwd w) (WormDemo.sandbox cfg) `prefix_of` t ->
                fs w1 !! t = fs w !! t)
  /\ (forall h, h ∈ handlers w1 ->
                resolve (cwd w) (WormDemo.sandbox cfg) `prefix_of` h)
  /\ (exists_ w1 (WormDemo.sandbox cfg) = true ->
      node_at (fs w1) (resolve (cwd w) (WormDemo.sandbox cfg)) = Some Dir).
Proof.
  intros Hn Hs Hl Hi Hsd Hh.
  unfold WormDemo.sandbox in *.
  set (c := cwd w) in *. set (s := Config.sandbox cfg) in *.
  set (R := resolve c (Path s)) in *.
  assert (ER : R = step c s) by (apply resolve_short; exact Hs).
  assert (Dc : node_at (fs w) c = Some Dir) by (apply Hi; reflexivity).
  assert (Hex : forall w0, cwd w0 = c -> node_at (fs w0) c = Some Dir ->
            exists_ w0 (Path s) = true -> is_Some (node_at (fs w0) R)).
  { intros w0 C0 D0. unfold exists_.
    rewrite C0, (stat_short _ _ _ Hs D0). fold R.
    destruct (node_at (fs w0) R); [eauto | discriminate]. }
  assert (Hisd : forall w0, cwd w0 = c -> node_at (fs w0) c = Some Dir ->
            is_dir w0 (Path s) = true -> node_at (fs w0) R = Some Dir).
  { intros w0 C0 D0. unfold is_dir.
    rewrite C0, (stat_short _ _ _ Hs D0). fold R.
    destruct (node_at (fs w0) R) as [[| x] |]; [reflexivity | discriminate | discriminate]. }
  (* creating the sandbox directory *)
  assert (Hmk : forall r0 w0, mkdir_parents (Path s) w = (r0, w0) ->
            cwd w0 = c /\ handlers w0 = [] /\ dirs_kept (fs w) (fs w0)
            /\ (forall t, ~ R `prefix_of` t -> fs w0 !! t = fs w !! t)
            /\ (exists_ w0 (Path s) = true -> node_at (fs w0) R = Some Dir)).
  { intros r0 w0 E.
    destruct (grows_mkdir_parents _ _ _ _ E) as (C0 & H0 & S0).
    pose proof (subseteq_dirs_kept _ _ S0) as K0.
    assert (Hch : forall t, fs w0 !! t = fs w !! t
                            \/ (t <> [] /\ fs w0 !! t = Some Dir
                                /\ (t = R \/ t = c))).
    { intros t. unfold mkdir_parents in E.
      destruct (mkdir_rev_creates _ _ _ _ _ E t) as [? | (Hne & Hd & k & Hk)];
        [now left |].
      right. split; [exact Hne |]. split; [exact Hd |].
      revert Hk. fold c. unfold R.
      rewrite (Path_no_slash _ Hs). cbn [anchored parts].
      destruct (kept_part s); cbn [rev app].
      - destruct k as [| k]; cbn [drop rev app]; [now left |].
        rewrite drop_nil. cbn [rev]. now right.
      - rewrite drop_nil. cbn [rev]. now left. }
    refine (conj C0 (conj _ (conj K0 (conj _ _)))).
    - congruence.
    - intros t Ht. destruct (Hch t) as [? | (Hne & _ & [-> | ->])];
        [assumption | now contradiction Ht |].
      now apply lookup_dir_weaken.
    - intros He.
      destruct (Hex w0 C0 (K0 _ Dc) He) as [n Hn0].
      destruct (Hch R) as [Es | (Hne & Hd & _)].
      + rewrite (node_at_same _ _ _ Es) in Hn0.
        rewrite (node_at_same _ _ _ Es).
        apply (Hisd w eq_refl Dc). apply Hsd.
        unfold exists_. fold c.
        rewrite (stat_short _ _ _ Hs Dc). fold R.
        now rewrite Hn0.
      + destruct R; [contradiction | exact Hd]. }
  (* the handler: two warnings, with no log file attached *)
  assert (Hwarn : forall msg w0 w2, handlers w0 = [] ->
            (logger_warning msg ;; logger_warning msg) w0 = (Ok tt, w2) ->
            cwd w2 = cwd w0 /\ handlers w2 = [] /\ fs w2 = fs w0).
  { intros msg w0 w2 H0. unfold bind, logger_warning, log. cbn [fst snd].
    intros [= <-]. cbn [fs cwd handlers set_fs set_stdout]. rewrite H0.
    repeat split. }
  unfold WormDemo.__init__, WormDemo._attach_file_logger, except_Exception.
  unfold WormDemo.log_path, WormDemo.sandbox. fold s.
  unfold bind at 1.
  destruct (mkdir_parents (Path s) w) as [[[] | e0] w0] eqn:E0;
    destruct (Hmk _ _ eq_refl) as (C0 & H0 & K0 & F0 & X0).
  2:{ (* the sandbox could not be made *)
    destruct (only_OSError_mkdir_parents _ _ _ _ E0) as [en ->].
    intros Hw. apply Hwarn in Hw as (C2 & H2 & F2); [| exact H0].
    refine (conj _ (conj _ (conj _ (conj _ _)))).
    - congruence.
    - now rewrite F2.
    - intros t Ht. rewrite F2. now apply F0.
    - intros h. rewrite H2. intros Hin. now apply elem_of_nil in Hin.
    - unfold exists_. rewrite C2, F2. exact X0. }
  unfold when_.
  destruct (negb _).
  2:{ intros [= <-]. refine (conj C0 (conj K0 (conj F0 (conj _ X0)))).
      intros h. rewrite H0. intros Hin. now apply elem_of_nil in Hin. }
  unfold bind at 1.
  destruct (FileHandler (Path s // Config.logfile cfg) w0) as [[[] | e1] w2] eqn:E1.
  - (* the log file is opened *)
    apply FileHandler_ok in E1 as (q & Hq & Hnd & Hh2 & C2 & K2 & _ & F2).
    unfold logger_info.
    match goal with |- context [log ?l ?m w2] =>
      destruct (log_spec l m w2)
        as (w3 & E3 & C3 & _ & Hh3 & _ & _ & _ & _ & Hf3 & _ & Hd3)
    end.
    rewrite E3. intros [= <-].
    assert (D0 : node_at (fs w0) R = Some Dir).
    { apply X0. apply exists_is_dir. eapply mkdir_parents_ok_is_dir. exact E0. }
    assert (Hqr : R `prefix_of` q).
    { apply locate_absolute_normal in Hq; [| now apply resolve_normal; rewrite C0].
      rewrite C0 in Hq.
      rewrite (resolve_join_no_slash _ _ _ Hl) in Hq. fold R in Hq.
      assert (HR : forall t, t `prefix_of` R -> node_at (fs w0) t = Some Dir).
      { intros t Ht. rewrite ER in Ht. apply prefix_step in Ht as [-> | Ht].
        - now rewrite <- ER.
        - apply K0, Hi, Ht. }
      unfold step in Hq.
      destruct (String.eqb (Config.logfile cfg) "..").
      - exfalso. apply Hnd. rewrite Hq. apply HR, prefix_removelast.
      - destruct (kept_part (Config.logfile cfg)); rewrite Hq;
          [now apply prefix_app_r | reflexivity]. }
    assert (K3 : dirs_kept (fs w2) (fs w3)).
    { intros [| a p]; [auto |]. cbn [node_at]. apply Hd3. }
    refine (conj _ (conj _ (conj _ (conj _ _)))).
    + congruence.
    + eapply dirs_kept_trans; [exact K0 |]. eapply dirs_kept_trans; eauto.
    + intros t Ht. rewrite Hf3, F2, F0; auto.
      * intros ->. now apply Ht.
      * rewrite Hh2, H0. cbn [app]. rewrite list_elem_of_singleton.
        intros ->. now apply Ht.
    + intros h. rewrite Hh3, Hh2, H0. cbn [app]. rewrite list_elem_of_singleton.
      now intros ->.
    + intros _. apply K3, K2, D0.
  - (* the log file cannot be opened *)
    destruct (FileHandler_spec (Path s // Config.logfile cfg) w0)
      as [(e & E) | (q & w' & E & _)]; rewrite E in E1; [| discriminate].
    injection E1 as <- <-.
    intros Hw. apply Hwarn in Hw as (C2 & H2 & F2); [| exact H0].
    refine (conj _ (conj _ (conj _ (conj _ _)))).
    + congruence.
    + now rewrite F2.
    + intros t Ht. rewrite F2. now apply F0.
    + intros h. rewrite H2. intros Hin. now apply elem_of_nil in Hin.
    + unfold exists_. rewrite C2, F2. exact X0.
Qed.

Lemma validated_no_slash (d : gmap string Config.pyval) :
  Config.validate_cfg d = Ok tt ->
  Config.contains "/" (Config.sandbox (Config.of_dict d)) = false
  /\ Config.contains "/" (Config.replica_dir (Config.of_dict d)) = false
  /\ Config.contains "/" (Config.logfile (Config.of_dict d)) = false.
Proof.
  intros Hv. unfold Config.of_dict. cbn [Config.sandbox Config.replica_dir Config.logfile].
  repeat split;
    match goal with |- context [Config.get d ?k] =>
      destruct (validated_names_have_no_slash d k Hv) as (s & -> & Hs);
        [unfold Config.name_keys; cbn; tauto | exact Hs]
    end.
Qed.

(** X18: A [--demo] run stays inside the sandbox.  With a configuration that
    [validate_cfg] accepts and whose replica directory is not [..], in a
    working directory that exists with its parents, and unless the sandbox
    name is taken by a file, a run of [--demo] -- whatever its options and
    however it ends -- changes no entry outside the sandbox directory: the
    sandbox, the log file, the replicas, the temporary files, the payload
    notes and the host copies are all inside. *)
Theorem run_demo_stays_in_sandbox (CFG : gmap string Config.pyval)
  (colorama pm sp pl : bool) (token : Z) (w : world) (r : res unit) (w' : world) :
  Config.validate_cfg CFG = Ok tt ->
  Config.replica_dir (Config.of_dict CFG) <> ".." ->
  normal (cwd w) = true ->
  (forall t, t `prefix_of` cwd w -> node_at (fs w) t = Some Dir) ->
  (exists_ w (WormDemo.sandbox (Config.of_dict CFG)) = true ->
   is_dir w (WormDemo.sandbox (Config.of_dict CFG)) = true) ->
  run CFG colorama (CmdDemo pm sp pl) token w = (r, w') ->
  forall t,
    ~ resolve (cwd w) (WormDemo.sandbox (Config.of_dict CFG)) `prefix_of` t ->
    fs w' !! t = fs w !! t.
Proof.
  intros Hv Hr Hn Hi Hsd H t Ht.
  destruct (validated_no_slash _ Hv) as (Ss & Sr & Sl).
  set (cfg := Config.of_dict CFG) in *.
  unfold run, main in H. rewrite Hv in H. fold cfg in H. unfold bind in H.
  destruct (never_raises_init_object cfg (fresh_process w)) as ([] & w1 & E1).
  rewrite E1 in H.
  destruct (init_object_confined cfg (fresh_process w) w1 Hn Ss Sl Hi Hsd eq_refl E1)
    as (C1 & K1 & F1 & H1 & D1).
  cbn [cwd fs fresh_process set_handlers set_stdout] in C1, K1, F1, H1, D1.
  set (c := cwd w) in *. set (R := resolve c (WormDemo.sandbox cfg)) in *.
  assert (ER : R = step c (Config.sandbox cfg)) by (apply resolve_short; exact Ss).
  destruct (demo_confined cfg pm sp pl token w1 r w') as [_ F2].
  - now rewrite C1.
  - intros He u Hu. rewrite C1 in Hu. fold R in Hu. rewrite ER in Hu.
    apply prefix_step in Hu as [-> | Hu].
    + rewrite <- ER. now apply D1.
    + apply K1, Hi, Hu.
  - rewrite C1. fold R. rewrite resolve_join_replica_name.
    unfold WormDemo.replicas. rewrite (resolve_join_no_slash _ _ _ Sr). fold R.
    intros E. apply (f_equal length) in E. rewrite length_app in E. cbn [length] in E.
    unfold step in E.
    destruct (String.eqb (Config.replica_dir cfg) "..") eqn:Hd;
      [apply String.eqb_eq in Hd; contradiction |].
    destruct (kept_part (Config.replica_dir cfg));
      [rewrite length_app in E; cbn [length] in E |]; lia.
  - exact H.
  - rewrite F2.
    + now apply F1.
    + now rewrite C1.
    + intros Hin. apply Ht. now apply H1.
Qed.

(** ** What [init] sets up *)

Lemma for_each_mkdir_ok {A} (l : list A) (f : A -> PurePath) (w w' : world) :
  for_each l (fun i => mkdir_parents (f i)) w = (Ok tt, w') ->
  forall i, i ∈ l -> is_dir w' (f i) = true.
Proof.
  revert w. induction l as [| a l IH]; intros w H i Hi.
  - now apply elem_of_nil in Hi.
  - cbn [for_each] in H. unfold bind in H.
    destruct (mkdir_parents (f a) w) as [[[] | e] w1] eqn:E1; [| discriminate].
    apply elem_of_cons in Hi as [-> | Hi]; [| eapply IH; eauto].
    assert (K : keeps_entries (for_each l (fun i => mkdir_parents (f i)))).
    { apply keeps_entries_for_each. intros j.
      apply keeps_entries_grows, grows_mkdir_parents. }
    destruct (K _ _ _ H) as [C X].
    eapply is_dir_extends; [exact C | exact X |].
    eapply mkdir_parents_ok_is_dir; eauto.
Qed.

(** X19: After a successful [init] everything the sandbox needs is in place:
    the sandbox directory, the STOP file, the manifest, the hosts root
    and the replica directory of every mock host; and unless the manifest
    is an attached log file, it holds the JSON text written by this
    call. *)
Theorem init_postcondition (cfg : Config.cfg) (colorama : bool) (w w' : world) :
  WormDemo.init cfg colorama w = (Ok tt, w') ->
  is_dir w' (WormDemo.sandbox cfg) = true
  /\ exists_ w' (WormDemo.marker cfg) = true
  /\ is_dir w' (WormDemo.hosts_root cfg) = true
  /\ (forall i, 1 <= i <= Config.host_count cfg ->
                is_dir w' (WormDemo.host_dir cfg i) = true)
  /\ exists_ w' (WormDemo.sandbox cfg // "manifest.json") = true
  /\ ((resolve (cwd w) (WormDemo.sandbox cfg // "manifest.json") ∉ handlers w) ->
      exists created,
        fs_read (fs w') (cwd w') (WormDemo.sandbox cfg // "manifest.json")
        = inr (list_byte_of_string (WormDemo.manifest cfg created))).
Proof.
  intros H.
  destruct (init_ok_post _ _ _ _ H) as [Hsb Hmk].
  apply init_ok_inv in H as (w1 & w2 & w3 & w4 & E1 & E2 & E3 & E4 & E5).
  set (mf := WormDemo.sandbox cfg // "manifest.json") in *.
  destruct (keeps_entries_log _ _ _ _ _ E5) as [C5 X5].
  (* the hosts *)
  unfold bind in E4.
  destruct (mkdir_parents (WormDemo.hosts_root cfg) w3) as [[[] | e] w3a] eqn:E4a;
    [| discriminate].
  assert (K4 : keeps_entries
                 (for_each (range1 (Config.host_count cfg))
                    (fun i => mkdir_parents (WormDemo.host_dir cfg i)))).
  { apply keeps_entries_for_each. intros j.
    apply keeps_entries_grows, grows_mkdir_parents. }
  destruct (K4 _ _ _ E4) as [C4 X4].
  destruct (grows_mkdir_parents _ _ _ _ E4a) as (C4a & H4a & S4a).
  assert (G4 : grows (for_each (range1 (Config.host_count cfg))
                        (fun i => mkdir_parents (WormDemo.host_dir cfg i)))).
  { generalize (range1 (Config.host_count cfg)). intros l.
    induction l as [| i l IH]; cbn [for_each].
    - intros w0 r w0' [= <- <-]. repeat split; reflexivity.
    - apply grows_bind; [apply grows_mkdir_parents | intros _; exact IH]. }
  destruct (G4 _ _ _ E4) as (_ & H4 & S4).
  (* the marker step *)
  assert (K3 : cwd w3 = cwd w2 /\ handlers w3 = handlers w2
               /\ extends (fs w2) (fs w3)
               /\ forall d, fs_read (fs w2) (cwd w2) mf = inr d ->
                            fs_read (fs w3) (cwd w3) mf = inr d).
  { revert E3. unfold when_.
    destruct (exists_ w2 (WormDemo.marker cfg)) eqn:Hm; cbn [negb].
    - intros [= <-].
      exact (conj eq_refl (conj eq_refl (conj (extends_refl _) (fun d Hd => Hd)))).
    - intros E3. pose proof (write_bytes_handlers _ _ _ _ _ E3) as H3.
      destruct (keeps_entries_write_bytes _ _ _ _ _ E3) as [C3 X3].
      refine (conj C3 (conj H3 (conj X3 _))).
      intros d Hd. destruct (write_bytes_ok _ _ _ _ E3) as (q & Hq & _ & Hnd & ->).
      cbn [fs cwd set_fs] in *.
      apply fs_read_node in Hd as Hd'. destruct Hd' as [Lm Nm].
      eapply fs_read_same; [now apply insert_file_dirs_kept | exact Lm | | exact Hd].
      apply lookup_insert_ne. intros ->.
      unfold exists_, stat in Hm. rewrite Hq in Hm.
      rewrite Nm in Hm. discriminate. }
  destruct K3 as (C3 & H3 & X3 & R3).
  destruct (keeps_entries_write_bytes _ _ _ _ _ E2) as [C2 X2].
  pose proof (write_bytes_handlers _ _ _ _ _ E2) as H2.
  destruct (grows_mkdir_parents _ _ _ _ E1) as (C1 & H1 & S1).
  repeat split.
  - exact Hsb.
  - exact Hmk.
  - eapply is_dir_extends; [exact C5 | exact X5 |].
    eapply is_dir_extends; [exact C4 | exact X4 |].
    eapply mkdir_parents_ok_is_dir; eauto.
  - intros i Hi.
    eapply is_dir_extends; [exact C5 | exact X5 |].
    eapply (for_each_mkdir_ok _ (WormDemo.host_dir cfg)); [exact E4 |].
    now apply elem_of_range1.
  - eapply exists_extends; [exact C5 | exact X5 |].
    eapply exists_extends; [exact C4 | exact X4 |].
    eapply exists_extends; [exact C4a | now apply subseteq_extends |].
    eapply exists_extends; [exact C3 | exact X3 |].
    eapply write_bytes_ok_exists; eauto.
  - intros Hh. exists (asctime w1).
    pose proof (write_then_read _ _ _ _ E2) as R2.
    apply R3 in R2.
    pose proof (fs_read_mono _ _ _ _ _ S4a R2) as R4a. rewrite <- C4a in R4a.
    pose proof (fs_read_mono _ _ _ _ _ S4 R4a) as R4. rewrite <- C4 in R4.
    unfold logger_info in E5.
    match type of E5 with log ?l ?m _ = _ =>
      destruct (log_spec l m w4) as (w5 & E & C & _ & _ & _ & _ & _ & _ & Hf & _ & Hd)
    end.
    rewrite E in E5. injection E5 as <-. rewrite C.
    eapply fs_read_same; [| apply (fs_read_located _ _ _ _ R4) | | exact R4].
    + intros [| a p]; [auto |]. cbn [node_at]. apply Hd.
    + apply Hf. rewrite H4, H4a, H3, H2, H1, C4, C4a, C3, C2, C1. exact Hh.
Qed.

(** ** A failed [_atomic_write] leaves its temporary file *)

Lemma walk_snoc_inv (f : gmap path node) (cur t : path) (l : list string) (a : string) :
  walk f cur (l ++ [a]) = inr t ->
  exists t', walk f cur l = inr t' /\ node_at f t' = Some Dir.
Proof.
  revert cur. induction l as [| b l IH]; intros cur; cbn [app walk].
  - destruct (node_at f cur) as [[| x] |] eqn:E; try discriminate. eauto.
  - destruct (node_at f cur) as [[| x] |]; try discriminate. apply IH.
Qed.

Lemma is_dir_parent (w : world) (p : PurePath) :
  is_dir w p = true ->
  exists q, locate (fs w) (cwd w) (parent p) = inr q /\ node_at (fs w) q = Some Dir.
Proof.
  unfold is_dir, stat, locate, parent. cbn [anchored parts].
  destruct (walk (fs w) _ (parts p)) as [e | t] eqn:Hw; [discriminate |].
  destruct (node_at (fs w) t) as [[| x] |] eqn:Hn; try discriminate. intros _.
  destruct (decide (parts p = [])) as [E | Hne].
  - rewrite E in *. cbn [removelast]. eauto.
  - destruct (exists_last Hne) as (l & a & E). rewrite E in *.
    rewrite removelast_last. eapply walk_snoc_inv; eauto.
Qed.

(** The temporary file in an existing directory [q]: it is created under
    a free name, unless all the candidate names are taken. *)
Lemma mkstemp_in_dir (fuel : nat) (d : PurePath) (q : path) (w : world)
  (r : res PurePath) (w' : world) :
  locate (fs w) (cwd w) d = inr q -> node_at (fs w) q = Some Dir ->
  mkstemp fuel d w = (r, w') ->
  cwd w' = cwd w /\ handlers w' = handlers w
  /\ ((r = Raise (OSError EEXIST) /\ fs w' = fs w)
      \/ exists n, r = Ok (absolute (q ++ [tmp_name n]))
                   /\ fs w !! (q ++ [tmp_name n]) = None
                   /\ fs w' = <[q ++ [tmp_name n] := File []]> (fs w)).
Proof.
  intros Hq Hd. revert w Hq Hd.
  induction fuel as [| fuel IH]; intros w Hq Hd; cbn [mkstemp].
  - intros [= <- <-]. auto.
  - rewrite Hq.
    destruct (node_at (fs w) (q ++ [tmp_name (tmp_seq w)])) as [nd |] eqn:Hc.
    + intros H. apply IH in H; [exact H | exact Hq | exact Hd].
    + unfold put. destruct (q ++ [tmp_name (tmp_seq w)]) as [| a l] eqn:Hcand;
        [destruct q; discriminate |].
      rewrite <- Hcand in *. rewrite removelast_last, Hd.
      intros [= <- <-]. cbn [fs cwd handlers set_fs set_tmp_seq].
      repeat split. right. exists (tmp_seq w). repeat split.
      rewrite Hcand in *. exact Hc.
Qed.

(** When one of the candidate names is free, the temporary file is made. *)
Lemma mkstemp_free (fuel : nat) (d : PurePath) (q : path) (w : world)
  (r : res PurePath) (w' : world) (k : nat) :
  locate (fs w) (cwd w) d = inr q -> node_at (fs w) q = Some Dir ->
  (k < fuel)%nat -> fs w !! (q ++ [tmp_name (tmp_seq w + k)]) = None ->
  mkstemp fuel d w = (r, w') ->
  exists n, r = Ok (absolute (q ++ [tmp_name n]))
            /\ fs w !! (q ++ [tmp_name n]) = None
            /\ fs w' = <[q ++ [tmp_name n] := File []]> (fs w).
Proof.
  intros Hq Hd. revert w k Hq Hd.
  induction fuel as [| fuel IH]; intros w k Hq Hd Hk Hfree; [lia |].
  cbn [mkstemp]. rewrite Hq.
  destruct (node_at (fs w) (q ++ [tmp_name (tmp_seq w)])) as [nd |] eqn:Hc.
  - destruct k as [| k].
    + rewrite Nat.add_0_r in Hfree.
      rewrite (node_at_snoc _ q [tmp_name (tmp_seq w)]) in Hc by discriminate.
      exfalso. revert Hc.
      refine (eq_ind _ (fun o => o = Some nd -> False) _ _ (eq_sym Hfree)).
      discriminate.
    + intros H.
      apply (IH (set_tmp_seq (S (tmp_seq w)) w) k) in H; [exact H | exact Hq | exact Hd | lia |].
      cbn [fs tmp_seq set_tmp_seq]. rewrite <- Hfree. f_equal. f_equal. f_equal. f_equal. lia.
  - unfold put. destruct (q ++ [tmp_name (tmp_seq w)]) as [| a l] eqn:Hcand;
      [destruct q; discriminate |].
    rewrite <- Hcand in *. rewrite removelast_last, Hd.
    intros [= <- <-]. cbn [fs cwd handlers set_fs set_tmp_seq].
    exists (tmp_seq w). repeat split.
    rewrite Hcand in *. exact Hc.
Qed.

(** X20: When the destination is an existing directory and a temporary name is
    free in its parent directory, [_atomic_write] never returns normally:
    an [OSError] is raised, and the temporary file it has made stays
    behind -- the file system afterwards is the one before with that one
    new file, which holds the bytes of the source or nothing. *)
Theorem atomic_write_failure_leaves_temp_file (src dst : PurePath) (s : list byte)
  (w : world) (r : res unit) (w' : world) (k : nat) :
  normal (cwd w) = true ->
  fs_read (fs w) (cwd w) src = inr s ->
  is_dir w dst = true ->
  (k < TMP_MAX)%nat ->
  fs w !! (resolve (cwd w) (parent dst) ++ [tmp_name (tmp_seq w + k)]) = None ->
  WormDemo._atomic_write src dst w = (r, w') ->
  (exists e, r = Raise (OSError e))
  /\ exists n d,
       (d = s \/ d = [])
       /\ fs w !! (resolve (cwd w) (parent dst) ++ [tmp_name n]) = None
       /\ fs w' = <[resolve (cwd w) (parent dst) ++ [tmp_name n] := File d]> (fs w).
Proof.
  intros Hn Hs Hd Hk Hfree.
  destruct (is_dir_parent _ _ Hd) as (q & Hq & Dq).
  pose proof (locate_resolve _ _ _ _ Hq) as Eq. rewrite <- Eq in *.
  assert (Hpar : is_dir w (parent dst) = true).
  { unfold is_dir, stat. now rewrite Hq, Dq. }
  unfold WormDemo._atomic_write, NamedTemporaryFile. unfold bind at 1.
  rewrite (mkdir_parents_existing w _ (exists_is_dir _ _ Hpar)), Hpar.
  unfold bind at 1.
  destruct (mkstemp TMP_MAX (parent dst) w) as [r2 w2] eqn:E2.
  destruct (mkstemp_in_dir _ _ _ _ _ _ Hq Dq E2) as (C2 & H2 & _).
  destruct (mkstemp_free _ _ _ _ _ _ _ Hq Dq Hk Hfree E2) as (n & -> & Hfresh & F2).
  set (cand := q ++ [tmp_name n]) in *.
  assert (Hcn : normal cand = true).
  { unfold cand, normal. rewrite forallb_app. fold (normal q).
    rewrite Eq, (resolve_normal _ _ Hn). reflexivity. }
  assert (Hsub : fs w ⊆ fs w2) by (rewrite F2; now apply insert_subseteq).
  pose proof (subseteq_dirs_kept _ _ Hsub) as K2.
  unfold bind at 1. unfold read_bytes at 1.
  rewrite C2, (fs_read_mono _ _ _ _ _ Hsub Hs).
  unfold bind at 1.
  destruct (write_bytes (absolute cand) s w2) as [[[] | e4] w4] eqn:E4.
  - destruct (write_bytes_ok _ _ _ _ E4) as (q4 & Hq4 & _ & Hnd & ->).
    apply locate_absolute_normal in Hq4; [| exact Hcn]. subst q4.
    intros E5.
    assert (Hr : exists e, r = Raise (OSError e)).
    { unfold is_dir, stat in Hd.
      destruct (locate (fs w) (cwd w) dst) as [e | qd] eqn:Ld; [discriminate |].
      destruct (node_at (fs w) qd) as [[| x] |] eqn:Nd; try discriminate.
      assert (K4 : dirs_kept (fs w) (<[cand := File s]> (fs w2))).
      { eapply dirs_kept_trans; [exact K2 | now apply insert_file_dirs_kept]. }
      assert (Ld4 : locate (<[cand := File s]> (fs w2)) (cwd w2) dst = inr qd).
      { unfold locate in *. rewrite C2. apply (walk_mono _ _ _ _ _ K4 Ld). }
      pose proof (K4 _ Nd) as Nd4.
      revert E5. unfold os_replace, fs_replace. cbn [fs cwd set_fs].
      destruct (stat _ _ (absolute cand)) as [e | [qs [| c]]];
        try (intros [= <- _]; eauto; fail).
      clear Ld Nd.
      destruct (locate _ _ dst) as [e | qd'] eqn:Ld'; [discriminate Ld4 |].
      injection Ld4 as ->.
      destruct (node_at _ qd) as [[| x] |]; try discriminate Nd4.
      intros [= <- _]. eauto. }
    split; [exact Hr |]. destruct Hr as [e ->].
    apply os_replace_raise in E5 as ->. cbn [fs set_fs].
    exists n, s. split; [now left |]. split; [exact Hfresh |].
    rewrite F2. apply insert_insert_eq.
  - apply write_bytes_raise in E4 as Hw. subst w4.
    destruct (only_OSError_write_bytes _ _ _ _ _ E4) as [en ->].
    intros [= <- <-]. split; [eauto |].
    exists n, []. split; [now right |]. split; [exact Hfresh | exact F2].
Qed.

(** ** v1.1: how [cmd_demo] ends, and where it writes *)

Lemma only_OSError_atomic_copy (src dst : PurePath) :
  raises_only_OSError (V1_1.atomic_copy src dst).
Proof. exact (only_OSError_atomic_write src dst). Qed.

Lemma never_raises_add_file_logger (cfg : Config.cfg) :
  never_raises (V1_1.add_file_logger cfg).
Proof.
  unfold V1_1.add_file_logger. apply never_raises_except_Exception.
  - cbv zeta. apply only_OSError_bind; [apply only_OSError_FileHandler | intros _].
    apply never_raises_only, never_raises_log.
  - intros s. apply never_raises_log.
Qed.

Lemma bind_ok {A B} (m : M A) (k : A -> M B) (w : world) (a : A) (w1 : world) :
  m w = (Ok a, w1) -> bind m k w = k a w1.
Proof. intros H. unfold bind. now rewrite H. Qed.

Lemma bind_raise {A B} (m : M A) (k : A -> M B) (w : world) (e : exn) (w1 : world) :
  m w = (Raise e, w1) -> bind m k w = (Raise e, w1).
Proof. intros H. unfold bind. now rewrite H. Qed.

(** X21: The only statuses [cmd_demo] of v1.1 passes to [sys.exit] are 2 (no
    sandbox), 3 (destination outside the sandbox) and 4 (the copy
    failed); any other ending is a normal return or an exception that
    escapes, as the one raised by creating the replica directory, which
    is outside the [try]. *)
Theorem v1_1_cmd_demo_outcomes (cfg : Config.cfg) (w : world) :
  let r := fst (V1_1.cmd_demo cfg w) in
  r = Ok tt \/ r = Raise (SystemExit 2) \/ r = Raise (SystemExit 3)
  \/ r = Raise (SystemExit 4) \/ escapes r.
Proof.
  cbv zeta. unfold V1_1.cmd_demo.
  destruct (negb (exists_ w (V1_1.sandbox cfg))).
  - right. left. apply log_then_exit.
  - destruct (never_raises_add_file_logger cfg w) as ([] & w1 & E1).
    rewrite (bind_ok _ _ _ _ _ E1).
    destruct (exists_ w1 (V1_1.marker cfg)).
    + left. unfold logger_info.
      destruct (log_spec "INFO" "STOP present; replication blocked." w1) as (w2 & -> & _).
      reflexivity.
    + destruct (mkdir_parents (V1_1.replicas cfg) w1) as [[[] | e] w2] eqn:E2.
      * rewrite (bind_ok _ _ _ _ _ E2). cbv zeta.
        destruct (Config.limit cfg <? _).
        -- left. unfold logger_info.
           destruct (log_spec "INFO" "Replication limit reached; no action taken." w2)
             as (w3 & -> & _). reflexivity.
        -- destruct (negb (is_within _ _ _)).
           ++ right. right. left. apply log_then_exit.
           ++ match goal with
              | |- context [except_OSError ?m _ w2] =>
                  destruct (except_OSError_outcome m
                              (fun e => "Copy failed: " +:+ errno_name e) 4 w2)
                    as [H | H]
              end; [| now left | now right; right; right; left].
              apply only_OSError_bind; [apply only_OSError_atomic_copy | intros _].
              apply only_OSError_bind;
                [apply never_raises_only, never_raises_log | intros _].
              apply only_OSError_bind; [apply only_OSError_sha256 | intros h1].
              apply only_OSError_bind;
                [apply never_raises_only, never_raises_log | intros _].
              apply only_OSError_bind; [apply only_OSError_sha256 | intros h2].
              apply never_raises_only, never_raises_log.
      * rewrite (bind_raise _ _ _ _ _ E2).
        destruct (only_OSError_mkdir_parents _ _ _ _ E2) as [en ->].
        right. right. right. right. eexists. split; [reflexivity | discriminate].
Qed.

Lemma step_comparable (c : path) (n : string) :
  c `prefix_of` step c n \/ step c n `prefix_of` c.
Proof.
  unfold step. destruct (String.eqb n "..").
  - right. apply prefix_removelast.
  - left. destruct (kept_part n); [now apply prefix_app_r | reflexivity].
Qed.

(** Creating the replica directory [sandbox/replica_dir] of v1.1, for
    names without a slash and a replica directory other than [..]: only
    that directory can be new. *)
Lemma confined_mkdir_replicas (cfg : Config.cfg) (c : path) :
  Config.contains "/" (Config.sandbox cfg) = false ->
  Config.contains "/" (Config.replica_dir cfg) = false ->
  Config.replica_dir cfg <> ".." ->
  confined c (resolve c (V1_1.sandbox cfg)) (mkdir_parents (V1_1.replicas cfg)).
Proof.
  intros Hs Hr Hdd w r w' Hc Hi H.
  destruct (grows_mkdir_parents _ _ _ _ H) as (C & Hh & Hsub).
  refine (conj _ (conj (subseteq_dirs_kept _ _ Hsub) (conj _ _))).
  - congruence.
  - intros h. now rewrite Hh.
  - intros t Ht _.
    unfold mkdir_parents in H.
    destruct (mkdir_rev_creates _ _ _ _ _ H t) as [E | (Hne & Hd & k & Hk)];
      [exact E |].
    rewrite Hc in Hk.
    assert (Hd2 : String.eqb (Config.replica_dir cfg) ".." = false)
      by (now apply String.eqb_neq).
    assert (Hcmp : t `prefix_of` resolve c (V1_1.sandbox cfg)
                   \/ resolve c (V1_1.sandbox cfg) `prefix_of` t).
    { revert Hk. clear -Hs Hr Hd2.
      unfold V1_1.replicas, V1_1.sandbox, joinpath.
      rewrite (Path_no_slash _ Hs), (Path_no_slash _ Hr). cbn [anchored parts].
      unfold resolve. cbn [anchored parts].
      assert (Hx : forall cur, cur `prefix_of` step cur (Config.replica_dir cfg)).
      { intros cur. unfold step. rewrite Hd2.
        destruct (kept_part (Config.replica_dir cfg));
          [now apply prefix_app_r | reflexivity]. }
      destruct (kept_part (Config.sandbox cfg)), (kept_part (Config.replica_dir cfg));
        cbn [app rev fold_left];
        destruct k as [| [| [| k]]]; cbn [drop rev app fold_left]; intros ->;
        try (left; reflexivity); try (right; apply Hx);
        try (destruct (step_comparable c (Config.sandbox cfg)); [left | right];
             assumption);
        rewrite ?drop_nil; cbn [rev fold_left];
        try (left; reflexivity);
        (destruct (step_comparable c (Config.sandbox cfg)); [left | right];
         assumption). }
    destruct Hcmp as [Hp | Hp]; [| contradiction].
    exact (lookup_dir_weaken _ _ _ Hne (Hi _ Hp) Hsub).
Qed.

(** X22: [cmd_demo] of v1.1 writes inside the sandbox.  For a sandbox and a
    replica directory named without a slash, the replica directory not
    being [..], and with the sandbox directory and the directories above
    it in place, [cmd_demo] -- however it ends -- changes no entry outside
    the sandbox directory other than its log file and the attached log
    files. *)
Theorem v1_1_cmd_demo_stays_in_sandbox (cfg : Config.cfg) (w : world)
  (r : res unit) (w' : world) :
  normal (cwd w) = true ->
  Config.contains "/" (Config.sandbox cfg) = false ->
  Config.contains "/" (Config.replica_dir cfg) = false ->
  Config.replica_dir cfg <> ".." ->
  (forall t, t `prefix_of` resolve (cwd w) (V1_1.sandbox cfg) ->
             node_at (fs w) t = Some Dir) ->
  V1_1.cmd_demo cfg w = (r, w') ->
  forall t,
    ~ resolve (cwd w) (V1_1.sandbox cfg) `prefix_of` t ->
    t <> resolve (cwd w) (V1_1.sandbox cfg // Config.logfile cfg) ->
    (t ∉ handlers w) ->
    fs w' !! t = fs w !! t.
Proof.
  intros Hn Hs Hr Hdd Hi H t Ht HtL Hth.
  set (c := cwd w) in *. set (R := resolve c (V1_1.sandbox cfg)) in *.
  set (L := resolve c (V1_1.sandbox cfg // Config.logfile cfg)) in *.
  unfold V1_1.cmd_demo in H.
  destruct (negb (exists_ w (V1_1.sandbox cfg))).
  { unfold bind, logger_error in H.
    destruct (log_spec "ERROR" "Sandbox not initialized. Run: w_demo_v2.py --init" w)
      as (w1 & E & _ & _ & _ & _ & _ & _ & _ & Hfs & _).
    rewrite E in H. injection H as _ <-. now apply Hfs. }
  destruct (V1_1.add_file_logger cfg w) as [r1 w1] eqn:E1.
  destruct (logs_only_add_file_logger _ _ _ _ Hn E1) as [-> (C1 & F1 & _ & K1 & H1)].
  fold c L in F1, H1.
  rewrite (bind_ok _ _ _ _ _ E1) in H.
  assert (Hi1 : forall u, u `prefix_of` R -> node_at (fs w1) u = Some Dir)
    by (intros u Hu; apply K1, Hi, Hu).
  assert (Hth1 : t ∉ handlers w1).
  { intros Hin. destruct (H1 _ Hin); contradiction. }
  transitivity (fs w1 !! t); [| exact (F1 t HtL Hth)].
  (* from here on everything happens inside the sandbox *)
  enough (Hc : cwd w' = c /\ dirs_kept (fs w1) (fs w')
               /\ (forall h, h ∈ handlers w' -> h ∈ handlers w1)
               /\ (forall u, ~ R `prefix_of` u -> u ∉ handlers w1 ->
                             fs w' !! u = fs w1 !! u))
    by (now apply Hc).
  destruct (exists_ w1 (V1_1.marker cfg));
    [exact (confined_log c R _ _ w1 r w' C1 Hi1 H) |].
  refine (confined_bind c R _ _ (confined_mkdir_replicas cfg c Hs Hr Hdd) _
            w1 r w' C1 Hi1 H).
  intros _ w2 r2 w2' C2 Hi2 H2. cbv zeta in H2. rewrite C2 in H2.
  destruct (Config.limit cfg <? _);
    [exact (confined_log c R _ _ w2 r2 w2' C2 Hi2 H2) |].
  set (idx := Z.of_nat (length (glob (fs w2) c (V1_1.replicas cfg) "w_copy_" ".py")) + 1)
    in *.
  change ("w_copy_" +:+ pretty idx +:+ ".py") with (WormDemo._replica_name idx) in H2.
  rewrite resolve_join_replica_name in H2.
  set (X := resolve c (V1_1.replicas cfg)) in *.
  assert (HnX : normal X = true) by (now apply resolve_normal).
  assert (HX : R `prefix_of` X).
  { unfold X, V1_1.replicas. rewrite (resolve_join_no_slash _ _ _ Hr). fold R.
    apply step_prefix; [reflexivity | now apply String.eqb_neq]. }
  destruct (negb (is_within c _ (V1_1.sandbox cfg))).
  - refine (confined_bind c R _ _ _ _ w2 r2 w2' C2 Hi2 H2);
      [apply confined_log | intros _; apply confined_sys_exit].
  - refine (confined_except_OSError c R _ _ _ _ w2 r2 w2' C2 Hi2 H2).
    + apply confined_bind;
        [apply (confined_atomic_write c R X);
           [exact HnX | apply replica_name_normal | exact HX]
        | intros _].
      apply confined_bind; [apply confined_log | intros _].
      apply confined_bind; [apply confined_sha256 | intros h1].
      apply confined_bind; [apply confined_log | intros _].
      apply confined_bind; [apply confined_sha256 | intros h2].
      apply confined_log.
    + intros e. apply confined_bind; [apply confined_log | intros _].
      apply confined_sys_exit.
Qed.

(** ** v1.1: [cmd_init] and [cmd_cleanup] *)

Lemma keeps_entries_FileHandler (p : PurePath) : keeps_entries (FileHandler p).
Proof.
  intros w [[] | e] w' H.
  - apply FileHandler_ok in H as (q & _ & _ & _ & C & K & Hq & Hf).
    split; [exact C |]. split; [| exact K].
    intros t Ht. destruct (decide (t = q)) as [-> | Hne]; [exact Hq |].
    now rewrite Hf.
  - destruct (FileHandler_spec p w) as [(e' & E) | (q & w1 & E & _)];
      rewrite E in H; [| discriminate].
    injection H as _ <-. split; [reflexivity | apply extends_refl].
Qed.

Lemma keeps_entries_except_Exception (m : M unit) (h : string -> M unit) :
  keeps_entries m -> (forall s, keeps_entries (h s)) ->
  keeps_entries (except_Exception m h).
Proof.
  intros Hm Hh w r w'. unfold except_Exception.
  destruct (m w) as [[[] | [s | e | n]] w1] eqn:E; intros H;
    try (injection H as <- <-; eapply Hm; eauto; fail);
    destruct (Hm _ _ _ E) as [C1 X1]; destruct (Hh _ _ _ _ H) as [C2 X2];
    (split; [congruence | eapply extends_trans; eauto]).
Qed.

Lemma keeps_entries_add_file_logger (cfg : Config.cfg) :
  keeps_entries (V1_1.add_file_logger cfg).
Proof.
  unfold V1_1.add_file_logger. apply keeps_entries_except_Exception.
  - cbv zeta. apply keeps_entries_bind; [apply keeps_entries_FileHandler | intros _].
    apply keeps_entries_log.
  - intros s. apply keeps_entries_log.
Qed.

(** X23: In v1.1 too, a [cmd_demo] that follows a successful [cmd_init] copies
    nothing: it returns normally, and apart from the log file of the
    sandbox and the attached log files no entry changes. *)
Theorem v1_1_init_then_demo_is_blocked (cfg : Config.cfg) (w w1 : world)
  (r : res unit) (w2 : world) :
  normal (cwd w) = true ->
  V1_1_cli.cmd_init cfg w = (Ok tt, w1) ->
  V1_1.cmd_demo cfg w1 = (r, w2) ->
  r = Ok tt
  /\ forall t,
       t <> resolve (cwd w) (V1_1.sandbox cfg // Config.logfile cfg) ->
       (t ∉ handlers w1) ->
       fs w2 !! t = fs w1 !! t.
Proof.
  intros Hn H1 H2.
  (* what [cmd_init] leaves *)
  assert (Hpost : cwd w1 = cwd w
                  /\ exists_ w1 (V1_1.sandbox cfg) = true
                  /\ exists_ w1 (V1_1.marker cfg) = true).
  { revert H1. unfold V1_1_cli.cmd_init. unfold bind at 1.
    destruct (mkdir_parents (V1_1.sandbox cfg) w) as [[[] | e] wa] eqn:Ea;
      [| discriminate].
    destruct (grows_mkdir_parents _ _ _ _ Ea) as (Ca & _ & _).
    pose proof (mkdir_parents_ok_is_dir _ _ _ Ea) as Da.
    unfold bind at 1.
    destruct (V1_1.add_file_logger cfg wa) as [[[] | e] wb] eqn:Eb; [| discriminate].
    destruct (keeps_entries_add_file_logger cfg _ _ _ Eb) as [Cb Xb].
    unfold except_OSError.
    match goal with |- context [match ?m wb with _ => _ end] =>
      destruct (m wb) as [[[] | e] wf] eqn:E end;
      [| destruct e as [x | e | n]; discriminate].
    intros [= <-]. revert E. unfold bind at 1.
    destruct (when_ _ _ wb) as [[[] | e] wc] eqn:Ec; [| discriminate].
    unfold bind at 1.
    destruct (write_text _ _ wc) as [[[] | e] wd] eqn:Ed; [| discriminate].
    intros Ee.
    assert (Kc : keeps_entries
              (when_ (fun w => negb (exists_ w (V1_1.marker cfg)))
                 (write_text (V1_1.marker cfg)
                    ("This STOP file prevents replication. "
                     +:+ "Remove it to allow up to " +:+ pretty (Config.limit cfg)
                     +:+ " harmless copies." +:+ NL))))
      by apply keeps_entries_when, keeps_entries_write_bytes.
    destruct (Kc _ _ _ Ec) as [Cc Xc].
    destruct (keeps_entries_write_bytes _ _ _ _ _ Ed) as [Cd Xd].
    destruct (keeps_entries_log _ _ _ _ _ Ee) as [Ce Xe].
    assert (Mc : exists_ wc (V1_1.marker cfg) = true).
    { revert Ec. unfold when_.
      destruct (exists_ wb (V1_1.marker cfg)) eqn:Hm; cbn [negb].
      - now intros [= <-].
      - apply write_bytes_ok_exists. }
    split; [congruence |]. split.
    - apply exists_is_dir.
      eapply is_dir_extends; [exact Ce | exact Xe |].
      eapply is_dir_extends; [exact Cd | exact Xd |].
      eapply is_dir_extends; [exact Cc | exact Xc |].
      eapply is_dir_extends; [exact Cb | exact Xb | exact Da].
    - eapply exists_extends; [exact Ce | exact Xe |].
      eapply exists_extends; [exact Cd | exact Xd | exact Mc]. }
  destruct Hpost as (C1 & Hs1 & Hm1).
  (* the blocked [cmd_demo] *)
  unfold V1_1.cmd_demo in H2. rewrite Hs1 in H2. cbn [negb] in H2.
  destruct (V1_1.add_file_logger cfg w1) as [ra wa] eqn:Ea.
  assert (Hn1 : normal (cwd w1) = true) by (now rewrite C1).
  destruct (logs_only_add_file_logger _ _ _ _ Hn1 Ea) as [-> La].
  rewrite C1 in La.
  destruct (keeps_entries_add_file_logger cfg _ _ _ Ea) as [Ca Xa].
  rewrite (bind_ok _ _ _ _ _ Ea) in H2.
  rewrite (exists_extends _ _ _ Ca Xa Hm1) in H2.
  unfold logger_info in H2.
  destruct (log_spec "INFO" "STOP present; replication blocked." wa) as (wb & Eb & _).
  rewrite Eb in H2. injection H2 as <- <-. split; [reflexivity |].
  apply (logs_only_trans _ _ _ _ La (logs_only_log _ _ _ _ _ Eb)).
Qed.

(** X24: After a successful [cmd_cleanup] of an existing sandbox with plain,
    distinct names the kill switch is back with the content [STOP] and the
    replica directory is gone -- provided the STOP file is neither the log
    file of the sandbox nor an attached log file. *)
Theorem v1_1_cleanup_restores_marker (cfg : Config.cfg) (w w' : world) :
  plain_name (Config.sandbox cfg) = true ->
  plain_name (Config.replica_dir cfg) = true ->
  plain_name (Config.marker cfg) = true ->
  Config.marker cfg <> Config.replica_dir cfg ->
  resolve (cwd w) (V1_1.marker cfg)
    <> resolve (cwd w) (V1_1.sandbox cfg // Config.logfile cfg) ->
  (resolve (cwd w) (V1_1.marker cfg) ∉ handlers w) ->
  normal (cwd w) = true ->
  exists_ w (V1_1.sandbox cfg) = true ->
  V1_1_cli.cmd_cleanup cfg w = (Ok tt, w') ->
  fs_read (fs w') (cwd w') (V1_1.marker cfg)
  = inr (list_byte_of_string ("STOP" +:+ NL))
  /\ exists_ w' (V1_1.replicas cfg) = false.
Proof.
  intros Ps Pr Pm Hmr HL HT Hn Hs H.
  set (s := Config.sandbox cfg) in *. set (r := Config.replica_dir cfg) in *.
  set (m := Config.marker cfg) in *. set (c := cwd w) in *.
  destruct (plain_name_inv _ Ps) as (Ns & _ & _).
  destruct (plain_name_inv _ Pr) as (Nr & _ & _).
  destruct (plain_name_inv _ Pm) as (Nm & _ & _).
  assert (Em : V1_1.marker cfg = mkPath false [s; m]).
  { unfold V1_1.marker, V1_1.sandbox. fold s m.
    now rewrite (Path_plain _ Ps), (joinpath_plain _ _ Pm). }
  assert (Er : V1_1.replicas cfg = mkPath false [s; r]).
  { unfold V1_1.replicas, V1_1.sandbox. fold s r.
    now rewrite (Path_plain _ Ps), (joinpath_plain _ _ Pr). }
  rewrite Em in HT, HL.
  assert (ET : resolve c (mkPath false [s; m]) = c ++ [s; m]).
  { unfold resolve. cbn [anchored parts fold_left].
    rewrite (step_normal_name _ _ Ns), (step_normal_name _ _ Nm).
    now rewrite <- app_assoc. }
  rewrite ET in HT, HL.
  unfold V1_1_cli.cmd_cleanup in H. rewrite Hs in H. cbn [negb] in H.
  (* the file logger *)
  destruct (V1_1.add_file_logger cfg w) as [ra wa] eqn:Ea.
  destruct (logs_only_add_file_logger _ _ _ _ Hn Ea) as [-> La].
  fold c in La. destruct La as (Ca & Fa & Sa & Da & Ha). fold c in Ca.
  rewrite (bind_ok _ _ _ _ _ Ea) in H.
  assert (HTa : (c ++ [s; m]) ∉ handlers wa).
  { intros Hin. destruct (Ha _ Hin) as [? | ?]; [now apply HT | now apply HL]. }
  (* the steps inside the [try] *)
  unfold except_OSError in H. rewrite Em, Er in H.
  match type of H with context [match ?b wa with _ => _ end] =>
    destruct (b wa) as [[[] | e] wf] eqn:E end;
    [| destruct e as [x | e | n]; discriminate].
  injection H as ->. revert E. unfold bind at 1, write_text.
  destruct (write_bytes _ _ wa) as [[[] | e] w1] eqn:E1; [| discriminate].
  unfold bind at 1.
  destruct (when_ _ _ w1) as [[[] | e] w2] eqn:E2; [| discriminate].
  intros E4.
  (* the STOP file *)
  assert (I1 : sandbox_with_marker c s m (list_byte_of_string ("STOP" +:+ NL)) w1).
  { destruct (write_bytes_ok _ _ _ _ E1) as (q & Hq & _ & _ & ->).
    rewrite Ca in Hq.
    apply locate_two in Hq as (Dc & DS & ->); [| exact Ns | exact Nm].
    unfold sandbox_with_marker. cbn [fs cwd handlers set_fs].
    refine (conj Ca (conj _ (conj _ (conj _ HTa)))).
    - rewrite (node_at_same (fs wa)); [exact Dc |].
      apply lookup_insert_ne. intros E. apply (f_equal length) in E.
      rewrite length_app in E. cbn in E. lia.
    - rewrite lookup_insert_ne; [exact DS |].
      intros E. apply (f_equal length) in E. rewrite !length_app in E. cbn in E. lia.
    - apply lookup_insert_eq. }
  (* the replicas *)
  assert (I2 : sandbox_with_marker c s m (list_byte_of_string ("STOP" +:+ NL)) w2
               /\ fs w2 !! (c ++ [s; r]) = None).
  { revert E2. unfold when_. rewrite (exists_two c s m r _ w1 Ns Nr I1).
    destruct (fs w1 !! (c ++ [s; r])) as [n |] eqn:En.
    - rewrite bool_decide_eq_true_2 by eauto. intros E2.
      destruct (rmtree_keeps_marker c s m r _ _ _ Ns Nr Hmr I1 E2) as (? & ? & _).
      auto.
    - rewrite bool_decide_eq_false_2 by (now intros [? ?]).
      intros [= <-]. auto. }
  destruct I2 as [I2 R2].
  (* the log line *)
  destruct (log_keeps_marker _ _ _ _ _ _ _ _ I2 E4) as [(Hc & Dc & DS & FT & _) R4].
  specialize (R4 _ R2).
  assert (Hst : stat (fs w') (cwd w') (mkPath false [s; r]) = inl ENOENT).
  { rewrite Hc. now apply stat_two_absent. }
  split.
  - rewrite Em, Hc. now apply fs_read_two.
  - unfold exists_. now rewrite Er, Hst.
Qed.

(** ** The constructor and the payload never fail *)

(** X7: [_payload] catches every exception of its body: it always returns
    normally, whatever the target directory and the file system are, and
    the only entries it can change are the note [friendly_note.txt] in the
    target directory and the attached log files. *)
Theorem payload_never_raises (target_dir : PurePath) (w : world) :
  exists w',
    WormDemo._payload target_dir w = (Ok tt, w')
    /\ cwd w' = cwd w
    /\ forall t,
         t <> resolve (cwd w) (target_dir // "friendly_note.txt") ->
         t ∉ handlers w ->
         fs w' !! t = fs w !! t.
Proof.
  destruct (never_raises_payload target_dir w) as ([] & w' & E).
  exists w'. split; [exact E |].
  revert E. unfold WormDemo._payload, except_Exception, bind, write_text.
  destruct (write_bytes _ _ w) as [[[] | e] w1] eqn:E1.
  - destruct (write_bytes_ok _ _ _ _ E1) as (q & Hq & _ & _ & ->).
    apply locate_resolve in Hq. subst q. unfold logger_info.
    match goal with |- context [log ?l ?m ?w0] =>
      destruct (log_spec l m w0) as (w2 & E2 & C2 & _ & _ & _ & _ & _ & _ & F2 & _)
    end.
    rewrite E2. intros [= <-]. split; [exact C2 |].
    intros t Ht Hh. rewrite F2 by exact Hh. cbn [fs set_fs].
    now apply lookup_insert_ne.
  - apply write_bytes_raise in E1 as Hw. subst w1.
    destruct (only_OSError_write_bytes _ _ _ _ _ E1) as [en ->].
    unfold logger_warning.
    match goal with |- context [log ?l ?m ?w0] =>
      destruct (log_spec l m w0) as (w2 & E2 & C2 & _ & _ & _ & _ & _ & _ & F2 & _)
    end.
    rewrite E2. intros [= <-]. split; [exact C2 |].
    intros t _ Hh. now apply F2.
Qed.

(** X8: Building the [WormDemo] object always returns normally: whatever goes
    wrong while the sandbox directory is made or the log file is opened
    is caught and only logged, twice. *)
Theorem init_object_never_raises (cfg : Config.cfg) :
  never_raises (WormDemo.__init__ cfg).
Proof. apply never_raises_init_object. Qed.

(** ** The properties at sample inputs *)

Lemma dirs_above_check (f : gmap path node) (R : path) :
  forallb (fun n => is_dir_node (node_at f (take n R))) (seq 0 (S (length R))) = true ->
  forall t, t `prefix_of` R -> node_at f t = Some Dir.
Proof.
  intros H t [k ->]. rewrite forallb_forall in H.
  specialize (H (length t)). rewrite take_app_length in H.
  assert (Hin : In (length t) (seq 0 (S (length (t ++ k))))).
  { apply in_seq. rewrite length_app. lia. }
  specialize (H Hin). unfold is_dir_node in H.
  destruct (node_at f t) as [[| d] |]; congruence.
Qed.


Lemma validated_paths_one_level_witness :
  let cfg := Config.of_dict CFG_dict in
  let S := resolve home (WormDemo.sandbox cfg) in
  (S = home ++ [Config.sandbox cfg] \/ S = home \/ S = removelast home)
  /\ Forall (fun '(p, n) => resolve home p = S ++ [n] \/ resolve home p = S
                            \/ resolve home p = removelast S)
       [(WormDemo.replicas cfg, Config.replica_dir cfg);
        (WormDemo.hosts_root cfg, Config.hosts_root cfg);
        (WormDemo.marker cfg, Config.marker cfg);
        (WormDemo.log_path cfg, Config.logfile cfg)].
Proof. apply (validated_paths_one_level CFG_dict home). vm_compute. reflexivity. Defined.



Lemma host_guard_rejects_parent_witness :
  is_within home (absolute (resolve home (WormDemo.host_dir CFG_dotdot_hosts 1)))
    (WormDemo.sandbox CFG_dotdot_hosts) = false.
Proof.
  apply (host_guard_rejects_parent CFG_dotdot_hosts home 1);
    try reflexivity; vm_compute; discriminate.
Defined.

Lemma demo_not_initialized_witness :
  exists w', WormDemo.demo Config.CFG true true true 12345 w_fresh
             = (Raise (SystemExit 2), w')
             /\ fs w' = fs w_fresh.
Proof.
  apply (demo_not_initialized Config.CFG true true true 12345 w_fresh);
    reflexivity.
Defined.

Lemma init_then_demo_is_blocked_witness :
  exists w2,
    WormDemo.demo Config.CFG true true true 12345
      (snd (WormDemo.init Config.CFG false w_fresh)) = (Ok tt, w2)
    /\ stdout w2 = stdout (snd (WormDemo.init Config.CFG false w_fresh))
                   ++ ["[INFO] STOP present; replication blocked."]
    /\ forall p, p ∉ handlers (snd (WormDemo.init Config.CFG false w_fresh)) ->
                 fs w2 !! p = fs (snd (WormDemo.init Config.CFG false w_fresh)) !! p.
Proof.
  apply (init_then_demo_is_blocked Config.CFG false true true true 12345 w_fresh).
  vm_compute. reflexivity.
Defined.

Lemma init_keeps_existing_marker_witness :
  fs_read (fs (snd (WormDemo.init Config.CFG false (fresh_process w_init))))
    (cwd (snd (WormDemo.init Config.CFG false (fresh_process w_init))))
    (WormDemo.marker Config.CFG)
  = inr (list_byte_of_string
           ("This STOP file prevents replication. Remove it to allow up to "
            +:+ pretty (Config.limit Config.CFG) +:+ " harmless copies." +:+ NL)).
Proof.
  apply (init_keeps_existing_marker Config.CFG false (fresh_process w_init)).
  - vm_compute. reflexivity.
  - vm_compute. discriminate.
  - vm_compute. apply not_elem_of_nil.
  - vm_compute. reflexivity.
Defined.

Lemma demo_stays_in_sandbox_witness :
  fs (snd (WormDemo.demo Config.CFG true true true 12345 w_armed_call))
    !! ["opt"; "replicant_v1.2.py"]
  = fs w_armed_call !! ["opt"; "replicant_v1.2.py"].
Proof.
  apply (demo_stays_in_sandbox Config.CFG true true true 12345 w_armed_call
           (fst (WormDemo.demo Config.CFG true true true 12345 w_armed_call))).
  - vm_compute. reflexivity.
  - apply dirs_above_check. vm_compute. reflexivity.
  - vm_compute. discriminate.
  - vm_compute. reflexivity.
  - apply (bool_decide_eq_false_1 _). vm_compute. reflexivity.
  - apply (bool_decide_eq_false_1 _). vm_compute. reflexivity.
Defined.

Lemma atomic_write_all_or_nothing_witness :
  cwd (snd (WormDemo._atomic_write (absolute (script w_init))
              (WormDemo.marker Config.CFG) (fresh_process w_init)))
  = cwd (fresh_process w_init)
  /\ fs_read
       (fs (snd (WormDemo._atomic_write (absolute (script w_init))
                   (WormDemo.marker Config.CFG) (fresh_process w_init))))
       (cwd (snd (WormDemo._atomic_write (absolute (script w_init))
                    (WormDemo.marker Config.CFG) (fresh_process w_init))))
       (WormDemo.marker Config.CFG)
     = inr script_bytes.
Proof.
  apply (atomic_write_all_or_nothing (absolute (script w_init))
           (WormDemo.marker Config.CFG) script_bytes
           (list_byte_of_string
              ("This STOP file prevents replication. Remove it to allow up to "
               +:+ pretty (Config.limit Config.CFG) +:+ " harmless copies." +:+ NL))
           (fresh_process w_init) (Ok tt)); vm_compute; reflexivity.
Defined.

Lemma cleanup_restores_marker_witness :
  fs_read (fs (snd (WormDemo.cleanup Config.CFG w_spread)))
    (cwd (snd (WormDemo.cleanup Config.CFG w_spread)))
    (WormDemo.marker Config.CFG)
  = inr (list_byte_of_string ("STOP" +:+ NL))
  /\ exists_ (snd (WormDemo.cleanup Config.CFG w_spread))
       (WormDemo.replicas Config.CFG) = false
  /\ WormDemo._next_index Config.CFG (snd (WormDemo.cleanup Config.CFG w_spread)) = 1.
Proof.
  apply (cleanup_restores_marker Config.CFG w_spread).
  - vm_compute. reflexivity.
  - vm_compute. reflexivity.
  - vm_compute. reflexivity.
  - vm_compute. reflexivity.
  - vm_compute. discriminate.
  - vm_compute. discriminate.
  - apply (bool_decide_eq_false_1 _). vm_compute. reflexivity.
  - vm_compute. reflexivity.
Defined.

Lemma v1_1_limit_reached_changes_nothing_witness :
  fst (V1_1.cmd_demo Config.CFG w_at_limit) = Ok tt
  /\ forall t,
       t <> resolve (cwd w_at_limit)
              (V1_1.sandbox Config.CFG // Config.logfile Config.CFG) ->
       (t ∉ handlers w_at_limit) ->
       fs (snd (V1_1.cmd_demo Config.CFG w_at_limit)) !! t = fs w_at_limit !! t.
Proof.
  apply (v1_1_limit_reached_changes_nothing Config.CFG w_at_limit).
  - vm_compute. reflexivity.
  - vm_compute. reflexivity.
  - vm_compute. reflexivity.
  - vm_compute. reflexivity.
  - vm_compute. reflexivity.
  - vm_compute. discriminate.
  - vm_compute. reflexivity.
Defined.

Lemma run_demo_stays_in_sandbox_witness :
  fs (snd (run CFG_dict false (CmdDemo true true true) 12345 w_armed))
    !! ["opt"; "replicant_v1.2.py"]
  = fs w_armed !! ["opt"; "replicant_v1.2.py"].
Proof.
  apply (run_demo_stays_in_sandbox CFG_dict false true true true 12345 w_armed
           (fst (run CFG_dict false (CmdDemo true true true) 12345 w_armed))).
  - vm_compute. reflexivity.
  - vm_compute. discriminate.
  - vm_compute. reflexivity.
  - apply dirs_above_check. vm_compute. reflexivity.
  - intros _. vm_compute. reflexivity.
  - vm_compute. reflexivity.
  - apply (bool_decide_eq_false_1 _). vm_compute. reflexivity.
Defined.

Lemma init_postcondition_witness :
  is_dir (snd (WormDemo.init Config.CFG false w_fresh)) (WormDemo.sandbox Config.CFG)
  = true
  /\ exists_ (snd (WormDemo.init Config.CFG false w_fresh)) (WormDemo.marker Config.CFG)
     = true
  /\ is_dir (snd (WormDemo.init Config.CFG false w_fresh)) (WormDemo.hosts_root Config.CFG)
     = true
  /\ (forall i, 1 <= i <= Config.host_count Config.CFG ->
                is_dir (snd (WormDemo.init Config.CFG false w_fresh))
                  (WormDemo.host_dir Config.CFG i) = true)
  /\ exists_ (snd (WormDemo.init Config.CFG false w_fresh))
       (WormDemo.sandbox Config.CFG // "manifest.json") = true
  /\ ((resolve (cwd w_fresh) (WormDemo.sandbox Config.CFG // "manifest.json")
         ∉ handlers w_fresh) ->
      exists created,
        fs_read (fs (snd (WormDemo.init Config.CFG false w_fresh)))
          (cwd (snd (WormDemo.init Config.CFG false w_fresh)))
          (WormDemo.sandbox Config.CFG // "manifest.json")
        = inr (list_byte_of_string (WormDemo.manifest Config.CFG created))).
Proof.
  apply (init_postcondition Config.CFG false w_fresh). vm_compute. reflexivity.
Defined.

Lemma atomic_write_failure_leaves_temp_file_witness :
  (exists e,
     fst (WormDemo._atomic_write (absolute (script w_init))
            (WormDemo.sandbox Config.CFG) (fresh_process w_init))
     = Raise (OSError e))
  /\ exists n d,
       (d = script_bytes \/ d = [])
       /\ fs (fresh_process w_init)
            !! (resolve (cwd (fresh_process w_init))
                  (parent (WormDemo.sandbox Config.CFG)) ++ [tmp_name n]) = None
       /\ fs (snd (WormDemo._atomic_write (absolute (script w_init))
                     (WormDemo.sandbox Config.CFG) (fresh_process w_init)))
          = <[resolve (cwd (fresh_process w_init))
                (parent (WormDemo.sandbox Config.CFG)) ++ [tmp_name n] := File d]>
              (fs (fresh_process w_init)).
Proof.
  apply (atomic_write_failure_leaves_temp_file (absolute (script w_init))
           (WormDemo.sandbox Config.CFG) script_bytes (fresh_process w_init)
           (fst (WormDemo._atomic_write (absolute (script w_init))
                   (WormDemo.sandbox Config.CFG) (fresh_process w_init)))
           (snd (WormDemo._atomic_write (absolute (script w_init))
                   (WormDemo.sandbox Config.CFG) (fresh_process w_init)))
           0%nat).
  - vm_compute. reflexivity.
  - vm_compute. reflexivity.
  - vm_compute. reflexivity.
  - apply Nat.ltb_lt. vm_compute. reflexivity.
  - vm_compute. reflexivity.
  - apply surjective_pairing.
Defined.

Lemma v1_1_cmd_demo_stays_in_sandbox_witness :
  fs (snd (V1_1.cmd_demo Config.CFG (fresh_process w_armed)))
    !! ["opt"; "replicant_v1.2.py"]
  = fs (fresh_process w_armed) !! ["opt"; "replicant_v1.2.py"].
Proof.
  apply (v1_1_cmd_demo_stays_in_sandbox Config.CFG (fresh_process w_armed)
           (fst (V1_1.cmd_demo Config.CFG (fresh_process w_armed)))).
  - vm_compute. reflexivity.
  - vm_compute. reflexivity.
  - vm_compute. reflexivity.
  - vm_compute. discriminate.
  - apply dirs_above_check. vm_compute. reflexivity.
  - vm_compute. reflexivity.
  - apply (bool_decide_eq_false_1 _). vm_compute. reflexivity.
  - vm_compute. discriminate.
  - apply (bool_decide_eq_false_1 _). vm_compute. reflexivity.
Defined.

Lemma v1_1_init_then_demo_is_blocked_witness :
  fst (V1_1.cmd_demo Config.CFG (snd (V1_1_cli.cmd_init Config.CFG w_fresh))) = Ok tt
  /\ forall t,
       t <> resolve (cwd w_fresh)
              (V1_1.sandbox Config.CFG // Config.logfile Config.CFG) ->
       (t ∉ handlers (snd (V1_1_cli.cmd_init Config.CFG w_fresh))) ->
       fs (snd (V1_1.cmd_demo Config.CFG (snd (V1_1_cli.cmd_init Config.CFG w_fresh)))) !! t
       = fs (snd (V1_1_cli.cmd_init Config.CFG w_fresh)) !! t.
Proof.
  apply (v1_1_init_then_demo_is_blocked Config.CFG w_fresh).
  - vm_compute. reflexivity.
  - vm_compute. reflexivity.
  - apply surjective_pairing.
Defined.

Lemma v1_1_cleanup_restores_marker_witness :
  fs_read (fs (snd (V1_1_cli.cmd_cleanup Config.CFG w_at_limit)))
    (cwd (snd (V1_1_cli.cmd_cleanup Config.CFG w_at_limit)))
    (V1_1.marker Config.CFG)
  = inr (list_byte_of_string ("STOP" +:+ NL))
  /\ exists_ (snd (V1_1_cli.cmd_cleanup Config.CFG w_at_limit))
       (V1_1.replicas Config.CFG) = false.
Proof.
  apply (v1_1_cleanup_restores_marker Config.CFG w_at_limit).
  - vm_compute. reflexivity.
  - vm_compute. reflexivity.
  - vm_compute. reflexivity.
  - vm_compute. discriminate.
  - vm_compute. discriminate.
  - apply (bool_decide_eq_false_1 _). vm_compute. reflexivity.
  - vm_compute. reflexivity.
  - vm_compute. reflexivity.
  - vm_compute. reflexivity.
Defined.

Lemma C4_demo_without_sandbox_is_not_initialized_witness :
  let w := snd (WormDemo.__init__ Config.CFG (fresh_process w_no_cwd)) in
  exists w',
    WormDemo.demo Config.CFG true true true 12345 w = (Raise (SystemExit 2), w')
    /\ stdout w' = stdout w ++ ["[ERROR] Sandbox not initialized. Run --init first."]
    /\ handlers w' = handlers w
    /\ (forall p, p ∉ handlers w -> fs w' !! p = fs w !! p)
    /\ (forall p, is_Some (fs w' !! p) <-> is_Some (fs w !! p))
    /\ (forall p, fs w' !! p = Some Dir <-> fs w !! p = Some Dir)
    /\ (forall colorama w1,
          WormDemo.init Config.CFG colorama w' = (Ok tt, w1) ->
          exists_ w1 (WormDemo.sandbox Config.CFG) = true
          /\ fst (WormDemo.demo Config.CFG true true true 12345 w1) = Ok tt).
Proof.
  apply (C4_demo_without_sandbox_is_not_initialized Config.CFG true true true 12345).
  vm_compute. reflexivity.
Defined.
